(** * Core-schema generation ([pydantic/_internal/_generate_schema.py])

    A shallow embedding of the schema generator: core schemas as a tagged
    variant (one constructor per family of [pydantic_core] typed dicts), the
    generator's mutable state passed explicitly, exceptions as an outcome. *)

From Stdlib Require Import List String Bool Arith Lia ZArith ListSet.
Import ListNotations.
Open Scope string_scope.

Set Implicit Arguments.
Set Warnings "-register-all".

(** ** Core schemas *)

(** A Python callable is known by its identity only. *)
Definition Callable := nat.

(** [FieldValidatorModes]: 'before' | 'after' | 'plain' | 'wrap'. *)
Inductive FieldValidatorModes := Before | After | Plain | Wrap.

(** Function serializer schemas built by
    [core_schema.wrap_serializer_function_ser_schema] ('function-wrap') and
    [core_schema.plain_serializer_function_ser_schema] ('function-plain'). *)
Inductive SerMode := SerWrap | SerPlain.

Record SerSchemaOf (S : Type) : Type := mkSer {
  ser_mode : SerMode;
  ser_function : Callable;
  ser_is_field_serializer : option bool;
  ser_info_arg : bool;
  ser_return_schema : option S;
  ser_when_used : string
}.

(** The ['metadata'] dict of a schema, with the keys this module touches. An
    absent dict and an empty one are not told apart. *)
Record CoreMetadata : Type := mkMeta {
  pydantic_js_functions : list Callable;
  pydantic_js_annotation_functions : list Callable;
  pydantic_internal_union_discriminator : option string;
  pydantic_internal_tagged_union_tag : option string
}.

Definition no_metadata : CoreMetadata := mkMeta [] [] None None.

(** The keys every schema kind may carry: ['ref'], ['metadata'],
    ['serialization']. *)
Record SlotsOf (S : Type) : Type := mkSlots {
  ref : option string;
  metadata : CoreMetadata;
  serialization : option (SerSchemaOf S)
}.

(** The default carried by a 'default' schema. *)
Inductive DefaultSpec :=
| DefaultValue (default : nat)
| DefaultFactory (default_factory : Callable) (default_factory_takes_data : bool).

Inductive CoreSchema : Type :=
| PlainSchema (type : string) (sl : SlotsOf CoreSchema)
| NullableSchema (schema : CoreSchema) (sl : SlotsOf CoreSchema)
| ItemsSchema (type : string) (items_schema : option CoreSchema) (sl : SlotsOf CoreSchema)
| DictSchema (keys_schema values_schema : option CoreSchema) (sl : SlotsOf CoreSchema)
| TupleSchema (items_schema : list CoreSchema) (variadic_item_index : option nat)
    (sl : SlotsOf CoreSchema)
| UnionSchema (choices : list (CoreSchema * option string)) (sl : SlotsOf CoreSchema)
| FunctionSchema (mode : FieldValidatorModes) (with_info : bool) (function : Callable)
    (schema : option CoreSchema) (field_name : option string) (sl : SlotsOf CoreSchema)
| DefaultSchema (schema : CoreSchema) (default : DefaultSpec) (validate_default : option bool)
    (sl : SlotsOf CoreSchema)
| DefinitionReferenceSchema (schema_ref : string) (sl : SlotsOf CoreSchema)
| DefinitionsSchema (schema : CoreSchema) (definitions : list CoreSchema)
    (sl : SlotsOf CoreSchema)
| ModelFieldsSchema (fields : list (string * CoreSchema)) (model_name : string)
    (sl : SlotsOf CoreSchema)
| ModelSchema (cls : string) (schema : CoreSchema) (root_model : bool)
    (sl : SlotsOf CoreSchema).

Definition SerSchema := SerSchemaOf CoreSchema.
Definition Slots := SlotsOf CoreSchema.

Definition no_slots : Slots := mkSlots None no_metadata None.

(** [schema['type']]. *)
Definition schema_type (s : CoreSchema) : string :=
  match s with
  | PlainSchema t _ => t
  | NullableSchema _ _ => "nullable"
  | ItemsSchema t _ _ => t
  | DictSchema _ _ _ => "dict"
  | TupleSchema _ _ _ => "tuple"
  | UnionSchema _ _ => "union"
  | FunctionSchema Before _ _ _ _ _ => "function-before"
  | FunctionSchema After _ _ _ _ _ => "function-after"
  | FunctionSchema Plain _ _ _ _ _ => "function-plain"
  | FunctionSchema Wrap _ _ _ _ _ => "function-wrap"
  | DefaultSchema _ _ _ _ => "default"
  | DefinitionReferenceSchema _ _ => "definition-ref"
  | DefinitionsSchema _ _ _ => "definitions"
  | ModelFieldsSchema _ _ _ => "model-fields"
  | ModelSchema _ _ _ _ => "model"
  end.

Definition slots (s : CoreSchema) : Slots :=
  match s with
  | PlainSchema _ sl | NullableSchema _ sl | ItemsSchema _ _ sl | DictSchema _ _ sl
  | TupleSchema _ _ sl | UnionSchema _ sl | FunctionSchema _ _ _ _ _ sl
  | DefaultSchema _ _ _ sl | DefinitionReferenceSchema _ sl | DefinitionsSchema _ _ sl
  | ModelFieldsSchema _ _ sl | ModelSchema _ _ _ sl => sl
  end.

Definition set_slots (s : CoreSchema) (sl : Slots) : CoreSchema :=
  match s with
  | PlainSchema t _ => PlainSchema t sl
  | NullableSchema i _ => NullableSchema i sl
  | ItemsSchema t i _ => ItemsSchema t i sl
  | DictSchema k v _ => DictSchema k v sl
  | TupleSchema i v _ => TupleSchema i v sl
  | UnionSchema c _ => UnionSchema c sl
  | FunctionSchema m i f x n _ => FunctionSchema m i f x n sl
  | DefaultSchema x d v _ => DefaultSchema x d v sl
  | DefinitionReferenceSchema r _ => DefinitionReferenceSchema r sl
  | DefinitionsSchema x d _ => DefinitionsSchema x d sl
  | ModelFieldsSchema f n _ => ModelFieldsSchema f n sl
  | ModelSchema c x r _ => ModelSchema c x r sl
  end.

(** [schema.get('ref')], [schema['ref'] = r], [schema.pop('ref', None)]. *)
Definition get_ref (s : CoreSchema) : option string := ref (slots s).

Definition set_ref (s : CoreSchema) (r : option string) : CoreSchema :=
  set_slots s (mkSlots r (metadata (slots s)) (serialization (slots s))).

Definition get_metadata (s : CoreSchema) : CoreMetadata := metadata (slots s).

Definition set_metadata (s : CoreSchema) (m : CoreMetadata) : CoreSchema :=
  set_slots s (mkSlots (ref (slots s)) m (serialization (slots s))).

Definition get_serialization (s : CoreSchema) : option SerSchema := serialization (slots s).

Definition set_serialization (s : CoreSchema) (ser : option SerSchema) : CoreSchema :=
  set_slots s (mkSlots (ref (slots s)) (metadata (slots s)) ser).

(** Constructors of [pydantic_core.core_schema] used below. *)
Definition any_schema : CoreSchema := PlainSchema "any" no_slots.
Definition int_schema : CoreSchema := PlainSchema "int" no_slots.
Definition str_schema : CoreSchema := PlainSchema "str" no_slots.
Definition none_schema : CoreSchema := PlainSchema "none" no_slots.
Definition list_schema (items : CoreSchema) : CoreSchema :=
  ItemsSchema "list" (Some items) no_slots.
Definition set_schema (items : CoreSchema) : CoreSchema :=
  ItemsSchema "set" (Some items) no_slots.
Definition dict_schema (k v : CoreSchema) : CoreSchema :=
  DictSchema (Some k) (Some v) no_slots.
Definition nullable_schema (s : CoreSchema) : CoreSchema := NullableSchema s no_slots.
Definition union_schema (choices : list (CoreSchema * option string)) : CoreSchema :=
  UnionSchema choices no_slots.
Definition definition_reference_schema (schema_ref : string) : CoreSchema :=
  DefinitionReferenceSchema schema_ref no_slots.
Definition definitions_schema (s : CoreSchema) (defs : list CoreSchema) : CoreSchema :=
  DefinitionsSchema s defs no_slots.
Definition with_default_schema (s : CoreSchema) (d : DefaultSpec) (validate_default : option bool)
  : CoreSchema := DefaultSchema s d validate_default no_slots.

(** ** Exceptions and outcomes *)

Inductive Exn :=
| TypeError (msg : string)
| PydanticUserError (msg code : string)
| PydanticUndefinedAnnotation (name : string)
| PydanticSchemaGenerationError (msg : string)
| MissingDefinitionForUnionRef (r : string)
| CollectedInvalid
| AssertionError
| IndexError
| OtherError (msg : string).

(** What running a piece of the generator gives: a value, a raised exception,
    or [Timeout] when a recursion bound is used up. *)
Inductive Outcome (A : Type) : Type :=
| Ok (a : A)
| Raise (e : Exn)
| Timeout.
Arguments Raise {A} e.
Arguments Timeout {A}.

(** ** Decorators *)

(** A [Decorator] with the attributes of its [info] read in this module;
    [info_arg] is what [inspect_validator(func, mode)] answers for it. *)
Record Decorator : Type := mkDecorator {
  func : Callable;
  dec_mode : FieldValidatorModes;
  info_arg : bool;
  dec_fields : list string;
  each_item : bool;
  always : bool
}.

(** [_VALIDATOR_F_MATCH[(mode, val_type)](f, schema, field_name)]: the 'plain'
    entries drop the schema they are given; 'no-info' entries drop the field
    name. *)
Definition VALIDATOR_F_MATCH (mode : FieldValidatorModes) (with_info : bool)
    (f : Callable) (s : CoreSchema) (field_name : option string) : CoreSchema :=
  match mode, with_info with
  | Plain, false => FunctionSchema Plain false f None None no_slots
  | Plain, true => FunctionSchema Plain true f None field_name no_slots
  | m, false => FunctionSchema m false f (Some s) None no_slots
  | m, true => FunctionSchema m true f (Some s) field_name no_slots
  end.

(** [apply_validators]: the loop over the validators, in order. *)
Fixpoint apply_validators (s : CoreSchema) (validators : list Decorator)
    (field_name : option string) : CoreSchema :=
  match validators with
  | [] => s
  | validator :: rest =>
      apply_validators
        (VALIDATOR_F_MATCH (dec_mode validator) (info_arg validator) (func validator) s field_name)
        rest field_name
  end.

(** Modelled from the spec: [is_list_like_schema_with_items_schema] is defined
    in [_core_utils], outside this module; the list-like kinds carrying one
    ['items_schema'] are taken to be list, set and frozenset. *)
Definition is_list_like_schema_with_items_schema (s : CoreSchema) : bool :=
  match s with
  | ItemsSchema t _ _ =>
      if string_dec t "list" then true
      else if string_dec t "set" then true
      else if string_dec t "frozenset" then true else false
  | _ => false
  end.

(** [items[i] = f(items[i])] on a Python list: [IndexError] out of range. *)
Fixpoint list_update (A : Type) (l : list A) (i : nat) (f : A -> A) : option (list A) :=
  match l, i with
  | [], _ => None
  | x :: r, O => Some (f x :: r)
  | x :: r, S j => option_map (cons x) (list_update r j f)
  end.

(** [apply_each_item_validators]. The recursion follows ['nullable']
    wrappers, so it is structural on the schema. *)
Fixpoint apply_each_item_validators (s : CoreSchema) (each_item_validators : list Decorator)
    (field_name : option string) : Outcome CoreSchema :=
  match each_item_validators with
  | [] => Ok s
  | _ =>
    match s with
    | NullableSchema inner sl =>
        match apply_each_item_validators inner each_item_validators field_name with
        | Ok inner' => Ok (NullableSchema inner' sl)
        | Raise e => Raise e
        | Timeout => Timeout
        end
    | TupleSchema items (Some variadic_item_index) sl =>
        match list_update items variadic_item_index
                (fun it => apply_validators it each_item_validators field_name) with
        | Some items' => Ok (TupleSchema items' (Some variadic_item_index) sl)
        | None => Raise IndexError
        end
    | TupleSchema items None sl => Ok s
    | ItemsSchema t items sl =>
        if is_list_like_schema_with_items_schema s then
          let inner_schema := match items with Some i => i | None => any_schema end in
          Ok (ItemsSchema t
                (Some (apply_validators inner_schema each_item_validators field_name)) sl)
        else
          Raise (TypeError
            ("`@validator(..., each_item=True)` cannot be applied to fields with a schema of "
               ++ schema_type s))
    | DictSchema k v sl =>
        let inner_schema := match v with Some i => i | None => any_schema end in
        Ok (DictSchema k (Some (apply_validators inner_schema each_item_validators field_name)) sl)
    | _ =>
        Raise (TypeError
          ("`@validator(..., each_item=True)` cannot be applied to fields with a schema of "
             ++ schema_type s))
    end
  end.

(** ** Generator state *)

(** The configuration options read in this module. [json_encoders], which is
    deprecated, is taken to be unset, so
    [_add_custom_serialization_from_json_encoders] returns its schema. *)
Record ConfigWrapper : Type := mkConfig {
  use_enum_values : bool;
  arbitrary_types_allowed : bool
}.

(** [_Definitions]: the refs being expanded and the finished definitions; the
    dict keeps insertion order. *)
Record _Definitions : Type := mkDefs {
  seen : set string;
  definitions : list (string * CoreSchema)
}.

(** The slots of one [GenerateSchema] instance. Python lists used as stacks
    grow at the end. *)
Record GenerateSchema : Type := mkGenerateSchema {
  _config_wrapper_stack : list ConfigWrapper;
  field_name_stack : list string;
  model_type_stack : list string;
  defs : _Definitions
}.

(** The module-level [SCHEMA_CACHE], keyed by an [int] hash, lives as long as
    the process; [self] is the instance at work. *)
Record World : Type := mkWorld {
  SCHEMA_CACHE : list (Z * CoreSchema);
  self : GenerateSchema
}.

(** [GenerateSchema.__init__]: fresh stacks and a fresh definition table. *)
Definition GenerateSchema_init (config_wrapper : ConfigWrapper) : GenerateSchema :=
  mkGenerateSchema [config_wrapper] [] [] (mkDefs (empty_set string) []).

(** A computation of the generator. *)
Definition M (A : Type) : Type := World -> Outcome A * World.

Definition ret (A : Type) (a : A) : M A := fun w => (Ok a, w).
Definition raise (A : Type) (e : Exn) : M A := fun w => (Raise e, w).
Definition timeout (A : Type) : M A := fun w => (Timeout, w).
Arguments raise {A} e.
Arguments timeout {A}.

Definition bind (A B : Type) (m : M A) (k : A -> M B) : M B :=
  fun w =>
    match m w with
    | (Ok a, w') => k a w'
    | (Raise e, w') => (Raise e, w')
    | (Timeout, w') => (Timeout, w')
    end.

Notation "x <- m ;; k" := (bind m (fun x => k))
  (at level 61, m at next level, right associativity).
Notation "m ;;; k" := (bind m (fun _ => k))
  (at level 61, right associativity).

Definition get_self : M GenerateSchema := fun w => (Ok (self w), w).
Definition put_self (g : GenerateSchema) : M unit :=
  fun w => (Ok tt, mkWorld (SCHEMA_CACHE w) g).
Definition modify_self (f : GenerateSchema -> GenerateSchema) : M unit :=
  fun w => (Ok tt, mkWorld (SCHEMA_CACHE w) (f (self w))).
Definition lift (A : Type) (o : Outcome A) : M A := fun w => (o, w).

(** [try: body finally: cleanup], for a cleanup that cannot fail. *)
Definition try_finally (A : Type) (body : M A) (cleanup : World -> World) : M A :=
  fun w => let (o, w') := body w in (o, cleanup w').

(** A [@contextmanager] generator of the shape [enter; yield; leave], with no
    [try] around the [yield]: when the body raises, the exception is thrown
    into the generator at the [yield] and [leave] is not run. *)
Definition enter_yield_leave (A : Type) (enter leave : World -> World) (body : M A) : M A :=
  fun w =>
    match body (enter w) with
    | (Ok a, w') => (Ok a, leave w')
    | (Raise e, w') => (Raise e, w')
    | (Timeout, w') => (Timeout, w')
    end.

(** *** Dicts keyed by strings or ints, in insertion order *)

Fixpoint dict_get (A : Type) (d : list (string * A)) (k : string) : option A :=
  match d with
  | [] => None
  | (k', v) :: r => if string_dec k k' then Some v else dict_get r k
  end.

(** [d[k] = v]: an existing key keeps its place. *)
Fixpoint dict_set (A : Type) (d : list (string * A)) (k : string) (v : A)
  : list (string * A) :=
  match d with
  | [] => [(k, v)]
  | (k', v') :: r => if string_dec k k' then (k, v) :: r else (k', v') :: dict_set r k v
  end.

Definition dict_mem (A : Type) (d : list (string * A)) (k : string) : bool :=
  match dict_get d k with Some _ => true | None => false end.

Definition dict_values (A : Type) (d : list (string * A)) : list A := map snd d.

Fixpoint cache_get (c : list (Z * CoreSchema)) (k : Z) : option CoreSchema :=
  match c with
  | [] => None
  | (k', v) :: r => if Z.eq_dec k k' then Some v else cache_get r k
  end.

(** [SCHEMA_CACHE.setdefault(k, v)]. *)
Definition cache_setdefault (c : list (Z * CoreSchema)) (k : Z) (v : CoreSchema)
  : list (Z * CoreSchema) :=
  match cache_get c k with Some _ => c | None => c ++ [(k, v)] end.

(** *** The definition table *)

Definition set_defs (d : _Definitions) (g : GenerateSchema) : GenerateSchema :=
  mkGenerateSchema (_config_wrapper_stack g) (field_name_stack g) (model_type_stack g) d.

Definition seen_add (r : string) (w : World) : World :=
  mkWorld (SCHEMA_CACHE w)
    (set_defs (mkDefs (set_add string_dec r (seen (defs (self w))))
                 (definitions (defs (self w)))) (self w)).

Definition seen_discard (r : string) (w : World) : World :=
  mkWorld (SCHEMA_CACHE w)
    (set_defs (mkDefs (set_remove string_dec r (seen (defs (self w))))
                 (definitions (defs (self w)))) (self w)).

(** [self.defs.definitions[r] = s]. *)
Definition definitions_set (r : string) (s : CoreSchema) : M unit :=
  modify_self (fun g =>
    set_defs (mkDefs (seen (defs g)) (dict_set (definitions (defs g)) r s)) g).

Definition get_definitions : M (list (string * CoreSchema)) :=
  fun w => (Ok (definitions (defs (self w))), w).

(** Is [r] in [self.seen] or in [self.definitions]? *)
Definition known (w : World) (r : string) : bool :=
  set_mem string_dec r (seen (defs (self w))) || dict_mem (definitions (defs (self w))) r.

(** [with self.defs.get_schema_or_ref(tp) as (ref, maybe_schema): body], for a
    type whose ref ([get_type_ref(tp)]) is [r]. *)
Definition get_schema_or_ref (A : Type) (r : string)
    (body : string * option CoreSchema -> M A) : M A :=
  fun w =>
    if known w r then body (r, Some (definition_reference_schema r)) w
    else try_finally (body (r, None)) (seen_discard r) (seen_add r w).

(** *** The context stacks *)

Definition set_field_name_stack (l : list string) (w : World) : World :=
  mkWorld (SCHEMA_CACHE w)
    (mkGenerateSchema (_config_wrapper_stack (self w)) l (model_type_stack (self w))
       (defs (self w))).

Definition set_model_type_stack (l : list string) (w : World) : World :=
  mkWorld (SCHEMA_CACHE w)
    (mkGenerateSchema (_config_wrapper_stack (self w)) (field_name_stack (self w)) l
       (defs (self w))).

Definition set_config_wrapper_stack (l : list ConfigWrapper) (w : World) : World :=
  mkWorld (SCHEMA_CACHE w)
    (mkGenerateSchema l (field_name_stack (self w)) (model_type_stack (self w))
       (defs (self w))).

(** [_FieldNameStack.push]. *)
Definition field_name_stack_push (A : Type) (field_name : string) (body : M A) : M A :=
  enter_yield_leave
    (fun w => set_field_name_stack (field_name_stack (self w) ++ [field_name]) w)
    (fun w => set_field_name_stack (removelast (field_name_stack (self w))) w)
    body.

(** [_FieldNameStack.get]. *)
Definition field_name_stack_get (w : World) : option string :=
  match field_name_stack (self w) with
  | [] => None
  | x :: r => Some (last r x)
  end.

(** [_ModelTypeStack.push]. *)
Definition model_type_stack_push (A : Type) (type_obj : string) (body : M A) : M A :=
  enter_yield_leave
    (fun w => set_model_type_stack (model_type_stack (self w) ++ [type_obj]) w)
    (fun w => set_model_type_stack (removelast (model_type_stack (self w))) w)
    body.

(** [_ModelTypeStack.get]. *)
Definition model_type_stack_get (w : World) : option string :=
  match model_type_stack (self w) with
  | [] => None
  | x :: r => Some (last r x)
  end.

(** [ConfigWrapperStack.push], defined in [_config]: it pops in a [finally]. *)
Definition config_wrapper_stack_push (A : Type) (c : ConfigWrapper) (body : M A) : M A :=
  fun w =>
    try_finally body
      (fun w' => set_config_wrapper_stack (removelast (_config_wrapper_stack (self w'))) w')
      (set_config_wrapper_stack (_config_wrapper_stack (self w) ++ [c]) w).

(** [self._config_wrapper], the tail of the stack. *)
Definition _config_wrapper (w : World) : ConfigWrapper :=
  last (_config_wrapper_stack (self w)) (mkConfig false false).

(** ** Type descriptors, metadata and classes *)

(** What an annotation's [__get_pydantic_core_schema__(source, handler)] does:
    [HookWrap w] calls [handler(source)] once and answers [w] of the schema it
    got, [w] being given [handler.field_name]; [HookReplace s] answers [s]
    without calling the handler. *)
Inductive Hook :=
| HookWrap (w : option string -> CoreSchema -> CoreSchema)
| HookReplace (s : CoreSchema).

(** The attributes of a [FieldInfo] that decide the default and the
    discriminator; [default = None] stands for [PydanticUndefined], and a
    factory comes with what [takes_validated_data_argument] says of it. *)
Record FieldInfoAttrs : Type := mkAttrs {
  default : option nat;
  default_factory : option (Callable * bool);
  validate_default : option bool;
  discriminator : option string
}.

(** A metadata object of an [Annotated] type or of a field: [None], a
    [FieldInfo], or any other object, known by its [repr], its core-schema
    hook and its [__get_pydantic_json_schema__], where it has them. *)
Inductive Annotation :=
| AnnNone
| Ann (repr : string) (get_pydantic_core_schema : option Hook)
      (get_pydantic_json_schema : option Callable)
| AnnFieldInfo (metadata : list Annotation) (attrs : FieldInfoAttrs).

Definition ann_repr (a : Annotation) : string :=
  match a with
  | AnnNone => "None"
  | Ann r _ _ => r
  | AnnFieldInfo _ _ => "FieldInfo"
  end.

(** The type descriptors of the fragment: the primitives [match_type] maps to
    a schema of their own kind, [Any], [None], list, set, frozenset and dict,
    [Union], model classes (by name), [Annotated], [typing.Self],
    [PydanticRecursiveRef], and classes with no schema of their own. *)
Inductive Ty :=
| TPrim (name : string)
| TAny
| TNoneType
| TList (items_type : Ty)
| TSet (items_type : Ty)
| TFrozenSet (items_type : Ty)
| TDict (keys_type values_type : Ty)
| TUnion (args : list Ty)
| TModel (cls : string)
| TAnnotated (source_type : Ty) (annotations : list Annotation)
| TSelf
| TRecursiveRef (type_ref : string)
| TUnknown (name : string).

(** A [FieldInfo] of a model, already evaluated ([field_info.evaluated]), so
    the re-evaluation at the head of [_common_field_schema] is skipped. *)
Record FieldInfo : Type := mkFieldInfo {
  annotation : Ty;
  fi_metadata : list Annotation;
  fi_attrs : FieldInfoAttrs;
  cache_key : option Z
}.

(** What [_decorators.get_function_return_type] gives for a serializer. *)
Inductive ReturnType :=
| ReturnUndefined
| ReturnType_ (t : Ty)
| ReturnNameError (name : string).

(** A serializer decorator: ['wrap'] or ['plain'] in [ser_dec_mode];
    [ser_inspect] is what [inspect_field_serializer] (a pair) or
    [inspect_model_serializer] (its second half) says of it. *)
Record SerializerDecorator : Type := mkSerDec {
  ser_func : Callable;
  ser_dec_mode : FieldValidatorModes;
  ser_fields : list string;
  ser_inspect : bool * bool;
  ser_return_type : ReturnType;
  ser_dec_when_used : string
}.

(** A model class: [__pydantic_fields__], [model_config],
    [__pydantic_root_model__] and [__pydantic_decorators__]. Classes are taken
    without computed fields and with [extra] other than 'allow'. *)
Record ModelClass : Type := mkModel {
  pydantic_fields : list (string * FieldInfo);
  model_config : ConfigWrapper;
  pydantic_root_model : bool;
  field_validators : list Decorator;
  validators : list Decorator;
  root_validators : list Decorator;
  field_serializers : list SerializerDecorator;
  model_validators : list Decorator;
  model_serializers : list SerializerDecorator
}.

(** ** Decorator filters *)

Definition mem_string (x : string) (l : list string) : bool :=
  if in_dec string_dec x l then true else false.

(** [check_validator_fields_against_field_name]. *)
Definition check_validator_fields_against_field_name (fields : list string) (field : string)
  : bool :=
  if mem_string "*" fields then true else mem_string field fields.

(** [filter_field_decorator_info_by_field]. *)
Definition filter_field_decorator_info_by_field (validator_functions : list Decorator)
    (field : string) : list Decorator :=
  filter (fun dec => check_validator_fields_against_field_name (dec_fields dec) field)
    validator_functions.

Definition filter_field_serializers_by_field (serializers : list SerializerDecorator)
    (field : string) : list SerializerDecorator :=
  filter (fun dec => check_validator_fields_against_field_name (ser_fields dec) field)
    serializers.

(** [check_decorator_fields_exist], over the field lists of the decorators
    (all with [check_fields] left unset). *)
Fixpoint check_decorator_fields_exist (decorators : list (list string)) (fields : list string)
  : Outcome unit :=
  match decorators with
  | [] => Ok tt
  | dec :: rest =>
      if mem_string "*" dec then check_decorator_fields_exist rest fields
      else if forallb (fun field => mem_string field fields) dec
           then check_decorator_fields_exist rest fields
           else Raise (PydanticUserError "Decorators defined with incorrect fields"
                         "decorator-missing-field")
  end.

(** [_validators_require_validate_default]. *)
Definition _validators_require_validate_default (validators : list Decorator) : bool :=
  existsb always validators.

(** ** Defaults and model validators *)

(** [wrap_default]. *)
Definition wrap_default (field_info : FieldInfoAttrs) (s : CoreSchema) : CoreSchema :=
  match default_factory field_info with
  | Some (f, takes_data) =>
      with_default_schema s (DefaultFactory f takes_data) (validate_default field_info)
  | None =>
      match default field_info with
      | Some d => with_default_schema s (DefaultValue d) (validate_default field_info)
      | None => s
      end
  end.

(** [FieldInfo.is_required]: no default and no factory. *)
Definition is_required (field_info : FieldInfoAttrs) : bool :=
  match default field_info, default_factory field_info with
  | None, None => true
  | _, _ => false
  end.

Inductive ModelValidatorPhase := Inner | Outer | All.

(** [apply_model_validators]: the ref is taken off first and put back on the
    outermost schema; a 'plain' mode fails the final assertion. *)
Fixpoint apply_model_validators_loop (s : CoreSchema) (validators : list Decorator)
    (mode : ModelValidatorPhase) : Outcome CoreSchema :=
  match validators with
  | [] => Ok s
  | validator :: rest =>
      let skip :=
        match mode, dec_mode validator with
        | Inner, Before => false
        | Inner, _ => true
        | Outer, Before => true
        | _, _ => false
        end in
      if skip then apply_model_validators_loop s rest mode
      else
        match dec_mode validator with
        | Plain => Raise AssertionError
        | m =>
            apply_model_validators_loop
              (FunctionSchema m (info_arg validator) (func validator) (Some s) None no_slots)
              rest mode
        end
  end.

Definition apply_model_validators (s : CoreSchema) (validators : list Decorator)
    (mode : ModelValidatorPhase) : Outcome CoreSchema :=
  let r := get_ref s in
  match apply_model_validators_loop (set_ref s None) validators mode with
  | Ok s' => Ok (match r with
                 | Some x => if string_dec x "" then s' else set_ref s' (Some x)
                 | None => s'
                 end)
  | o => o
  end.

(** ** The generator *)

Section Generator.

(** What the module takes from its collaborators: [_core_utils.get_type_ref],
    the classes in scope, [_known_annotated_metadata.apply_known_metadata] and
    [expand_grouped_metadata], [_discriminated_union.apply_discriminator],
    [hash] on the pair (cache key, enum-value policy), and the
    [__get_pydantic_json_schema__] a type has, if any. *)
Variable get_type_ref : Ty -> string.
Variable classes : list (string * ModelClass).
Variable apply_known_metadata : Annotation -> CoreSchema -> option CoreSchema.
Variable expand_grouped_metadata : list Annotation -> list Annotation.
Variable apply_discriminator : CoreSchema -> string -> Outcome CoreSchema.
Variable hash : Z -> bool -> Z.
Variable _extract_get_pydantic_json_schema : Ty -> option Callable.

(** Modelled from the spec: [set_discriminator_in_metadata] belongs to
    [_discriminated_union]; it records the discriminator requirement as
    pending metadata on the schema. *)
Definition set_discriminator_in_metadata (s : CoreSchema) (d : string) : CoreSchema :=
  let m := get_metadata s in
  set_metadata s
    (mkMeta (pydantic_js_functions m) (pydantic_js_annotation_functions m) (Some d)
       (pydantic_internal_tagged_union_tag m)).

(** [_apply_discriminator_to_union]. *)
Definition _apply_discriminator_to_union (s : CoreSchema) (d : option string) : M CoreSchema :=
  match d with
  | None => ret s
  | Some d =>
      match apply_discriminator s d with
      | Ok s' => ret s'
      | Raise (MissingDefinitionForUnionRef _) => ret (set_discriminator_in_metadata s d)
      | Raise e => raise e
      | Timeout => timeout
      end
  end.

(** The tail of [_apply_single_annotation], for metadata that is not a
    [FieldInfo], reading the definition table [definitions]. *)
Definition apply_known_or_original (md : Annotation) (s original_schema : CoreSchema)
  : CoreSchema :=
  match apply_known_metadata md s with
  | Some maybe_updated_schema => maybe_updated_schema
  | None => original_schema
  end.

Definition derived_ref (r : string) (md : Annotation) : string :=
  r ++ "_" ++ ann_repr md.

Fixpoint apply_single_annotation_on (definitions : list (string * CoreSchema))
    (md : Annotation) (s : CoreSchema) : CoreSchema :=
  match s with
  | NullableSchema inner sl => NullableSchema (apply_single_annotation_on definitions md inner) sl
  | _ =>
      match get_ref s with
      | Some r =>
          let new_ref := derived_ref r md in
          match dict_get definitions new_ref with
          | Some cached => cached
          | None => apply_known_or_original md (set_ref s (Some new_ref)) s
          end
      | None =>
          match s with
          | DefinitionReferenceSchema r _ =>
              match dict_get definitions r with
              | Some d =>
                  let new_ref := derived_ref r md in
                  match dict_get definitions new_ref with
                  | Some cached => cached
                  | None => apply_known_or_original md (set_ref d (Some new_ref)) s
                  end
              | None => apply_known_or_original md s s
              end
          | _ => apply_known_or_original md s s
          end
      end
  end.

(** [_apply_single_annotation]. *)
Fixpoint _apply_single_annotation (md : Annotation) : CoreSchema -> M CoreSchema :=
  match md with
  | AnnFieldInfo field_metadata attrs => fun s =>
      s' <- (fix loop (l : list Annotation) (s : CoreSchema) {struct l} : M CoreSchema :=
               match l with
               | [] => ret s
               | m :: r => s1 <- _apply_single_annotation m s ;; loop r s1
               end) field_metadata s ;;
      match discriminator attrs with
      | Some d => _apply_discriminator_to_union s' (Some d)
      | None => ret s'
      end
  | _ => fun s =>
      definitions <- get_definitions ;;
      ret (apply_single_annotation_on definitions md s)
  end.

(** [_apply_single_annotation_json_schema] only adds documentation hints
    (title, description, examples) to the metadata; they are not part of
    [CoreMetadata], so the schema comes back as it went in. *)
Definition _apply_single_annotation_json_schema (s : CoreSchema) (md : Annotation)
  : CoreSchema := s.

(** *** Handlers *)

(** A handler maps a source type to a schema; the list of JSON-schema
    functions that [_apply_annotations] collects is passed along. *)
Definition Handler : Type := Ty -> list Callable -> M (CoreSchema * list Callable).

Inductive RefMode := ToDef | Unpack.

(** Modelled from the spec: [CallbackGetCoreSchemaHandler.__call__] belongs to
    [_schema_generation_shared]. In mode 'to-def' a schema bearing a ref is
    stored in the definition table and a reference node is answered; in mode
    'unpack' a reference node is resolved against the table and a
    'definitions' schema gives its inner schema. *)
Definition resolve_by_ref_mode (ref_mode : RefMode) (s : CoreSchema) : M CoreSchema :=
  match ref_mode with
  | ToDef =>
      match get_ref s with
      | Some r => definitions_set r s ;;; ret (definition_reference_schema r)
      | None => ret s
      end
  | Unpack =>
      match s with
      | DefinitionReferenceSchema r _ =>
          definitions <- get_definitions ;;
          match dict_get definitions r with
          | Some d => ret d
          | None => raise (OtherError "LookupError")
          end
      | DefinitionsSchema inner _ _ => ret inner
      | _ => ret s
      end
  end.

Definition CallbackGetCoreSchemaHandler (h : Handler) (ref_mode : RefMode) : Handler :=
  fun source js =>
    r <- h source js ;;
    s <- resolve_by_ref_mode ref_mode (fst r) ;;
    ret (s, snd r).

Definition handler_field_name : M (option string) :=
  fun w => (Ok (field_name_stack_get w), w).

(** [_get_wrapped_inner_schema]: the handler that runs the annotation's hook
    on [get_inner_schema], then [_apply_single_annotation]. *)
Definition new_handler (get_inner_schema : Handler) (ann : Annotation) : Handler :=
  fun source js =>
    r <- match ann with
         | Ann _ (Some (HookWrap w)) _ =>
             r <- get_inner_schema source js ;;
             fn <- handler_field_name ;;
             ret (w fn (fst r), snd r)
         | Ann _ (Some (HookReplace s)) _ => ret (s, js)
         | _ => get_inner_schema source js
         end ;;
    s <- _apply_single_annotation ann (fst r) ;;
    let s := _apply_single_annotation_json_schema s ann in
    match ann with
    | Ann _ _ (Some metadata_js_function) => ret (s, (snd r ++ [metadata_js_function])%list)
    | _ => ret (s, snd r)
    end.

Definition _get_wrapped_inner_schema (get_inner_schema : Handler) (ann : Annotation)
  : Handler :=
  CallbackGetCoreSchemaHandler (new_handler get_inner_schema ann) ToDef.

(** The loop of [_apply_annotations] that wraps the handler once per
    annotation, skipping [None]. *)
Fixpoint wrap_handlers (get_inner_schema : Handler) (annotations : list Annotation)
  : Handler :=
  match annotations with
  | [] => get_inner_schema
  | AnnNone :: rest => wrap_handlers get_inner_schema rest
  | ann :: rest => wrap_handlers (_get_wrapped_inner_schema get_inner_schema ann) rest
  end.

(** *** JSON-schema functions on the original schema *)

(** [_add_js_function] on the metadata of one schema. *)
Definition add_js_function (s : CoreSchema) (js_function : Callable) : CoreSchema :=
  let m := get_metadata s in
  if in_dec Nat.eq_dec js_function (pydantic_js_functions m) then s
  else set_metadata s
         (mkMeta (pydantic_js_functions m ++ [js_function])
            (pydantic_js_annotation_functions m)
            (pydantic_internal_union_discriminator m)
            (pydantic_internal_tagged_union_tag m)).

(** [resolve_original_schema] followed by [_add_js_function]: the schema that
    is changed in place is the table's entry for a reference node, the inner
    schema of a 'definitions' schema, and else the schema itself. *)
Definition add_js_function_to_original (s : CoreSchema) (js_function : Callable)
  : M CoreSchema :=
  match s with
  | DefinitionReferenceSchema r _ =>
      definitions <- get_definitions ;;
      match dict_get definitions r with
      | Some d => definitions_set r (add_js_function d js_function) ;;; ret s
      | None => ret s
      end
  | DefinitionsSchema inner ds sl => ret (DefinitionsSchema (add_js_function inner js_function) ds sl)
  | _ => ret (add_js_function s js_function)
  end.

Definition add_metadata_js_function (obj : Ty) (s : CoreSchema) : M CoreSchema :=
  match _extract_get_pydantic_json_schema obj with
  | Some metadata_js_function => add_js_function_to_original s metadata_js_function
  | None => ret s
  end.

(** *** Schemas from the per-type hook *)

(** [_resolve_self_type]. *)
Definition _resolve_self_type : M Ty :=
  fun w =>
    match model_type_stack_get w with
    | Some cls => (Ok (TModel cls), w)
    | None => (Raise (PydanticUserError "`typing.Self` is invalid in this context"
                        "invalid-self-type"), w)
    end.

(** [_unpack_refs_defs]. *)
Fixpoint store_definitions (l : list CoreSchema) : M unit :=
  match l with
  | [] => ret tt
  | s :: r =>
      match get_ref s with
      | Some x => definitions_set x s ;;; store_definitions r
      | None => raise (OtherError "KeyError")
      end
  end.

Definition _unpack_refs_defs (s : CoreSchema) : M CoreSchema :=
  match s with
  | DefinitionsSchema inner ds _ => store_definitions ds ;;; ret inner
  | _ => ret s
  end.

(** Modelled from the spec: [is_function_with_inner_schema] belongs to
    [_core_utils]: the before, after and wrap function schemas. *)
Definition is_function_with_inner_schema (s : CoreSchema) : bool :=
  match s with
  | FunctionSchema Before _ _ _ _ _ | FunctionSchema After _ _ _ _ _
  | FunctionSchema Wrap _ _ _ _ _ => true
  | _ => false
  end.

Definition truthy_ref (r : option string) : option string :=
  match r with
  | Some x => if string_dec x "" then None else Some x
  | None => None
  end.

(** The end of [_generate_schema_from_property], from [_unpack_refs_defs]
    on. *)
Definition register_hook_schema (s : CoreSchema) : M CoreSchema :=
  s <- _unpack_refs_defs s ;;
  let '(s, r) :=
    match s with
    | FunctionSchema m i f (Some inner) n sl =>
        if is_function_with_inner_schema s then
          match truthy_ref (get_ref inner) with
          | Some x => (set_ref (FunctionSchema m i f (Some (set_ref inner None)) n sl) (Some x),
                       Some x)
          | None => (FunctionSchema m i f (Some (set_ref inner None)) n sl, get_ref inner)
          end
        else (s, get_ref s)
    | _ => (s, get_ref s)
    end in
  match truthy_ref r with
  | Some x => definitions_set x s ;;; ret (definition_reference_schema x)
  | None => ret s
  end.

(** [_generate_schema_from_property(obj, source)], with [inner] for
    [self._generate_schema_inner]. Of the types of the fragment only model
    classes have a [__get_pydantic_core_schema__] (the one of [BaseModel],
    which calls [handler(source)] for a class that has no schema yet);
    [same] tells whether [obj is source] at the call. *)
Definition _generate_schema_from_property (inner : Ty -> M CoreSchema) (obj source : Ty)
    (same : bool) : M (option CoreSchema) :=
  resolved <- match obj with
              | TSelf => o <- _resolve_self_type ;; ret (o, false)
              | _ => ret (obj, same)
              end ;;
  let obj := fst resolved in
  maybe_schema <- get_schema_or_ref (get_type_ref obj) (fun p => ret (snd p)) ;;
  match maybe_schema with
  | Some s => ret (Some s)
  | None =>
      let ref_mode := if snd resolved then Unpack else ToDef in
      match obj with
      | TModel _ =>
          r <- CallbackGetCoreSchemaHandler (fun t js => s <- inner t ;; ret (s, js))
                 ref_mode source [] ;;
          s <- register_hook_schema (fst r) ;;
          ret (Some s)
      | _ => ret None
      end
  end.

(** [generate_schema], with [from_dunder_get_core_schema] left at [True]. *)
Definition generate_schema_with (inner : Ty -> M CoreSchema) (obj : Ty) : M CoreSchema :=
  from_property <- _generate_schema_from_property inner obj obj true ;;
  s <- match from_property with
       | Some s => ret s
       | None => inner obj
       end ;;
  add_metadata_js_function obj s.

(** [_apply_annotations]; [_get_prepare_pydantic_annotations_for_known_type]
    answers [None] for the types of the fragment. *)
Definition inner_handler (inner : Ty -> M CoreSchema) (source_type : Ty)
    (transform_inner_schema : CoreSchema -> M CoreSchema) : Handler :=
  fun obj js =>
    from_property <- _generate_schema_from_property inner obj source_type true ;;
    s <- match from_property with
         | Some s => ret s
         | None => inner obj
         end ;;
    s <- add_metadata_js_function obj s ;;
    s <- transform_inner_schema s ;;
    ret (s, js).

Definition update_js_annotation_functions (s : CoreSchema) (js : list Callable) : CoreSchema :=
  match js with
  | [] => s
  | _ =>
      let m := get_metadata s in
      set_metadata s
        (mkMeta (pydantic_js_functions m) (pydantic_js_annotation_functions m ++ js)
           (pydantic_internal_union_discriminator m)
           (pydantic_internal_tagged_union_tag m))
  end.

Definition _apply_annotations (inner : Ty -> M CoreSchema) (source_type : Ty)
    (annotations : list Annotation) (transform_inner_schema : CoreSchema -> M CoreSchema)
  : M CoreSchema :=
  let annotations := expand_grouped_metadata annotations in
  let get_inner_schema :=
    wrap_handlers
      (CallbackGetCoreSchemaHandler (inner_handler inner source_type transform_inner_schema) ToDef)
      annotations in
  r <- get_inner_schema source_type [] ;;
  ret (update_js_annotation_functions (fst r) (snd r)).

(** *** Serializers *)

Definition last_opt (A : Type) (l : list A) : option A :=
  match l with
  | [] => None
  | x :: r => Some (last r x)
  end.

(** The return schema of a serializer, from
    [_decorators.get_function_return_type]. *)
Definition serializer_return_schema (gen : Ty -> M CoreSchema) (rt : ReturnType)
  : M (option CoreSchema) :=
  match rt with
  | ReturnNameError name => raise (PydanticUndefinedAnnotation name)
  | ReturnUndefined => ret None
  | ReturnType_ t => s <- gen t ;; ret (Some s)
  end.

(** [_apply_field_serializers], with [gen] for [self.generate_schema]. *)
Fixpoint _apply_field_serializers (gen : Ty -> M CoreSchema) (s : CoreSchema)
    (serializers : list SerializerDecorator) : M CoreSchema :=
  match last_opt serializers with
  | None => ret s
  | Some serializer =>
      match s with
      | DefinitionsSchema inner_schema ds sl =>
          inner' <- _apply_field_serializers gen inner_schema serializers ;;
          ret (DefinitionsSchema inner' ds sl)
      | _ =>
          s <- match get_ref s with
               | Some r => definitions_set r s ;;; ret (definition_reference_schema r)
               | None => ret s
               end ;;
          return_schema <- serializer_return_schema gen (ser_return_type serializer) ;;
          match ser_dec_mode serializer with
          | Wrap =>
              ret (set_serialization s
                     (Some (mkSer SerWrap (ser_func serializer)
                              (Some (fst (ser_inspect serializer)))
                              (snd (ser_inspect serializer)) return_schema
                              (ser_dec_when_used serializer))))
          | Plain =>
              ret (set_serialization s
                     (Some (mkSer SerPlain (ser_func serializer)
                              (Some (fst (ser_inspect serializer)))
                              (snd (ser_inspect serializer)) return_schema
                              (ser_dec_when_used serializer))))
          | _ => raise AssertionError
          end
      end
  end.

(** [_apply_model_serializers]. *)
Definition _apply_model_serializers (gen : Ty -> M CoreSchema) (s : CoreSchema)
    (serializers : list SerializerDecorator) : M CoreSchema :=
  let r := get_ref s in
  let s := set_ref s None in
  s <- match last_opt serializers with
       | None => ret s
       | Some serializer =>
           return_schema <- serializer_return_schema gen (ser_return_type serializer) ;;
           let ser_schema :=
             match ser_dec_mode serializer with
             | Wrap => mkSer SerWrap (ser_func serializer) None (snd (ser_inspect serializer))
                         return_schema (ser_dec_when_used serializer)
             | _ => mkSer SerPlain (ser_func serializer) None (snd (ser_inspect serializer))
                      return_schema (ser_dec_when_used serializer)
             end in
           ret (set_serialization s (Some ser_schema))
       end ;;
  match truthy_ref r with
  | Some x => ret (set_ref s (Some x))
  | None => ret s
  end.

(** *** Unions and [Annotated] *)

(** The first loop of [_union_schema]. *)
Fixpoint union_members (gen : Ty -> M CoreSchema) (args : list Ty)
    (choices : list CoreSchema) (nullable : bool) : M (list CoreSchema * bool) :=
  match args with
  | [] => ret (choices, nullable)
  | TNoneType :: rest => union_members gen rest choices true
  | arg :: rest => s <- gen arg ;; union_members gen rest (choices ++ [s])%list nullable
  end.

Definition choice_with_tag (choice : CoreSchema) : CoreSchema * option string :=
  (choice, pydantic_internal_tagged_union_tag (get_metadata choice)).

(** The rest of [_union_schema], once the members are classified. *)
Definition union_of_choices (choices : list CoreSchema) (nullable : bool) : CoreSchema :=
  let s :=
    match choices with
    | [only] => only
    | _ => union_schema (map choice_with_tag choices)
    end in
  if nullable then nullable_schema s else s.

(** [_union_schema]; without arguments [_get_args_resolving_forward_refs]
    raises. *)
Definition _union_schema (gen : Ty -> M CoreSchema) (args : list Ty) : M CoreSchema :=
  match args with
  | [] => raise (TypeError "Expected Union to have generic parameters but it had none")
  | _ =>
      r <- union_members gen args [] false ;;
      ret (union_of_choices (fst r) (snd r))
  end.

(** The loop of [_annotated_schema] that puts the default validators last. *)
Fixpoint wrap_defaults (annotations : list Annotation) (s : CoreSchema) : CoreSchema :=
  match annotations with
  | [] => s
  | AnnFieldInfo _ attrs :: rest => wrap_defaults rest (wrap_default attrs s)
  | _ :: rest => wrap_defaults rest s
  end.

(** [_annotated_schema]. *)
Definition _annotated_schema (inner : Ty -> M CoreSchema) (source_type : Ty)
    (annotations : list Annotation) : M CoreSchema :=
  s <- _apply_annotations inner source_type annotations (@ret CoreSchema) ;;
  ret (wrap_defaults annotations s).

(** *** Fields *)

(** Modelled from the spec: [_mode_to_validator[mode]._from_decorator] gives
    a [BeforeValidator], [AfterValidator], [PlainValidator] or
    [WrapValidator] of [functional_validators]; its hook calls the handler
    and attaches the function in the decorator's mode, with the handler's
    field name. *)
Definition validator_from_decorator (d : Decorator) : Annotation :=
  Ann (match dec_mode d with
       | Before => "BeforeValidator" | After => "AfterValidator"
       | Plain => "PlainValidator" | Wrap => "WrapValidator"
       end)
      (Some (HookWrap (fun field_name s =>
         VALIDATOR_F_MATCH (dec_mode d) (info_arg d) (func d) s field_name)))
      None.

Definition get_world : M World := fun w => (Ok w, w).

Definition schema_cache_setdefault (k : Z) (s : CoreSchema) : M unit :=
  fun w => (Ok tt, mkWorld (cache_setdefault (SCHEMA_CACHE w) k s) (self w)).

(** The body of [with self.field_name_stack.push(name)] in
    [_common_field_schema]. *)
Definition field_schema_cached (inner : Ty -> M CoreSchema) (field_info : FieldInfo)
    (validators_from_decorators : list Annotation) : M CoreSchema :=
  let source_type := annotation field_info in
  let annotations := (fi_metadata field_info ++ validators_from_decorators)%list in
  match discriminator (fi_attrs field_info) with
  | Some d =>
      _apply_annotations inner source_type annotations
        (fun s => _apply_discriminator_to_union s (Some d))
  | None =>
      _apply_annotations inner source_type annotations (@ret CoreSchema) ;;;
      w <- get_world ;;
      match cache_key field_info with
      | Some field_info_cache_key =>
          let cache_key := hash field_info_cache_key (use_enum_values (_config_wrapper w)) in
          match cache_get (SCHEMA_CACHE w) cache_key with
          | Some s => ret s
          | None =>
              s <- _apply_annotations inner source_type annotations (@ret CoreSchema) ;;
              schema_cache_setdefault cache_key s ;;;
              ret s
          end
      | None => _apply_annotations inner source_type annotations (@ret CoreSchema)
      end
  end.

(** [_common_field_schema], as far as the ['schema'] of the [_CommonField] it
    answers; aliases, titles and the other entries are not modelled. *)
Definition _common_field_schema (inner : Ty -> M CoreSchema) (name : string)
    (field_info : FieldInfo) (decorators : ModelClass) : M CoreSchema :=
  let validators_from_decorators :=
    map validator_from_decorator
      (filter_field_decorator_info_by_field (field_validators decorators) name) in
  s <- field_name_stack_push name
         (field_schema_cached inner field_info validators_from_decorators) ;;
  let this_field_validators :=
    filter_field_decorator_info_by_field (validators decorators) name in
  let attrs := fi_attrs field_info in
  let attrs :=
    if _validators_require_validate_default this_field_validators
    then mkAttrs (default attrs) (default_factory attrs) (Some true) (discriminator attrs)
    else attrs in
  let each_item_validators := filter each_item this_field_validators in
  let this_field_validators := filter (fun v => negb (each_item v)) this_field_validators in
  s <- lift (apply_each_item_validators s each_item_validators (Some name)) ;;
  let s := apply_validators s this_field_validators (Some name) in
  let s := if is_required attrs then s else wrap_default attrs s in
  _apply_field_serializers (generate_schema_with inner) s
    (filter_field_serializers_by_field (field_serializers decorators) name).

(** *** Models *)

Fixpoint model_fields (inner : Ty -> M CoreSchema) (decorators : ModelClass)
    (fields : list (string * FieldInfo)) : M (list (string * CoreSchema)) :=
  match fields with
  | [] => ret []
  | (k, v) :: rest =>
      s <- _common_field_schema inner k v decorators ;;
      r <- model_fields inner decorators rest ;;
      ret ((k, s) :: r)
  end.

(** [core_schema.model_schema(cls, inner_schema, ..., ref=model_ref)]. *)
Definition model_schema (cls : string) (inner_schema : CoreSchema) (root_model : bool)
    (model_ref : string) : CoreSchema :=
  ModelSchema cls inner_schema root_model (mkSlots (Some model_ref) no_metadata None).

(** The body of [_model_schema] once [maybe_schema] is [None]; each field of
    the 'model-fields' schema is kept as the schema of its [ModelField]. A
    name with no class behind it is an undefined annotation. *)
Definition build_model_schema (inner : Ty -> M CoreSchema) (cls : string)
    (model_ref : string) : M CoreSchema :=
  match dict_get classes cls with
  | None => raise (PydanticUndefinedAnnotation cls)
  | Some c =>
      let fields := pydantic_fields c in
      lift (check_decorator_fields_exist
              (map dec_fields (field_validators c) ++ map ser_fields (field_serializers c)
                 ++ map dec_fields (validators c))%list
              (map fst fields)) ;;;
      config_wrapper_stack_push (model_config c)
        (model_schema <-
           (if pydantic_root_model c then
              match dict_get fields "root" with
              | None => raise (OtherError "KeyError")
              | Some root =>
                  inner_schema <- _common_field_schema inner "root" root c ;;
                  inner_schema <- lift (apply_model_validators inner_schema
                                          (model_validators c) Inner) ;;
                  ret (model_schema cls inner_schema true model_ref)
              end
            else
              fs <- model_fields inner c fields ;;
              let fields_schema := ModelFieldsSchema fs cls no_slots in
              let inner_schema := apply_validators fields_schema (root_validators c) None in
              inner_schema <- lift (apply_model_validators inner_schema
                                      (model_validators c) Inner) ;;
              ret (model_schema cls inner_schema false model_ref)) ;;
         s <- _apply_model_serializers (generate_schema_with inner) model_schema
                (model_serializers c) ;;
         s <- lift (apply_model_validators s (model_validators c) Outer) ;;
         definitions_set model_ref s ;;;
         ret (definition_reference_schema model_ref))
  end.

(** [_model_schema]. *)
Definition _model_schema (inner : Ty -> M CoreSchema) (cls : string) : M CoreSchema :=
  get_schema_or_ref (get_type_ref (TModel cls)) (fun p =>
    match snd p with
    | Some maybe_schema => ret maybe_schema
    | None => build_model_schema inner cls (fst p)
    end).

(** *** The dispatcher *)

(** [match_type] and [_match_generic_type] on the types of the fragment. *)
Definition match_type (inner : Ty -> M CoreSchema) (obj : Ty) : M CoreSchema :=
  let gen := generate_schema_with inner in
  match obj with
  | TPrim name => ret (PlainSchema name no_slots)
  | TAny => ret any_schema
  | TNoneType => ret none_schema
  | TList t => s <- gen t ;; ret (list_schema s)
  | TSet t => s <- gen t ;; ret (set_schema s)
  | TFrozenSet t => s <- gen t ;; ret (ItemsSchema "frozenset" (Some s) no_slots)
  | TDict k v => ks <- gen k ;; vs <- gen v ;; ret (dict_schema ks vs)
  | TUnion args => _union_schema gen args
  | _ =>
      w <- get_world ;;
      if arbitrary_types_allowed (_config_wrapper w)
      then ret (PlainSchema "is-instance" no_slots)
      else raise (PydanticSchemaGenerationError "Unable to generate pydantic-core schema")
  end.

(** The body of [_generate_schema_inner], with [inner] for its own recursive
    calls. *)
Definition _generate_schema_inner_body (inner : Ty -> M CoreSchema) (obj : Ty)
  : M CoreSchema :=
  match obj with
  | TAnnotated source_type annotations => _annotated_schema inner source_type annotations
  | TModel cls => model_type_stack_push cls (_model_schema inner cls)
  | TRecursiveRef type_ref => ret (definition_reference_schema type_ref)
  | _ => match_type inner obj
  end.

(** [_generate_schema_inner]: the recursion of the generator, bounded by
    [fuel] nested calls. *)
Fixpoint _generate_schema_inner (fuel : nat) (obj : Ty) : M CoreSchema :=
  match fuel with
  | O => timeout
  | S n => _generate_schema_inner_body (_generate_schema_inner n) obj
  end.

Definition generate_schema (fuel : nat) (obj : Ty) : M CoreSchema :=
  generate_schema_with (_generate_schema_inner fuel) obj.

(** *** Finalization *)

Variable simplify_schema_references : CoreSchema -> CoreSchema.
Variable collect_invalid_schemas : CoreSchema -> bool.
Variable apply_discriminators : CoreSchema -> Outcome CoreSchema.
Variable validate_core_schema : CoreSchema -> Outcome CoreSchema.

(** [collect_definitions]. *)
Definition collect_definitions (s : CoreSchema) : M CoreSchema :=
  match truthy_ref (get_ref s) with
  | Some r => definitions_set r s
  | None => ret tt
  end ;;;
  let s := match get_ref s with
           | Some r => definition_reference_schema r
           | None => s
           end in
  definitions <- get_definitions ;;
  ret (definitions_schema s (dict_values definitions)).

(** [clean_schema]. *)
Definition clean_schema (s : CoreSchema) : M CoreSchema :=
  s <- collect_definitions s ;;
  let s := simplify_schema_references s in
  if collect_invalid_schemas s then raise CollectedInvalid
  else
    s <- lift (apply_discriminators s) ;;
    lift (validate_core_schema s).

End Generator.

(** ** Notions used in the statements *)

(** A schema under a pile of 'nullable' wrappers, outermost first. *)
Fixpoint under_nullable (wrappers : list Slots) (s : CoreSchema) : CoreSchema :=
  match wrappers with
  | [] => s
  | sl :: rest => NullableSchema (under_nullable rest s) sl
  end.

(** The element schema a container starts from: ['items_schema'] or
    ['values_schema'], [any_schema()] when there is none. *)
Definition element_schema (o : option CoreSchema) : CoreSchema :=
  match o with
  | Some s => s
  | None => any_schema
  end.

(** The kinds [apply_each_item_validators] has a branch for. *)
Definition has_each_item_branch (s : CoreSchema) : bool :=
  match s with
  | NullableSchema _ _ | TupleSchema _ _ _ | DictSchema _ _ _ => true
  | ItemsSchema _ _ _ => is_list_like_schema_with_items_schema s
  | _ => false
  end.

Definition each_item_error (s : CoreSchema) : Exn :=
  TypeError ("`@validator(..., each_item=True)` cannot be applied to fields with a schema of "
               ++ schema_type s).

(** The schema below [n] function validators, with the functions met on the
    way down, outermost first. *)
Fixpoint validator_chain (n : nat) (s : CoreSchema) : option (list Callable * CoreSchema) :=
  match n with
  | O => Some ([], s)
  | S k =>
      match s with
      | FunctionSchema _ _ f (Some inner) _ _ =>
          match validator_chain k inner with
          | Some (fs, base) => Some (f :: fs, base)
          | None => None
          end
      | _ => None
      end
  end.

(** The modes whose function schema keeps the schema it is given. *)
Definition chainable (d : Decorator) : bool :=
  match dec_mode d with
  | Plain => false
  | _ => true
  end.

(** The schema that carries the serializer: below 'definitions' wrappers. *)
Fixpoint serialization_target (s : CoreSchema) : CoreSchema :=
  match s with
  | DefinitionsSchema inner _ _ => serialization_target inner
  | _ => s
  end.

(** No ref to store or to re-key, here or under 'nullable' wrappers, and no
    reference node. *)
Fixpoint ref_free (s : CoreSchema) : bool :=
  match s with
  | NullableSchema inner sl =>
      match ref sl with None => ref_free inner | Some _ => false end
  | DefinitionReferenceSchema _ _ => false
  | _ => match get_ref s with None => true | Some _ => false end
  end.

Definition is_field_info (a : Annotation) : bool :=
  match a with
  | AnnFieldInfo _ _ => true
  | _ => false
  end.

Definition is_none_type (t : Ty) : bool :=
  match t with
  | TNoneType => true
  | _ => false
  end.

(** Running [gen] over a list of types, in order. *)
Fixpoint mapM (gen : Ty -> M CoreSchema) (l : list Ty) : M (list CoreSchema) :=
  match l with
  | [] => ret []
  | t :: r => s <- gen t ;; ss <- mapM gen r ;; ret (s :: ss)
  end.

(** [GenerateSchema(config_wrapper)] in a running process: the instance is
    new, the module-level cache is the one the process has. *)
Definition new_instance (config_wrapper : ConfigWrapper) (w : World) : World :=
  mkWorld (SCHEMA_CACHE w) (GenerateSchema_init config_wrapper).

(** A left-to-right fold over the metadata list, as the specification words
    the pipeline: each item is given the schema built so far. *)
Fixpoint fold_annotations (A : Type) (step : Annotation -> A -> M A)
    (annotations : list Annotation) (acc : A) : M A :=
  match annotations with
  | [] => ret acc
  | a :: rest => acc' <- step a acc ;; fold_annotations step rest acc'
  end.

(** One step of that fold: what [_get_wrapped_inner_schema] makes of an item
    when the schema built so far is [acc]; [None] is skipped. *)
Definition annotation_step
    (apply_known_metadata : Annotation -> CoreSchema -> option CoreSchema)
    (apply_discriminator : CoreSchema -> string -> Outcome CoreSchema)
    (source : Ty) (ann : Annotation) (acc : CoreSchema * list Callable)
  : M (CoreSchema * list Callable) :=
  match ann with
  | AnnNone => ret acc
  | _ =>
      _get_wrapped_inner_schema apply_known_metadata apply_discriminator
        (fun _ _ => ret acc) ann source []
  end.

(** The hooks that call their handler just once, or are absent. *)
Definition calls_handler_once (a : Annotation) : bool :=
  match a with
  | Ann _ (Some (HookReplace _)) _ => false
  | _ => true
  end.

(** The serializer schema a decorator stands for, whatever its return
    schema. *)
Definition serializer_of (d : SerializerDecorator) (ser : SerSchema) : Prop :=
  ser_function ser = ser_func d
  /\ ser_mode ser = match ser_dec_mode d with Wrap => SerWrap | _ => SerPlain end
  /\ ser_when_used ser = ser_dec_when_used d.

(** *** Measures for the recursion of the generator *)

(** The size of a type descriptor; metadata does not count. *)
Fixpoint ty_size (t : Ty) : nat :=
  match t with
  | TList t | TSet t | TFrozenSet t => S (ty_size t)
  | TDict k v => S (ty_size k + ty_size v)
  | TUnion args =>
      S ((fix sum (l : list Ty) : nat :=
            match l with
            | [] => 0
            | x :: r => ty_size x + sum r
            end) args)
  | TAnnotated source_type _ => S (ty_size source_type)
  | _ => 1
  end.

Definition serializer_return_types (l : list SerializerDecorator) : list Ty :=
  flat_map (fun d => match ser_return_type d with
                     | ReturnType_ t => [t]
                     | _ => []
                     end) l.

(** The types a class makes the generator visit. *)
Definition class_types (c : ModelClass) : list Ty :=
  (map (fun f => annotation (snd f)) (pydantic_fields c)
     ++ serializer_return_types (field_serializers c)
     ++ serializer_return_types (model_serializers c))%list.

(** The largest size among the types of the classes in scope. *)
Definition type_bound (classes : list (string * ModelClass)) : nat :=
  list_max (map ty_size (flat_map (fun c => class_types (snd c)) classes)).

Definition model_refs (get_type_ref : Ty -> string) (classes : list (string * ModelClass))
  : list string :=
  map (fun c => get_type_ref (TModel (fst c))) classes.

(** How many of the classes in scope are neither in progress nor defined. *)
Definition unseen (get_type_ref : Ty -> string) (classes : list (string * ModelClass))
    (w : World) : nat :=
  List.length (filter (fun r => negb (known w r)) (model_refs get_type_ref classes)).

(** A bound on the nested calls [generate_schema] needs for a type. *)
Definition enough_fuel (classes : list (string * ModelClass)) (obj : Ty) : nat :=
  S (ty_size obj + List.length classes * (type_bound classes + 2)).

(** *** Notions for the termination argument *)

(** Every ref known in [w], in progress or defined, is known in [w']. *)
Definition known_grows (w w' : World) : Prop :=
  forall r, known w r = true -> known w' r = true.

(** Run from [w], the computation does not use up its recursion bound, and
    when it returns no ref has been forgotten. *)
Definition settles (A : Type) (m : M A) (w : World) : Prop :=
  match m w with
  | (Timeout, _) => False
  | (Raise _, _) => True
  | (Ok _, w') => known_grows w w'
  end.

(** The computation settles from every state with at most [n] classes left
    to expand. *)
Definition Safe (get_type_ref : Ty -> string) (classes : list (string * ModelClass))
    (n : nat) (A : Type) (m : M A) : Prop :=
  forall w, unseen get_type_ref classes w <= n -> settles m w.

(** *** Notions for what a run of the generator keeps *)

(** What holds between the state before a run and the state after it, however
    the run ends: the set of refs in progress and the configuration stack
    are as before, no definition is lost, no cache entry is lost or changed. *)
Definition kept_always (w w' : World) : Prop :=
  seen (defs (self w')) = seen (defs (self w))
  /\ _config_wrapper_stack (self w') = _config_wrapper_stack (self w)
  /\ (forall r, dict_mem (definitions (defs (self w))) r = true ->
                dict_mem (definitions (defs (self w'))) r = true)
  /\ (forall k v, cache_get (SCHEMA_CACHE w) k = Some v ->
                  cache_get (SCHEMA_CACHE w') k = Some v).

(** What holds in addition when the run returns: both context stacks are as
    before. *)
Definition kept_on_return (w w' : World) : Prop :=
  kept_always w w'
  /\ field_name_stack (self w') = field_name_stack (self w)
  /\ model_type_stack (self w') = model_type_stack (self w).

Definition Keeps (A : Type) (m : M A) : Prop :=
  forall w,
    match m w with
    | (Ok _, w') => kept_on_return w w'
    | (_, w') => kept_always w w'
    end.

(** [_typing_extra.is_self]. *)
Definition is_self (t : Ty) : bool :=
  match t with
  | TSelf => true
  | _ => false
  end.

(** Whether [apply_model_validators] in phase [mode] applies the validator:
    'inner' takes the 'before' validators, 'outer' the others, 'all' every
    one. *)
Definition phase_applies (mode : ModelValidatorPhase) (v : Decorator) : bool :=
  match mode, dec_mode v with
  | Inner, Before => true
  | Inner, _ => false
  | Outer, Before => false
  | _, _ => true
  end.

(** ** Aliases, titles and documentation hints of a field *)

(** A Python value of which only being a [str] matters, with its class name
    otherwise. *)
Inductive PyValue :=
| PyStr (s : string)
| PyOther (class_name : string).

(** A validation alias: a [str], an [AliasPath] or an [AliasChoices]. *)
Inductive ValidationAlias :=
| VStr (s : string)
| VAliasPath (path : list string)
| VAliasChoices (choices : list string).

(** The alias attributes of a [FieldInfo]. *)
Record FieldAliases : Type := mkAliases {
  alias_priority : option Z;
  alias : option string;
  validation_alias : option ValidationAlias;
  serialization_alias : option string
}.

(** The [alias_generator] of the configuration: an [AliasGenerator], whose
    [generate_aliases] gives the three aliases, a callable from the field
    name, or anything else. *)
Inductive AliasGeneratorArg :=
| IsAliasGenerator
    (generate_aliases : string -> option string * option ValidationAlias * option string)
| IsCallable (call : string -> PyValue)
| IsNeither.

(** [_get_first_non_null]. *)
Definition _get_first_non_null (A : Type) (a b : option A) : option A :=
  match a with
  | Some _ => a
  | None => b
  end.

(** [alias_priority is None or alias_priority <= 1]. *)
Definition priority_at_most_one (p : option Z) : bool :=
  match p with
  | None => true
  | Some x => (x <=? 1)%Z
  end.

Definition is_none (A : Type) (o : option A) : bool :=
  match o with
  | None => true
  | Some _ => false
  end.

(** The aliases the generator makes for a field name, or its [TypeError]. *)
Definition generated_aliases (alias_generator : AliasGeneratorArg) (field_name : string)
  : Outcome (option string * option ValidationAlias * option string) :=
  match alias_generator with
  | IsAliasGenerator generate_aliases => Ok (generate_aliases field_name)
  | IsCallable call =>
      match call field_name with
      | PyStr a => Ok (Some a, None, None)
      | PyOther class_name =>
          Raise (TypeError ("alias_generator must return str, not " ++ class_name))
      end
  | IsNeither => Ok (None, None, None)
  end.

(** [_apply_alias_generator_to_field_info]; the field info it changes in
    place is answered. *)
Definition _apply_alias_generator_to_field_info (alias_generator : AliasGeneratorArg)
    (field_info : FieldAliases) (field_name : string) : Outcome FieldAliases :=
  if priority_at_most_one (alias_priority field_info)
     || is_none (alias field_info)
     || is_none (validation_alias field_info)
     || is_none (serialization_alias field_info)
  then
    match generated_aliases alias_generator field_name with
    | Ok (a, va, sa) =>
        let fi := field_info in
        let fi :=
          if priority_at_most_one (alias_priority fi)
          then mkAliases (Some 1%Z) (alias fi) (validation_alias fi) (serialization_alias fi)
          else fi in
        let fi :=
          match alias_priority fi with
          | Some 1%Z =>
              mkAliases (alias_priority fi) a
                (_get_first_non_null va (option_map VStr a))
                (_get_first_non_null sa a)
          | _ => fi
          end in
        let fi :=
          if is_none (alias fi)
          then mkAliases (alias_priority fi) a (validation_alias fi) (serialization_alias fi)
          else fi in
        let fi :=
          if is_none (serialization_alias fi)
          then mkAliases (alias_priority fi) (alias fi) (validation_alias fi)
                 (_get_first_non_null sa a)
          else fi in
        let fi :=
          if is_none (validation_alias fi)
          then mkAliases (alias_priority fi) (alias fi)
                 (_get_first_non_null va (option_map VStr a)) (serialization_alias fi)
          else fi in
        Ok fi
    | Raise e => Raise e
    | Timeout => Timeout
    end
  else Ok field_info.

(** The alias attributes of a [ComputedFieldInfo]. *)
Record ComputedFieldAliases : Type := mkComputedAliases {
  computed_alias_priority : option Z;
  computed_alias : option string
}.

(** [_apply_alias_generator_to_computed_field_info]. *)
Definition _apply_alias_generator_to_computed_field_info
    (alias_generator : AliasGeneratorArg) (computed_field_info : ComputedFieldAliases)
    (computed_field_name : string) : Outcome ComputedFieldAliases :=
  if priority_at_most_one (computed_alias_priority computed_field_info)
     || is_none (computed_alias computed_field_info)
  then
    match generated_aliases alias_generator computed_field_name with
    | Ok (a, _, sa) =>
        let fi := computed_field_info in
        let fi :=
          if priority_at_most_one (computed_alias_priority fi)
          then mkComputedAliases (Some 1%Z) (computed_alias fi)
          else fi in
        let fi :=
          match computed_alias_priority fi with
          | Some 1%Z => mkComputedAliases (computed_alias_priority fi) (_get_first_non_null sa a)
          | _ => fi
          end in
        Ok fi
    | Raise e => Raise e
    | Timeout => Timeout
    end
  else Ok computed_field_info.

(** The title attributes of a [FieldInfo] or [ComputedFieldInfo]: its title
    and its own title generator, a callable of the field name and the field
    info (here: its title attributes are all it may read). *)
Inductive TitleInfo :=
| mkTitleInfo (title : option string)
    (field_title_generator : option (string -> option string -> PyValue)).

Definition title_of (i : TitleInfo) : option string :=
  match i with mkTitleInfo t _ => t end.

Definition field_title_generator_of (i : TitleInfo)
  : option (string -> option string -> PyValue) :=
  match i with mkTitleInfo _ g => g end.

(** [_apply_field_title_generator_to_field_info], with the
    [field_title_generator] of the configuration. *)
Definition _apply_field_title_generator_to_field_info
    (config_field_title_generator : option (string -> option string -> PyValue))
    (field_info : TitleInfo) (field_name : string) : Outcome TitleInfo :=
  let field_title_generator :=
    match field_title_generator_of field_info with
    | Some g => Some g
    | None => config_field_title_generator
    end in
  match field_title_generator with
  | None => Ok field_info
  | Some g =>
      match title_of field_info with
      | None =>
          match g field_name (title_of field_info) with
          | PyStr title => Ok (mkTitleInfo (Some title) (field_title_generator_of field_info))
          | PyOther class_name =>
              Raise (TypeError ("field_title_generator must return str, not " ++ class_name))
          end
      | Some _ => Ok field_info
      end
  end.

(** [info.deprecated]: a [bool], a message, or a [deprecated] object. *)
Inductive Deprecated :=
| DeprecatedBool (b : bool)
| DeprecatedStr (msg : string)
| DeprecatedObject.

(** The JSON values of the hints: strings, [True], and the examples as
    [to_jsonable_python] renders them. *)
Inductive JsonHint :=
| HintStr (s : string)
| HintTrue
| HintExamples (examples : list string).

Record HintInfo : Type := mkHintInfo {
  hint_title : option string;
  hint_description : option string;
  hint_deprecated : option Deprecated;
  hint_examples : option (list string);
  json_schema_extra : option nat
}.

(** [bool(info.deprecated) or info.deprecated == '' or None]. *)
Definition deprecated_hint (d : option Deprecated) : option JsonHint :=
  match d with
  | Some (DeprecatedBool true) => Some HintTrue
  | Some (DeprecatedBool false) => None
  | Some (DeprecatedStr _) => Some HintTrue
  | Some DeprecatedObject => Some HintTrue
  | None => None
  end.

(** [_extract_json_schema_info_from_field_info]: the entries that are not
    [None], in the order title, description, deprecated, examples; [None]
    for an empty dict. *)
Definition _extract_json_schema_info_from_field_info (info : HintInfo)
  : option (list (string * JsonHint)) * option nat :=
  let json_schema_updates :=
    [("title", option_map HintStr (hint_title info));
     ("description", option_map HintStr (hint_description info));
     ("deprecated", deprecated_hint (hint_deprecated info));
     ("examples", option_map HintExamples (hint_examples info))] in
  let json_schema_updates :=
    flat_map (fun kv => match snd kv with
                        | Some v => [(fst kv, v)]
                        | None => []
                        end) json_schema_updates in
  (match json_schema_updates with
   | [] => None
   | _ => Some json_schema_updates
   end, json_schema_extra info).

(** ** Serializers from [json_encoders] *)

(** [_add_custom_serialization_from_json_encoders]: [tp] and the classes of
    its [__mro__] are known by name; the encoders are looked up for [tp],
    then for its bases in order, the last one left out. No warning is
    modelled. *)
Fixpoint first_encoder (json_encoders : list (string * Callable)) (bases : list string)
  : option Callable :=
  match bases with
  | [] => None
  | base :: rest =>
      match dict_get json_encoders base with
      | Some encoder => Some encoder
      | None => first_encoder json_encoders rest
      end
  end.

Definition _add_custom_serialization_from_json_encoders
    (json_encoders : option (list (string * Callable))) (tp : string) (mro : list string)
    (s : CoreSchema) : CoreSchema :=
  match json_encoders with
  | None | Some [] => s
  | Some encoders =>
      match get_serialization s with
      | Some _ => s
      | None =>
          match first_encoder encoders (tp :: removelast mro) with
          | Some encoder =>
              set_serialization s (Some (mkSer SerPlain encoder None false None "json"))
          | None => s
          end
      end
  end.

(** *** Tuples *)

(** A parameter of a tuple type as [_get_args_resolving_forward_refs] gives
    it: a type, [Ellipsis], or the empty tuple [()]. *)
Inductive TupleParam :=
| PType (t : Ty)
| PEllipsis
| PEmptyTuple.

(** What [generate_schema] is handed for a parameter; [Ellipsis] and [()] are
    objects that no branch of [match_type] knows. *)
Definition param_type (p : TupleParam) : Ty :=
  match p with
  | PType t => t
  | PEllipsis => TUnknown "Ellipsis"
  | PEmptyTuple => TUnknown "()"
  end.

Definition is_ellipsis (p : option TupleParam) : bool :=
  match p with
  | Some PEllipsis => true
  | _ => false
  end.

(** [_tuple_schema] for a tuple type without type variables; [bare] is
    [tuple_type in TUPLE_TYPES], [params] the type's arguments. *)
Definition _tuple_schema (gen : Ty -> M CoreSchema) (bare : bool) (params : list TupleParam)
  : M CoreSchema :=
  match params with
  | [] =>
      if bare then ret (TupleSchema [any_schema] (Some 0) no_slots)
      else ret (TupleSchema [] None no_slots)
  | p0 :: _ =>
      if is_ellipsis (last_opt params) then
        if Nat.eqb (List.length params) 2 then
          s <- gen (param_type p0) ;;
          ret (TupleSchema [s] (Some 0) no_slots)
        else raise (OtherError "ValueError: Variable tuples can only have one type")
      else
        match params with
        | [PEmptyTuple] => ret (TupleSchema [] None no_slots)
        | _ =>
            items <- mapM gen (map param_type params) ;;
            ret (TupleSchema items None no_slots)
        end
  end.

(** ** Sample inputs *)

Module Sample.

(** A [get_type_ref] for the fragment: the name of a class, a spelling of the
    type otherwise. *)
Fixpoint type_ref (t : Ty) : string :=
  match t with
  | TPrim n => n
  | TAny => "Any"
  | TNoneType => "NoneType"
  | TList t => "list[" ++ type_ref t ++ "]"
  | TSet t => "set[" ++ type_ref t ++ "]"
  | TFrozenSet t => "frozenset[" ++ type_ref t ++ "]"
  | TDict k v => "dict[" ++ type_ref k ++ "," ++ type_ref v ++ "]"
  | TUnion args =>
      "Union[" ++ (fix go (l : list Ty) : string :=
                     match l with
                     | [] => ""
                     | x :: r => type_ref x ++ "," ++ go r
                     end) args ++ "]"
  | TModel c => c
  | TAnnotated s _ => "Annotated[" ++ type_ref s ++ "]"
  | TSelf => "Self"
  | TRecursiveRef r => r
  | TUnknown n => n
  end.

Definition no_attrs : FieldInfoAttrs := mkAttrs None None None None.
Definition config : ConfigWrapper := mkConfig false false.

(** [class Node(BaseModel): value: int; next: Optional[Node]]. *)
Definition Node : ModelClass :=
  mkModel [("value", mkFieldInfo (TPrim "int") [] no_attrs (Some 1%Z));
           ("next", mkFieldInfo (TUnion [TModel "Node"; TNoneType]) [] no_attrs (Some 2%Z))]
    config false [] [] [] [] [] [].

(** A V1 validator, an 'after' field validator and a 'plain' serializer. *)
Definition v1_validator : Decorator := mkDecorator 11 After false ["*"] true false.
Definition after_f : Decorator := mkDecorator 21 After false ["x"] false false.
Definition after_g : Decorator := mkDecorator 22 After false ["x"] false false.
Definition ser_a : SerializerDecorator :=
  mkSerDec 31 Plain ["x"] (true, false) ReturnUndefined "always".
Definition ser_b : SerializerDecorator :=
  mkSerDec 32 Wrap ["x"] (true, false) ReturnUndefined "always".

(** [class A(BaseModel): x: int], with [@field_validator('x')], and
    [class B(BaseModel): x: int] without; the two [FieldInfo] are equal, and
    so are their cache keys. [class C] has a field of a type with no
    schema. *)
Definition x_int : FieldInfo := mkFieldInfo (TPrim "int") [] no_attrs (Some 5%Z).
Definition A : ModelClass :=
  mkModel [("x", x_int)] config false [after_f] [] [] [] [] [].
Definition B : ModelClass :=
  mkModel [("x", x_int)] config false [] [] [] [] [] [].
Definition C : ModelClass :=
  mkModel [("x", mkFieldInfo (TUnknown "Socket") [] no_attrs None)]
    config false [] [] [] [] [] [].

Definition classes : list (string * ModelClass) :=
  [("Node", Node); ("A", A); ("B", B); ("C", C)].

Definition apply_known_metadata (a : Annotation) (s : CoreSchema) : option CoreSchema := None.
Definition expand_grouped_metadata (l : list Annotation) : list Annotation := l.
Definition apply_discriminator (s : CoreSchema) (d : string) : Outcome CoreSchema :=
  match s with
  | UnionSchema _ _ => Raise (MissingDefinitionForUnionRef d)
  | _ => Raise (TypeError "`discriminator` can only be used with `Union` type")
  end.
Definition hash (k : Z) (b : bool) : Z := (if b then 2 * k + 1 else 2 * k)%Z.
Definition json_schema_of (t : Ty) : option Callable :=
  match t with
  | TModel _ => Some 7
  | _ => None
  end.

Definition generate (fuel : nat) (t : Ty) : M CoreSchema :=
  generate_schema type_ref classes apply_known_metadata expand_grouped_metadata
    apply_discriminator hash json_schema_of fuel t.

(** A fresh process with a fresh generator. *)
Definition fresh : World := mkWorld [] (GenerateSchema_init config).

(** The process after a first generator has compiled [A], with a new
    generator in it. *)
Definition after_A : World :=
  new_instance config (snd (generate 10 (TModel "A") fresh)).

(** The generator that has compiled [Node], with its definition table. *)
Definition after_Node : World := snd (generate 10 (TModel "Node") fresh).

End Sample.

(** * Properties *)

Open Scope list_scope.

(** ** Each-item validators *)

Lemma each_item_nonempty (s : CoreSchema) (vs : list Decorator) (fn : option string) :
  vs <> [] ->
  apply_each_item_validators (NullableSchema s no_slots) vs fn
  = match apply_each_item_validators s vs fn with
    | Ok s' => Ok (NullableSchema s' no_slots)
    | Raise e => Raise e
    | Timeout => Timeout
    end.
Proof. destruct vs as [|v vs]; [congruence | reflexivity]. Qed.

Lemma each_item_under_nullable (wrappers : list Slots) (s : CoreSchema)
    (vs : list Decorator) (fn : option string) :
  vs <> [] ->
  apply_each_item_validators (under_nullable wrappers s) vs fn
  = match apply_each_item_validators s vs fn with
    | Ok s' => Ok (under_nullable wrappers s')
    | Raise e => Raise e
    | Timeout => Timeout
    end.
Proof.
  intros Hne. induction wrappers as [|sl rest IH]; simpl.
  - destruct (apply_each_item_validators s vs fn); reflexivity.
  - destruct vs as [|v vs]; [congruence|].
    simpl. simpl in IH. rewrite IH.
    destruct (apply_each_item_validators s (v :: vs) fn); reflexivity.
Qed.

Lemma list_update_spec (A : Type) (f : A -> A) (l : list A) (i : nat) (x : A) :
  nth_error l i = Some x ->
  exists l', list_update l i f = Some l'
             /\ nth_error l' i = Some (f x)
             /\ forall j, j <> i -> nth_error l' j = nth_error l j.
Proof.
  revert i. induction l as [|y r IH]; intros [|i] H; simpl in *; try discriminate.
  - inversion H; subst. exists (f x :: r). repeat split.
    intros [|j] Hj; [congruence | reflexivity].
  - destruct (IH i H) as (l' & E & Hi & Ho). rewrite E. simpl.
    exists (y :: l'). repeat split; [exact Hi|].
    intros [|j] Hj; simpl; [reflexivity | apply Ho; congruence].
Qed.

(** C3, as amended. With a non-empty list of each-item validators, under any
    pile of nullable wrappers: a list-like schema gets the validators around
    its items schema, a dict schema around its values schema, a tuple schema
    around the item at its variadic index, the container itself staying
    outermost; a schema of a kind with no branch of its own raises
    [TypeError], the message ending with that kind; and with no validators
    the schema comes back unchanged. *)
Theorem each_item_validators_push_down :
  forall (vs : list Decorator) (fn : option string) (wrappers : list Slots),
    vs <> [] ->
    (forall t items sl,
        is_list_like_schema_with_items_schema (ItemsSchema t items sl) = true ->
        apply_each_item_validators (under_nullable wrappers (ItemsSchema t items sl)) vs fn
        = Ok (under_nullable wrappers
                (ItemsSchema t (Some (apply_validators (element_schema items) vs fn)) sl)))
    /\ (forall k v sl,
           apply_each_item_validators (under_nullable wrappers (DictSchema k v sl)) vs fn
           = Ok (under_nullable wrappers
                   (DictSchema k (Some (apply_validators (element_schema v) vs fn)) sl)))
    /\ (forall items i it sl,
           nth_error items i = Some it ->
           exists items',
             apply_each_item_validators
               (under_nullable wrappers (TupleSchema items (Some i) sl)) vs fn
             = Ok (under_nullable wrappers (TupleSchema items' (Some i) sl))
             /\ nth_error items' i = Some (apply_validators it vs fn)
             /\ forall j, j <> i -> nth_error items' j = nth_error items j)
    /\ (forall s,
           has_each_item_branch s = false ->
           apply_each_item_validators (under_nullable wrappers s) vs fn
           = Raise (each_item_error s))
    /\ (forall s, apply_each_item_validators s [] fn = Ok s).
Proof.
  intros vs fn wrappers Hne.
  split; [|split; [|split; [|split]]].
  - intros t items sl Hl. rewrite each_item_under_nullable by exact Hne.
    destruct vs as [|v vs]; [congruence|].
    cbn -[is_list_like_schema_with_items_schema append].
    rewrite Hl. destruct items; reflexivity.
  - intros k v sl. rewrite each_item_under_nullable by exact Hne.
    destruct vs as [|d vs]; [congruence|]. destruct v; reflexivity.
  - intros items i it sl Hn.
    destruct (list_update_spec (fun x => apply_validators x vs fn) items i Hn)
      as (items' & E & Hi & Ho).
    exists items'. split; [|split; assumption].
    rewrite each_item_under_nullable by exact Hne.
    destruct vs as [|d vs]; [congruence|].
    cbn [apply_each_item_validators]. rewrite E. reflexivity.
  - intros s Hs. rewrite each_item_under_nullable by exact Hne.
    destruct vs as [|d vs]; [congruence|].
    destruct s as [ | |t items sl| | | | | | | | | ];
      try discriminate Hs; try reflexivity.
    change (is_list_like_schema_with_items_schema (ItemsSchema t items sl) = false) in Hs.
    cbn -[is_list_like_schema_with_items_schema append].
    rewrite Hs. reflexivity.
  - intros s. destruct s; reflexivity.
Qed.

Lemma each_item_validators_push_down_witness :
  apply_each_item_validators
    (under_nullable [no_slots] (ItemsSchema "list" (Some int_schema) no_slots))
    [Sample.v1_validator] (Some "x")
  = Ok (under_nullable [no_slots]
          (ItemsSchema "list"
             (Some (apply_validators (element_schema (Some int_schema))
                      [Sample.v1_validator] (Some "x"))) no_slots)).
Proof.
  apply (each_item_validators_push_down (vs := [Sample.v1_validator]) (Some "x") [no_slots]).
  - discriminate.
  - reflexivity.
Defined.

(** C3, as stated, fails: on a field whose schema is no container the
    validators are refused with a [TypeError], not with the user-error class
    of configuration errors. *)
Lemma each_item_error_is_type_error :
  apply_each_item_validators int_schema [Sample.v1_validator] (Some "x")
  = Raise (TypeError
      "`@validator(..., each_item=True)` cannot be applied to fields with a schema of int")
  /\ ~ (exists msg code,
          apply_each_item_validators int_schema [Sample.v1_validator] (Some "x")
          = Raise (PydanticUserError msg code)).
Proof.
  split; [reflexivity|].
  intros (msg & code & H). vm_compute in H. discriminate H.
Qed.

(** ** Context stacks *)

Lemma push_pops_on_return (A : Type) (name : string) (body : M A) (w w' : World) (a : A) :
  body (set_field_name_stack (field_name_stack (self w) ++ [name]) w) = (Ok a, w') ->
  field_name_stack (self w') = field_name_stack (self w) ++ [name] ->
  field_name_stack (self (snd (field_name_stack_push name body w)))
  = field_name_stack (self w).
Proof.
  intros Hb Hs. unfold field_name_stack_push, enter_yield_leave. rewrite Hb.
  simpl. rewrite Hs. apply removelast_last.
Qed.

(** C2 on the code: when the scope that pushed raises, the entry stays.
    Whatever the body, an exception leaves the pushed field name, or model
    type, on its stack; compiling [Sample.C], whose field has a type with no
    schema, ends in an error with both stacks still holding their entries,
    while the [seen] set, released in a [finally], is empty again. *)
Theorem context_stack_push_leaks_on_error :
  (forall (A : Type) (name : string) (body : M A) (e : Exn) (w w' : World),
      body (set_field_name_stack (field_name_stack (self w) ++ [name]) w) = (Raise e, w') ->
      field_name_stack_push name body w = (Raise e, w'))
  /\ (forall (A : Type) (cls : string) (body : M A) (e : Exn) (w w' : World),
         body (set_model_type_stack (model_type_stack (self w) ++ [cls]) w) = (Raise e, w') ->
         model_type_stack_push cls body w = (Raise e, w'))
  /\ (let r := Sample.generate 10 (TModel "C") Sample.fresh in
      fst r = Raise (PydanticSchemaGenerationError "Unable to generate pydantic-core schema")
      /\ field_name_stack (self (snd r)) = ["x"]
      /\ model_type_stack (self (snd r)) = ["C"]
      /\ seen (defs (self (snd r))) = []).
Proof.
  split; [|split].
  - intros A name body e w w' H.
    unfold field_name_stack_push, enter_yield_leave. rewrite H. reflexivity.
  - intros A cls body e w w' H.
    unfold model_type_stack_push, enter_yield_leave. rewrite H. reflexivity.
  - vm_compute. repeat split.
Qed.

(** ** The monad *)

Lemma bind_ok (A B : Type) (m : M A) (k : A -> M B) (w w' : World) (b : B) :
  bind m k w = (Ok b, w') ->
  exists a w1, m w = (Ok a, w1) /\ k a w1 = (Ok b, w').
Proof.
  unfold bind. destruct (m w) as [[a| e |] w1]; intros H; try discriminate.
  exists a, w1. split; [reflexivity | exact H].
Qed.

Lemma bind_raise (A B : Type) (m : M A) (k : A -> M B) (w w' : World) (e : Exn) :
  m w = (Raise e, w') -> bind m k w = (Raise e, w').
Proof. intros H. unfold bind. rewrite H. reflexivity. Qed.

Lemma bind_assoc (A B C : Type) (m : M A) (k : A -> M B) (h : B -> M C) (w : World) :
  bind (bind m k) h w = bind m (fun a => bind (k a) h) w.
Proof. unfold bind. destruct (m w) as [[a| e |] w1]; reflexivity. Qed.

Lemma bind_ext (A B : Type) (m : M A) (k k' : A -> M B) (w : World) :
  (forall a w1, k a w1 = k' a w1) -> bind m k w = bind m k' w.
Proof. intros H. unfold bind. destruct (m w) as [[a| e |] w1]; auto. Qed.

Ltac bind_inv H :=
  let a := fresh "a" in
  let w1 := fresh "w" in
  let H1 := fresh "H" in
  apply bind_ok in H; destruct H as (a & w1 & H1 & H).

(** ** Slots *)

Lemma slots_set_slots (s : CoreSchema) (sl : Slots) : slots (set_slots s sl) = sl.
Proof. destruct s; reflexivity. Qed.

Lemma get_serialization_set_serialization (s : CoreSchema) (ser : option SerSchema) :
  get_serialization (set_serialization s ser) = ser.
Proof. unfold get_serialization, set_serialization. rewrite slots_set_slots. reflexivity. Qed.

Lemma get_serialization_set_ref (s : CoreSchema) (r : option string) :
  get_serialization (set_ref s r) = get_serialization s.
Proof. unfold get_serialization, set_ref. rewrite slots_set_slots. reflexivity. Qed.

Lemma get_ref_set_ref (s : CoreSchema) (r : option string) : get_ref (set_ref s r) = r.
Proof. unfold get_ref, set_ref. rewrite slots_set_slots. reflexivity. Qed.

Lemma serialization_target_set_serialization (s : CoreSchema) (ser : option SerSchema) :
  (forall inner ds sl, s <> DefinitionsSchema inner ds sl) ->
  serialization_target (set_serialization s ser) = set_serialization s ser.
Proof.
  intros H. destruct s; try reflexivity. exfalso. eapply H. reflexivity.
Qed.

(** ** Serializers and validators *)

Lemma apply_validators_app (s : CoreSchema) (vs : list Decorator) (v : Decorator)
    (fn : option string) :
  apply_validators s (vs ++ [v]) fn
  = VALIDATOR_F_MATCH (dec_mode v) (info_arg v) (func v) (apply_validators s vs fn) fn.
Proof.
  revert s. induction vs as [|x r IH]; intros s; simpl; [reflexivity | apply IH].
Qed.

Lemma apply_validators_chain (vs : list Decorator) (s : CoreSchema) (fn : option string) :
  forallb chainable vs = true ->
  validator_chain (List.length vs) (apply_validators s vs fn) = Some (rev (map func vs), s).
Proof.
  induction vs as [|v r IH] using rev_ind; intros Hc; [reflexivity|].
  rewrite forallb_app in Hc. apply andb_true_iff in Hc. destruct Hc as [Hr Hv].
  simpl in Hv. rewrite andb_true_r in Hv.
  rewrite apply_validators_app, List.length_app, map_app, rev_app_distr. simpl.
  rewrite Nat.add_comm. simpl.
  unfold chainable in Hv.
  destruct (dec_mode v), (info_arg v); try discriminate; simpl; rewrite (IH Hr); reflexivity.
Qed.

Section SerializerProperties.

Variable gen : Ty -> M CoreSchema.

Lemma field_serializer_last_wins (sers : list SerializerDecorator)
    (serializer : SerializerDecorator) (s s' : CoreSchema) (w w' : World) :
  last_opt sers = Some serializer ->
  _apply_field_serializers gen s sers w = (Ok s', w') ->
  exists ser, get_serialization (serialization_target s') = Some ser
              /\ serializer_of serializer ser.
Proof.
  intros Hl. revert s' w w'.
  induction s; intros s' w w' H;
    try (cbn [_apply_field_serializers] in H; rewrite Hl in H;
         bind_inv H; bind_inv H;
         destruct (ser_dec_mode serializer) eqn:Em; try discriminate H;
         inversion H; subst; clear H;
         match goal with
         | H : match get_ref ?x with _ => _ end _ = (Ok ?y, _) |- _ =>
             destruct (get_ref x);
               [ bind_inv H; inversion H; subst | inversion H; subst ]
         end;
         eexists; (split;
           [ rewrite serialization_target_set_serialization by (intros; discriminate);
             apply get_serialization_set_serialization
           | unfold serializer_of; simpl; rewrite Em; auto ])).
  cbn [_apply_field_serializers] in H. rewrite Hl in H.
  bind_inv H. inversion H; subst. simpl. eapply IHs. exact H0.
Qed.

Lemma model_serializer_last_wins (sers : list SerializerDecorator)
    (serializer : SerializerDecorator) (s s' : CoreSchema) (w w' : World) :
  last_opt sers = Some serializer ->
  _apply_model_serializers gen s sers w = (Ok s', w') ->
  exists ser, get_serialization s' = Some ser /\ serializer_of serializer ser.
Proof.
  intros Hl H. unfold _apply_model_serializers in H. rewrite Hl in H.
  bind_inv H. bind_inv H0. inversion H0; subst; clear H0.
  eexists. split.
  - destruct (truthy_ref (get_ref s)); inversion H; subst;
      rewrite ?get_serialization_set_ref; apply get_serialization_set_serialization.
  - unfold serializer_of. destruct (ser_dec_mode serializer); simpl; auto.
Qed.

(** C7. With a non-empty list of applicable serializers, the serialization
    slot of the schema answered for a field (below 'definitions' wrappers)
    or for a model holds the serializer of the last decorator of the list;
    and validators of the chainable modes are all applied: the schema has
    one function layer per validator, the last validator outermost, around
    the schema the validators were applied to. *)
Theorem last_serializer_wins_all_validators_apply :
  (forall sers serializer s s' w w',
      last_opt sers = Some serializer ->
      _apply_field_serializers gen s sers w = (Ok s', w') ->
      exists ser, get_serialization (serialization_target s') = Some ser
                  /\ serializer_of serializer ser)
  /\ (forall sers serializer s s' w w',
         last_opt sers = Some serializer ->
         _apply_model_serializers gen s sers w = (Ok s', w') ->
         exists ser, get_serialization s' = Some ser /\ serializer_of serializer ser)
  /\ (forall vs s fn,
         forallb chainable vs = true ->
         validator_chain (List.length vs) (apply_validators s vs fn)
         = Some (rev (map func vs), s)).
Proof.
  split; [|split].
  - intros. eapply field_serializer_last_wins; eassumption.
  - intros. eapply model_serializer_last_wins; eassumption.
  - intros. apply apply_validators_chain. assumption.
Qed.

End SerializerProperties.

Lemma last_serializer_wins_all_validators_apply_witness :
  (exists ser,
      get_serialization
        (serialization_target
           (set_serialization int_schema
              (Some (mkSer SerWrap 32 (Some true) false None "always"))))
      = Some ser
      /\ serializer_of Sample.ser_b ser)
  /\ validator_chain 2 (apply_validators int_schema [Sample.after_f; Sample.after_g] None)
     = Some ([22; 21], int_schema).
Proof.
  split.
  - eapply (proj1 (last_serializer_wins_all_validators_apply (fun _ => ret int_schema)))
      with (sers := [Sample.ser_a; Sample.ser_b]) (s := int_schema) (w := Sample.fresh);
      reflexivity.
  - exact (proj2 (proj2 (last_serializer_wins_all_validators_apply (fun _ => ret int_schema)))
             [Sample.after_f; Sample.after_g] int_schema None eq_refl).
Defined.

(** ** Metadata on one schema *)

Lemma Annotation_nested_ind (P : Annotation -> Prop) :
  P AnnNone ->
  (forall r h j, P (Ann r h j)) ->
  (forall l attrs, Forall P l -> P (AnnFieldInfo l attrs)) ->
  forall a, P a.
Proof.
  intros H0 H1 H2. fix IH 1. intros [| r h j | l attrs]; [exact H0 | apply H1 |].
  apply H2. induction l as [|x r IHl]; constructor; [apply IH | exact IHl].
Qed.

Section PipelineProperties.

Variable apply_known_metadata : Annotation -> CoreSchema -> option CoreSchema.
Variable apply_discriminator : CoreSchema -> string -> Outcome CoreSchema.

Local Abbreviation apply_discriminator_to_union := (_apply_discriminator_to_union apply_discriminator).
Local Abbreviation apply_single_annotation :=
  (_apply_single_annotation apply_known_metadata apply_discriminator).

Lemma discriminator_frame (s : CoreSchema) (d : option string) (w : World) :
  snd (apply_discriminator_to_union s d w) = w.
Proof.
  unfold _apply_discriminator_to_union. destruct d as [d|]; [|reflexivity].
  destruct (apply_discriminator s d) as [s'| e |]; try reflexivity.
  destruct e; reflexivity.
Qed.

Lemma single_annotation_frame (md : Annotation) :
  forall s w, snd (apply_single_annotation md s w) = w.
Proof.
  induction md as [| r h j | l attrs IH] using Annotation_nested_ind; intros s w;
    try reflexivity.
  cbn [_apply_single_annotation].
  set (loop := fix loop (l : list Annotation) (s : CoreSchema) {struct l} : M CoreSchema :=
                 match l with
                 | [] => ret s
                 | m :: r => bind (apply_single_annotation m s) (fun s1 => loop r s1)
                 end).
  assert (Hloop : forall s w, snd (loop l s w) = w).
  { induction IH as [|m r Hm Hr IHr]; intros s0 w0; [reflexivity|].
    cbn [loop]. unfold bind.
    specialize (Hm s0 w0).
    destruct (apply_single_annotation m s0 w0) as [[s1| e |] w1]; simpl in Hm; subst;
      [apply IHr | reflexivity | reflexivity]. }
  unfold bind. specialize (Hloop s w).
  destruct (loop l s w) as [[s1| e |] w1]; simpl in Hloop; subst; try reflexivity.
  destruct (discriminator attrs); [apply discriminator_frame | reflexivity].
Qed.


(** ** Deferred discriminators *)

Variable simplify_schema_references : CoreSchema -> CoreSchema.
Variable collect_invalid_schemas : CoreSchema -> bool.
Variable apply_discriminators : CoreSchema -> Outcome CoreSchema.
Variable validate_core_schema : CoreSchema -> Outcome CoreSchema.

Local Abbreviation clean :=
  (clean_schema simplify_schema_references collect_invalid_schemas apply_discriminators
     validate_core_schema).

Lemma lift_ok (A : Type) (o : Outcome A) (w w' : World) (a : A) :
  lift o w = (Ok a, w') -> o = Ok a /\ w' = w.
Proof. unfold lift. intros H. inversion H. auto. Qed.

Lemma collect_definitions_lists_table (s c : CoreSchema) (w w' : World) :
  collect_definitions s w = (Ok c, w') ->
  exists root, c = definitions_schema root (dict_values (definitions (defs (self w')))).
Proof.
  unfold collect_definitions. intros H. bind_inv H. bind_inv H.
  unfold get_definitions in H1. inversion H1; subst. inversion H; subst.
  eexists. reflexivity.
Qed.

(** C8. Without a discriminator the schema is answered as it is. When
    [apply_discriminator] misses the definition of a union member, the call
    succeeds and answers the schema with the discriminator recorded in its
    metadata; any other exception of [apply_discriminator] comes out as it
    was raised, like every exception met in a sequence of steps.
    [clean_schema], when it succeeds, has applied the discriminators to the
    simplified 'definitions' schema that lists every definition of the
    table. *)
Theorem discriminator_deferred_not_failed :
  (forall s w, apply_discriminator_to_union s None w = (Ok s, w))
  /\ (forall s d r w,
         apply_discriminator s d = Raise (MissingDefinitionForUnionRef r) ->
         apply_discriminator_to_union s (Some d) w
         = (Ok (set_discriminator_in_metadata s d), w)
         /\ pydantic_internal_union_discriminator
              (get_metadata (set_discriminator_in_metadata s d)) = Some d)
  /\ (forall s d e w,
         apply_discriminator s d = Raise e ->
         (forall r, e <> MissingDefinitionForUnionRef r) ->
         apply_discriminator_to_union s (Some d) w = (Raise e, w))
  /\ (forall s d s' w,
         apply_discriminator s d = Ok s' ->
         apply_discriminator_to_union s (Some d) w = (Ok s', w))
  /\ (forall s w s' w',
         clean s w = (Ok s', w') ->
         exists root resolved,
           collect_definitions s w
           = (Ok (definitions_schema root (dict_values (definitions (defs (self w'))))), w')
           /\ apply_discriminators
                (simplify_schema_references
                   (definitions_schema root (dict_values (definitions (defs (self w'))))))
              = Ok resolved
           /\ validate_core_schema resolved = Ok s')
  /\ (forall (A B : Type) (m : M A) (k : A -> M B) e w w',
         m w = (Raise e, w') -> bind m k w = (Raise e, w')).
Proof.
  split; [reflexivity | split; [|split; [|split; [|split]]]].
  - intros s d r w H. unfold _apply_discriminator_to_union. rewrite H.
    split; [reflexivity|].
    unfold set_discriminator_in_metadata, get_metadata, set_metadata.
    rewrite slots_set_slots. reflexivity.
  - intros s d e w H Hn. unfold _apply_discriminator_to_union. rewrite H.
    destruct e; try reflexivity. exfalso. eapply Hn. reflexivity.
  - intros s d s' w H. unfold _apply_discriminator_to_union. rewrite H. reflexivity.
  - intros s w s' w' H. unfold clean_schema in H. bind_inv H.
    destruct (collect_invalid_schemas (simplify_schema_references a)); [discriminate H|].
    bind_inv H. apply lift_ok in H1, H. destruct H1 as [H1 ->]. destruct H as [H ->].
    destruct (collect_definitions_lists_table _ _ H0) as [root ->].
    exists root, a0. auto.
  - intros. apply bind_raise. assumption.
Qed.

End PipelineProperties.


Lemma discriminator_deferred_not_failed_witness :
  _apply_discriminator_to_union Sample.apply_discriminator (union_schema []) (Some "kind")
    Sample.fresh
  = (Ok (set_discriminator_in_metadata (union_schema []) "kind"), Sample.fresh)
  /\ pydantic_internal_union_discriminator
       (get_metadata (set_discriminator_in_metadata (union_schema []) "kind")) = Some "kind".
Proof.
  apply (proj1 (proj2 (discriminator_deferred_not_failed Sample.apply_discriminator
                         (fun s => s) (fun _ => false) (@Ok CoreSchema) (@Ok CoreSchema)))
           (union_schema []) "kind" "kind" Sample.fresh).
  reflexivity.
Defined.

(** ** Defaults *)

Lemma bind_step (A B : Type) (m : M A) (k : A -> M B) (w w1 : World) (a : A) :
  m w = (Ok a, w1) -> bind m k w = k a w1.
Proof. intros H. unfold bind. rewrite H. reflexivity. Qed.

Lemma wrap_defaults_without_field_info (l : list Annotation) (s : CoreSchema) :
  forallb (fun a => negb (is_field_info a)) l = true -> wrap_defaults l s = s.
Proof.
  induction l as [|a r IH]; intros H; [reflexivity|].
  simpl in H. apply andb_true_iff in H. destruct H as [Ha Hr].
  destruct a; try discriminate Ha; simpl; auto.
Qed.

Lemma wrap_defaults_one_field_info (l1 l2 md : list Annotation) (attrs : FieldInfoAttrs)
    (s : CoreSchema) :
  forallb (fun a => negb (is_field_info a)) (l1 ++ l2) = true ->
  wrap_defaults (l1 ++ AnnFieldInfo md attrs :: l2) s = wrap_default attrs s.
Proof.
  rewrite forallb_app. intros H. apply andb_true_iff in H. destruct H as [H1 H2].
  induction l1 as [|a r IH].
  - simpl. apply wrap_defaults_without_field_info. exact H2.
  - simpl in H1. apply andb_true_iff in H1. destruct H1 as [Ha Hr].
    destruct a; try discriminate Ha; simpl; auto.
Qed.

Lemma wrap_default_not_required (attrs : FieldInfoAttrs) (s : CoreSchema) :
  is_required attrs = false ->
  exists d, wrap_default attrs s = with_default_schema s d (validate_default attrs).
Proof.
  unfold is_required, wrap_default.
  destruct (default_factory attrs) as [[f b]|]; [intros _; eexists; reflexivity|].
  destruct (default attrs); [intros _; eexists; reflexivity | discriminate].
Qed.

Lemma field_serializers_keep_default (gen : Ty -> M CoreSchema) (x s' : CoreSchema)
    (d : DefaultSpec) (vd : option bool) (sers : list SerializerDecorator) (w w' : World) :
  _apply_field_serializers gen (DefaultSchema x d vd no_slots) sers w = (Ok s', w') ->
  exists sl, s' = DefaultSchema x d vd sl.
Proof.
  cbn [_apply_field_serializers]. destruct (last_opt sers) as [serializer|].
  - intros H. bind_inv H. bind_inv H. inversion H0; subst.
    destruct (ser_dec_mode serializer); try discriminate H; inversion H; subst;
      eexists; reflexivity.
  - intros H. inversion H. eexists. reflexivity.
Qed.

Section FieldProperties.

Variable get_type_ref : Ty -> string.
Variable apply_known_metadata : Annotation -> CoreSchema -> option CoreSchema.
Variable expand_grouped_metadata : list Annotation -> list Annotation.
Variable apply_discriminator : CoreSchema -> string -> Outcome CoreSchema.
Variable hash : Z -> bool -> Z.
Variable _extract_get_pydantic_json_schema : Ty -> option Callable.
Variable inner : Ty -> M CoreSchema.

Local Abbreviation apply_annotations :=
  (_apply_annotations get_type_ref apply_known_metadata expand_grouped_metadata
     apply_discriminator _extract_get_pydantic_json_schema inner).
Local Abbreviation annotated_schema :=
  (_annotated_schema get_type_ref apply_known_metadata expand_grouped_metadata
     apply_discriminator _extract_get_pydantic_json_schema inner).
Local Abbreviation cached_field_schema :=
  (field_schema_cached get_type_ref apply_known_metadata expand_grouped_metadata
     apply_discriminator hash _extract_get_pydantic_json_schema inner).
Local Abbreviation common_field_schema :=
  (_common_field_schema get_type_ref apply_known_metadata expand_grouped_metadata
     apply_discriminator hash _extract_get_pydantic_json_schema inner).

(** C5. [wrap_default] answers the schema as it is for a field with neither
    default nor factory, and a 'default' schema around it otherwise. For an
    [Annotated] type, wherever the [FieldInfo] with the default stands in the
    metadata list, the schema answered is the default wrapper around what
    the whole list of annotations built. For a field with a default, the
    schema answered is a 'default' schema whose inner schema carries all the
    validators: the legacy validators around the each-item result around the
    schema built from the annotations and the field validators. *)
Theorem default_wrapper_is_outermost :
  (forall attrs s, is_required attrs = true -> wrap_default attrs s = s)
  /\ (forall attrs s,
         is_required attrs = false ->
         exists d, wrap_default attrs s = with_default_schema s d (validate_default attrs))
  /\ (forall source_type l1 l2 md attrs w s w',
         forallb (fun a => negb (is_field_info a)) (l1 ++ l2) = true ->
         is_required attrs = false ->
         annotated_schema source_type (l1 ++ AnnFieldInfo md attrs :: l2) w = (Ok s, w') ->
         exists x d,
           apply_annotations source_type (l1 ++ AnnFieldInfo md attrs :: l2)
             (@ret CoreSchema) w = (Ok x, w')
           /\ s = with_default_schema x d (validate_default attrs))
  /\ (forall name field_info decorators w s w',
         is_required (fi_attrs field_info) = false ->
         common_field_schema name field_info decorators w = (Ok s, w') ->
         let this_field_validators :=
           filter_field_decorator_info_by_field (validators decorators) name in
         exists base w1 e d vd sl,
           field_name_stack_push name
             (cached_field_schema field_info
                (map validator_from_decorator
                   (filter_field_decorator_info_by_field (field_validators decorators) name)))
             w = (Ok base, w1)
           /\ apply_each_item_validators base (filter each_item this_field_validators)
                (Some name) = Ok e
           /\ s = DefaultSchema
                    (apply_validators e
                       (filter (fun v => negb (each_item v)) this_field_validators)
                       (Some name))
                    d vd sl).
Proof.
  split; [|split; [|split]].
  - intros attrs s. unfold is_required, wrap_default.
    destruct (default attrs), (default_factory attrs); try discriminate; reflexivity.
  - apply wrap_default_not_required.
  - intros source_type l1 l2 md attrs w s w' Hf Hr H.
    unfold _annotated_schema in H. bind_inv H. inversion H; subst.
    rewrite wrap_defaults_one_field_info by exact Hf.
    destruct (wrap_default_not_required attrs a Hr) as [d Hd].
    exists a, d. split; [exact H0 | exact Hd].
  - intros name field_info decorators w s w' Hr H this_field_validators.
    subst this_field_validators.
    unfold _common_field_schema in H. bind_inv H. bind_inv H.
    apply lift_ok in H1. destruct H1 as [He ->].
    match type of H with
    | context [is_required ?a] =>
        assert (Hr' : is_required a = false)
          by (destruct (_validators_require_validate_default _); exact Hr);
        rewrite Hr' in H;
        destruct (wrap_default_not_required a
                    (apply_validators a0
                       (filter (fun v => negb (each_item v))
                          (filter_field_decorator_info_by_field (validators decorators) name))
                       (Some name)) Hr') as [d Hd]
    end.
    rewrite Hd in H.
    unfold with_default_schema in H.
    apply field_serializers_keep_default in H. destruct H as [sl ->].
    exists a, w0, a0, d. eexists. exists sl.
    split; [exact H0 | split; [exact He | reflexivity]].
Qed.

(** ** The field cache *)

(** C1, as amended. The field cache belongs to the process: a new generator
    starts with an empty definition table and empty stacks, and with the
    cache as the process has it. For a field without discriminator whose
    cache key is set, once its annotations have been applied a first time:
    when the cache has the key, hashed with the enum-value policy, the cached
    schema is answered, whoever stored it, and the cache stays as it is; when
    not, the schema the generator builds is answered and stored under the
    key, leaving the other entries alone. *)
Theorem schema_cache_is_process_wide :
  (forall config_wrapper w,
      SCHEMA_CACHE (new_instance config_wrapper w) = SCHEMA_CACHE w
      /\ self (new_instance config_wrapper w) = GenerateSchema_init config_wrapper)
  /\ (forall field_info vfd k w s0 w1,
         discriminator (fi_attrs field_info) = None ->
         cache_key field_info = Some k ->
         apply_annotations (annotation field_info) (fi_metadata field_info ++ vfd)
           (@ret CoreSchema) w = (Ok s0, w1) ->
         let key := hash k (use_enum_values (_config_wrapper w1)) in
         match cache_get (SCHEMA_CACHE w1) key with
         | Some cached => cached_field_schema field_info vfd w = (Ok cached, w1)
         | None =>
             forall s w2,
               apply_annotations (annotation field_info) (fi_metadata field_info ++ vfd)
                 (@ret CoreSchema) w1 = (Ok s, w2) ->
               cached_field_schema field_info vfd w
               = (Ok s, mkWorld (cache_setdefault (SCHEMA_CACHE w2) key s) (self w2))
         end)
  /\ (forall c k k' v v',
         cache_get c k = Some v -> cache_get (cache_setdefault c k' v') k = Some v).
Proof.
  split; [|split].
  - intros. split; reflexivity.
  - intros field_info vfd k w s0 w1 Hd Hk H0 key.
    unfold field_schema_cached. rewrite Hd, Hk.
    erewrite bind_step by exact H0.
    erewrite bind_step by reflexivity. cbv beta. subst key.
    destruct (cache_get (SCHEMA_CACHE w1) (hash k (use_enum_values (_config_wrapper w1))))
      as [cached|]; [reflexivity|].
    intros s w2 H1. erewrite bind_step by exact H1. reflexivity.
  - intros c k k' v v' H. unfold cache_setdefault.
    destruct (cache_get c k'); [exact H|].
    induction c as [|[k0 v0] r IH]; [discriminate H|].
    simpl in *. destruct (Z.eq_dec k k0); [exact H | auto].
Qed.

End FieldProperties.

Lemma default_wrapper_is_outermost_witness :
  let F := AnnFieldInfo [] (mkAttrs (Some 5) None None None) in
  let V := validator_from_decorator Sample.after_f in
  let inner := _generate_schema_inner Sample.type_ref Sample.classes
                 Sample.apply_known_metadata Sample.expand_grouped_metadata
                 Sample.apply_discriminator Sample.hash Sample.json_schema_of 3 in
  exists x d,
    _apply_annotations Sample.type_ref Sample.apply_known_metadata
      Sample.expand_grouped_metadata Sample.apply_discriminator Sample.json_schema_of inner
      (TPrim "int") ([] ++ F :: [V]) (@ret CoreSchema) Sample.fresh = (Ok x, Sample.fresh)
    /\ with_default_schema
         (FunctionSchema After false 21 (Some int_schema) None no_slots)
         (DefaultValue 5) None
       = with_default_schema x d None.
Proof.
  intros F V inner.
  apply (proj1 (proj2 (proj2 (default_wrapper_is_outermost Sample.type_ref
           Sample.apply_known_metadata Sample.expand_grouped_metadata
           Sample.apply_discriminator Sample.hash Sample.json_schema_of inner)))
           (TPrim "int") [] [V] [] (mkAttrs (Some 5) None None None) Sample.fresh).
  - reflexivity.
  - reflexivity.
  - vm_compute. reflexivity.
Defined.

Lemma schema_cache_is_process_wide_witness :
  field_schema_cached Sample.type_ref Sample.apply_known_metadata
    Sample.expand_grouped_metadata Sample.apply_discriminator Sample.hash
    Sample.json_schema_of
    (_generate_schema_inner Sample.type_ref Sample.classes Sample.apply_known_metadata
       Sample.expand_grouped_metadata Sample.apply_discriminator Sample.hash
       Sample.json_schema_of 3)
    Sample.x_int [] Sample.after_A
  = (Ok (FunctionSchema After false 21 (Some int_schema) None no_slots), Sample.after_A).
Proof.
  exact (proj1 (proj2 (schema_cache_is_process_wide Sample.type_ref
           Sample.apply_known_metadata Sample.expand_grouped_metadata
           Sample.apply_discriminator Sample.hash Sample.json_schema_of
           (_generate_schema_inner Sample.type_ref Sample.classes Sample.apply_known_metadata
              Sample.expand_grouped_metadata Sample.apply_discriminator Sample.hash
              Sample.json_schema_of 3)))
           Sample.x_int [] 5%Z Sample.after_A int_schema Sample.after_A eq_refl eq_refl eq_refl).
Defined.

(** C1, as stated, fails: a new generator in a process where [Sample.A] was
    compiled builds, for [Sample.B], a definition that differs from the one
    a new generator builds in a process that compiled nothing: the field [x]
    of [B] comes with the validator of [A]. *)
Lemma schema_cache_leaks_between_instances :
  self Sample.after_A = self Sample.fresh
  /\ fst (Sample.generate 10 (TModel "B") Sample.after_A)
     = fst (Sample.generate 10 (TModel "B") Sample.fresh)
  /\ dict_get (definitions (defs (self (snd (Sample.generate 10 (TModel "B") Sample.fresh)))))
       "B"
     = Some (ModelSchema "B" (ModelFieldsSchema [("x", int_schema)] "B" no_slots) false
               (mkSlots (Some "B") (mkMeta [7] [] None None) None))
  /\ dict_get (definitions (defs (self (snd (Sample.generate 10 (TModel "B") Sample.after_A)))))
       "B"
     = Some (ModelSchema "B"
               (ModelFieldsSchema
                  [("x", FunctionSchema After false 21 (Some int_schema) None no_slots)]
                  "B" no_slots) false
               (mkSlots (Some "B") (mkMeta [7] [] None None) None))
  /\ dict_get (definitions (defs (self (snd (Sample.generate 10 (TModel "B") Sample.fresh)))))
       "B"
     <> dict_get (definitions (defs (self (snd (Sample.generate 10 (TModel "B") Sample.after_A)))))
          "B".
Proof.
  split; [reflexivity | split; [vm_compute; reflexivity | split; [vm_compute; reflexivity |
    split; [vm_compute; reflexivity | vm_compute; intros H; discriminate H]]]].
Qed.

(** ** The metadata fold *)

Lemma bind_ret_r (A : Type) (m : M A) (w : World) : bind m (@ret A) w = m w.
Proof. unfold bind, ret. destruct (m w) as [[a| e |] w1]; reflexivity. Qed.

Lemma bind_congr (A B : Type) (m m' : M A) (k : A -> M B) (w : World) :
  m w = m' w -> bind m k w = bind m' k w.
Proof. intros H. unfold bind. rewrite H. reflexivity. Qed.

Lemma ref_free_get_ref (s : CoreSchema) : ref_free s = true -> get_ref s = None.
Proof.
  destruct s; simpl; unfold get_ref; simpl;
    try (destruct (ref sl); [discriminate | reflexivity]).
Qed.

Section FoldProperties.

Variable apply_known_metadata : Annotation -> CoreSchema -> option CoreSchema.
Variable apply_discriminator : CoreSchema -> string -> Outcome CoreSchema.

Local Abbreviation wrapped := (_get_wrapped_inner_schema apply_known_metadata apply_discriminator).
Local Abbreviation step := (annotation_step apply_known_metadata apply_discriminator).
Local Abbreviation handlers := (wrap_handlers apply_known_metadata apply_discriminator).

Lemma wrapped_is_step (a : Annotation) (h : Handler) (source : Ty) (js : list Callable)
    (w : World) :
  calls_handler_once a = true ->
  a <> AnnNone ->
  wrapped h a source js w = bind (h source js) (step source a) w.
Proof.
  intros Hc Hn.
  destruct a as [| r [[wf|s]|] j | l attrs]; try congruence; try discriminate Hc;
    unfold annotation_step, _get_wrapped_inner_schema, CallbackGetCoreSchemaHandler,
      new_handler, bind, ret;
    destruct (h source js w) as [[r0| e |] w1]; reflexivity.
Qed.

Lemma wrap_handlers_fold (anns : list Annotation) :
  forallb calls_handler_once anns = true ->
  forall h source js w,
    handlers h anns source js w
    = bind (h source js) (fold_annotations (step source) anns) w.
Proof.
  induction anns as [|a rest IH]; intros Hc h source js w.
  - simpl. symmetry. apply bind_ret_r.
  - simpl in Hc. apply andb_true_iff in Hc. destruct Hc as [Ha Hr].
    assert (D : a = AnnNone \/ a <> AnnNone) by (destruct a; auto; right; discriminate).
    destruct D as [-> | Hn].
    + cbn [wrap_handlers]. rewrite IH by exact Hr. apply bind_ext. reflexivity.
    + assert (E : handlers h (a :: rest) source js w = handlers (wrapped h a) rest source js w)
        by (destruct a; try congruence; reflexivity).
      rewrite E, IH by exact Hr.
      rewrite (bind_congr (wrapped h a source js) (bind (h source js) (step source a)))
        by (apply wrapped_is_step; assumption).
      rewrite bind_assoc. apply bind_ext. reflexivity.
Qed.

Lemma single_annotation_on_ref_free (definitions : list (string * CoreSchema))
    (md : Annotation) (s : CoreSchema) :
  (forall x, apply_known_metadata md x = None) ->
  ref_free s = true ->
  apply_single_annotation_on apply_known_metadata definitions md s = s.
Proof.
  intros Hk. unfold apply_known_or_original.
  induction s; intros Hf; cbn [apply_single_annotation_on];
    try (rewrite (ref_free_get_ref _ Hf); unfold apply_known_or_original; rewrite Hk;
         reflexivity).
  - simpl in Hf. destruct (ref sl); [discriminate|]. rewrite IHs by exact Hf. reflexivity.
  - discriminate Hf.
Qed.

Lemma annotation_step_wrap (source : Ty) (r : string)
    (wf : option string -> CoreSchema -> CoreSchema) (b : CoreSchema) (js : list Callable)
    (w : World) :
  (forall x, apply_known_metadata (Ann r (Some (HookWrap wf)) None) x = None) ->
  ref_free (wf (field_name_stack_get w) b) = true ->
  step source (Ann r (Some (HookWrap wf)) None) (b, js) w
  = (Ok (wf (field_name_stack_get w) b, js), w).
Proof.
  intros Hk Hf.
  unfold annotation_step, _get_wrapped_inner_schema, CallbackGetCoreSchemaHandler,
    new_handler, bind, ret, handler_field_name. simpl.
  unfold bind, get_definitions, ret.
  rewrite single_annotation_on_ref_free by assumption.
  unfold _apply_single_annotation_json_schema, resolve_by_ref_mode. simpl.
  rewrite (ref_free_get_ref _ Hf). reflexivity.
Qed.

(** C6. The handler chain that [_apply_annotations] builds runs as a fold
    from the left: the base handler first, then one step per item of the
    list in order, each given the schema built so far. For a list [A, B] of
    two items that wrap the schema (and that the known-metadata step leaves
    alone), on a base schema [b], the result is [B(A(b))]. And the order
    counts: with two 'after' validators on [int], the two orders give
    different schemas. *)
Theorem metadata_folds_left_to_right :
  (forall anns h source js w,
      forallb calls_handler_once anns = true ->
      handlers h anns source js w
      = bind (h source js) (fold_annotations (step source) anns) w)
  /\ (forall rA wA rB wB h source js w b js0 w0,
         (forall x, apply_known_metadata (Ann rA (Some (HookWrap wA)) None) x = None) ->
         (forall x, apply_known_metadata (Ann rB (Some (HookWrap wB)) None) x = None) ->
         h source js w = (Ok (b, js0), w0) ->
         ref_free (wA (field_name_stack_get w0) b) = true ->
         ref_free (wB (field_name_stack_get w0) (wA (field_name_stack_get w0) b)) = true ->
         handlers h [Ann rA (Some (HookWrap wA)) None; Ann rB (Some (HookWrap wB)) None]
           source js w
         = (Ok (wB (field_name_stack_get w0) (wA (field_name_stack_get w0) b), js0), w0))
  /\ (let run := fun anns =>
        fst (_apply_annotations Sample.type_ref Sample.apply_known_metadata
               Sample.expand_grouped_metadata Sample.apply_discriminator
               Sample.json_schema_of
               (_generate_schema_inner Sample.type_ref Sample.classes
                  Sample.apply_known_metadata Sample.expand_grouped_metadata
                  Sample.apply_discriminator Sample.hash Sample.json_schema_of 3)
               (TPrim "int") anns (@ret CoreSchema) Sample.fresh) in
      let A := validator_from_decorator Sample.after_f in
      let B := validator_from_decorator Sample.after_g in
      run [A; B]
      = Ok (FunctionSchema After false 22
              (Some (FunctionSchema After false 21 (Some int_schema) None no_slots))
              None no_slots)
      /\ run [B; A]
         = Ok (FunctionSchema After false 21
                 (Some (FunctionSchema After false 22 (Some int_schema) None no_slots))
                 None no_slots)
      /\ run [A; B] <> run [B; A]).
Proof.
  split; [|split].
  - intros. apply wrap_handlers_fold. assumption.
  - intros rA wA rB wB h source js w b js0 w0 HA HB Hh HfA HfB.
    rewrite wrap_handlers_fold by reflexivity.
    erewrite bind_step by exact Hh.
    cbn [fold_annotations].
    erewrite bind_step by (apply annotation_step_wrap; assumption).
    erewrite bind_step by (apply annotation_step_wrap; assumption).
    reflexivity.
  - vm_compute. split; [reflexivity | split; [reflexivity | intros H; discriminate H]].
Qed.

End FoldProperties.

Lemma metadata_folds_left_to_right_witness :
  let wA := fun (fn : option string) s => FunctionSchema After false 21 (Some s) fn no_slots in
  let wB := fun (fn : option string) s => FunctionSchema Before false 22 (Some s) fn no_slots in
  wrap_handlers Sample.apply_known_metadata Sample.apply_discriminator
    (fun _ js => ret (int_schema, js))
    [Ann "A" (Some (HookWrap wA)) None; Ann "B" (Some (HookWrap wB)) None]
    (TPrim "int") [] Sample.fresh
  = (Ok (wB None (wA None int_schema), []), Sample.fresh).
Proof.
  intros wA wB.
  apply (proj1 (proj2 (metadata_folds_left_to_right Sample.apply_known_metadata
                         Sample.apply_discriminator))
           "A" wA "B" wB (fun _ js => ret (int_schema, js)) (TPrim "int") []
           Sample.fresh int_schema [] Sample.fresh);
    reflexivity.
Defined.

(** ** Unions *)

Lemma union_members_mapM (gen : Ty -> M CoreSchema) (args : list Ty) :
  forall choices nullable w,
    union_members gen args choices nullable w
    = bind (mapM gen (filter (fun t => negb (is_none_type t)) args))
        (fun ss => ret (choices ++ ss, nullable || existsb is_none_type args)) w.
Proof.
  induction args as [|arg rest IH]; intros choices nullable w.
  - simpl. unfold bind, ret. rewrite app_nil_r, orb_false_r. reflexivity.
  - destruct arg;
      try (cbn [union_members filter is_none_type negb existsb mapM];
           rewrite bind_assoc; apply bind_ext; intros s w1;
           rewrite IH, bind_assoc; apply bind_ext; intros ss w2;
           unfold bind, ret; rewrite <- app_assoc; reflexivity).
    cbn [union_members filter is_none_type negb existsb].
    rewrite IH. apply bind_ext. intros ss w1. rewrite orb_true_r. reflexivity.
Qed.

(** C9. A union recurses once per member that is not [None], in declaration
    order, and records a [None] member as nullability; one remaining member
    is answered as it is, without a union node, several give a union over
    them in that order, and the nullable wrapper goes around the result.
    [Sample.Node], with [value: int] and [next: Optional[Node]], compiles to
    a reference node for [Node] and a table with the one definition of
    [Node], whose [next] field is a nullable wrapper around a reference node
    for that same ref. *)
Theorem union_collapse_and_node_graph :
  (forall gen arg rest w,
      _union_schema gen (arg :: rest) w
      = bind (mapM gen (filter (fun t => negb (is_none_type t)) (arg :: rest)))
          (fun choices =>
             ret (union_of_choices choices (existsb is_none_type (arg :: rest)))) w)
  /\ (forall only, union_of_choices [only] false = only)
  /\ (forall only, union_of_choices [only] true = nullable_schema only)
  /\ (forall c1 c2 rest nullable,
         union_of_choices (c1 :: c2 :: rest) nullable
         = (if nullable then nullable_schema else fun s => s)
             (union_schema (map choice_with_tag (c1 :: c2 :: rest)))
         /\ map fst (map choice_with_tag (c1 :: c2 :: rest)) = c1 :: c2 :: rest)
  /\ (let r := Sample.generate 10 (TModel "Node") Sample.fresh in
      fst r = Ok (definition_reference_schema "Node")
      /\ definitions (defs (self (snd r)))
         = [("Node",
             ModelSchema "Node"
               (ModelFieldsSchema
                  [("value", int_schema);
                   ("next", nullable_schema (definition_reference_schema "Node"))]
                  "Node" no_slots)
               false
               (mkSlots (Some "Node") (mkMeta [7] [] None None) None))]
      /\ seen (defs (self (snd r))) = []).
Proof.
  split; [|split; [|split; [|split]]].
  - intros gen arg rest w. unfold _union_schema.
    rewrite bind_congr
      with (m' := bind (mapM gen (filter (fun t => negb (is_none_type t)) (arg :: rest)))
                    (fun ss => ret ([] ++ ss, false || existsb is_none_type (arg :: rest))))
      by apply union_members_mapM.
    rewrite bind_assoc. apply bind_ext. intros ss w1. reflexivity.
  - reflexivity.
  - reflexivity.
  - intros c1 c2 rest nullable. split.
    + destruct nullable; reflexivity.
    + rewrite map_map. simpl. rewrite map_id. reflexivity.
  - vm_compute. repeat split.
Qed.

(** ** Termination *)

Lemma filter_length_le (A : Type) (f g : A -> bool) (l : list A) :
  (forall x, f x = true -> g x = true) ->
  List.length (filter f l) <= List.length (filter g l).
Proof.
  intros H. induction l as [|x r IH]; simpl; [lia|].
  destruct (f x) eqn:Ef.
  - rewrite (H x Ef). simpl. lia.
  - destruct (g x); simpl; lia.
Qed.

Lemma filter_length_lt (A : Type) (f g : A -> bool) (l : list A) (a : A) :
  (forall x, f x = true -> g x = true) ->
  In a l -> f a = false -> g a = true ->
  List.length (filter f l) < List.length (filter g l).
Proof.
  intros H Hin Hf Hg. induction l as [|x r IH]; simpl; [contradiction|].
  destruct Hin as [-> | Hin].
  - rewrite Hf, Hg. simpl. pose proof (filter_length_le f g r H). lia.
  - specialize (IH Hin). destruct (f x) eqn:Ef.
    + rewrite (H x Ef). simpl. lia.
    + destruct (g x); simpl; lia.
Qed.

Lemma filter_length_bound (A : Type) (f : A -> bool) (l : list A) :
  List.length (filter f l) <= List.length l.
Proof. induction l as [|x r IH]; simpl; [lia | destruct (f x); simpl; lia]. Qed.

Lemma known_grows_refl (w : World) : known_grows w w.
Proof. intros r H. exact H. Qed.

Lemma known_grows_trans (w1 w2 w3 : World) :
  known_grows w1 w2 -> known_grows w2 w3 -> known_grows w1 w3.
Proof. intros H1 H2 r H. apply H2, H1, H. Qed.

Lemma dict_mem_set (A : Type) (d : list (string * A)) (k k' : string) (v : A) :
  dict_mem d k' = true -> dict_mem (dict_set d k v) k' = true.
Proof.
  unfold dict_mem. induction d as [|[k0 v0] r IH]; simpl; [discriminate|].
  destruct (string_dec k' k0) as [->|Hn].
  - intros _. destruct (string_dec k k0) as [->|Hk]; simpl.
    + destruct (string_dec k0 k0); [reflexivity | congruence].
    + destruct (string_dec k0 k0); [reflexivity | congruence].
  - intros H. destruct (string_dec k k0) as [->|Hk]; simpl.
    + destruct (string_dec k' k0); [congruence | exact H].
    + destruct (string_dec k' k0); [congruence | apply IH, H].
Qed.

Lemma dict_mem_set_same (A : Type) (d : list (string * A)) (k : string) (v : A) :
  dict_mem (dict_set d k v) k = true.
Proof.
  unfold dict_mem. induction d as [|[k0 v0] r IH]; simpl.
  - destruct (string_dec k k); [reflexivity | congruence].
  - destruct (string_dec k k0) as [->|Hk]; simpl.
    + destruct (string_dec k0 k0); [reflexivity | congruence].
    + destruct (string_dec k k0); [congruence | exact IH].
Qed.

Lemma set_mem_add (r r' : string) (l : set string) :
  set_mem string_dec r' l = true -> set_mem string_dec r' (set_add string_dec r l) = true.
Proof.
  intros H. apply set_mem_correct2. apply set_add_intro1.
  apply (set_mem_correct1 string_dec). exact H.
Qed.

Lemma set_mem_add_same (r : string) (l : set string) :
  set_mem string_dec r (set_add string_dec r l) = true.
Proof. apply set_mem_correct2. apply set_add_intro2. reflexivity. Qed.

Lemma set_mem_remove (r r' : string) (l : set string) :
  r' <> r ->
  set_mem string_dec r' l = true -> set_mem string_dec r' (set_remove string_dec r l) = true.
Proof.
  intros Hn H. apply set_mem_correct2. apply set_remove_3; [|exact Hn].
  apply (set_mem_correct1 string_dec). exact H.
Qed.

Lemma known_seen_add (r : string) (w : World) : known_grows w (seen_add r w).
Proof.
  intros r' H. unfold known in *. simpl. apply orb_true_iff in H. apply orb_true_iff.
  destruct H as [H|H]; [left; apply set_mem_add; exact H | right; exact H].
Qed.

Lemma known_seen_add_same (r : string) (w : World) : known (seen_add r w) r = true.
Proof. unfold known. simpl. rewrite set_mem_add_same. reflexivity. Qed.

Lemma known_seen_discard (r r' : string) (w : World) :
  r' <> r -> known w r' = true -> known (seen_discard r w) r' = true.
Proof.
  intros Hn H. unfold known in *. simpl. apply orb_true_iff in H. apply orb_true_iff.
  destruct H as [H|H]; [left; apply set_mem_remove; assumption | right; exact H].
Qed.

Section SafeSteps.

Variable get_type_ref : Ty -> string.
Variable classes : list (string * ModelClass).

Local Abbreviation left_to_expand := (unseen get_type_ref classes).
Local Abbreviation safe := (Safe get_type_ref classes).

Lemma unseen_grows (w w' : World) :
  known_grows w w' -> left_to_expand w' <= left_to_expand w.
Proof.
  intros H. unfold unseen. apply filter_length_le. intros r Hr.
  apply negb_true_iff in Hr. apply negb_true_iff.
  destruct (known w r) eqn:E; [|reflexivity]. rewrite (H r E) in Hr. discriminate.
Qed.

Lemma unseen_drops (w w' : World) (r : string) :
  known_grows w w' -> In r (model_refs get_type_ref classes) ->
  known w r = false -> known w' r = true ->
  left_to_expand w' < left_to_expand w.
Proof.
  intros H Hin Hf Ht. unfold unseen. apply filter_length_lt with (a := r).
  - intros x Hx. apply negb_true_iff in Hx. apply negb_true_iff.
    destruct (known w x) eqn:E; [|reflexivity]. rewrite (H x E) in Hx. discriminate.
  - exact Hin.
  - rewrite Ht. reflexivity.
  - rewrite Hf. reflexivity.
Qed.

Lemma unseen_le_classes (w : World) : left_to_expand w <= List.length classes.
Proof.
  unfold unseen, model_refs.
  rewrite <- (length_map (fun c => get_type_ref (TModel (fst c))) classes).
  apply filter_length_bound.
Qed.

Lemma safe_ret (n : nat) (A : Type) (a : A) : safe n (ret a).
Proof. intros w _. apply known_grows_refl. Qed.

Lemma safe_raise (n : nat) (A : Type) (e : Exn) : safe n (@raise A e).
Proof. intros w _. exact I. Qed.

Lemma safe_lift (n : nat) (A : Type) (o : Outcome A) : o <> Timeout -> safe n (lift o).
Proof.
  intros H w _. unfold settles, lift. destruct o; [apply known_grows_refl | exact I | congruence].
Qed.

Lemma safe_bind (n : nat) (A B : Type) (m : M A) (k : A -> M B) :
  safe n m -> (forall a, safe n (k a)) -> safe n (bind m k).
Proof.
  intros Hm Hk w Hw. specialize (Hm w Hw). unfold settles, bind in *.
  destruct (m w) as [[a| e |] w1]; [| exact I | exact Hm].
  assert (Hw1 : left_to_expand w1 <= n) by (pose proof (unseen_grows Hm); lia).
  specialize (Hk a w1 Hw1). unfold settles in Hk.
  destruct (k a w1) as [[b| e |] w2]; [| exact I | exact Hk].
  eapply known_grows_trans; eassumption.
Qed.

Lemma safe_weaken (n m : nat) (A : Type) (c : M A) : m <= n -> safe n c -> safe m c.
Proof. intros H Hc w Hw. apply Hc. lia. Qed.

(** A computation that reads the state only. *)
Lemma safe_read (n : nat) (A : Type) (m : M A) :
  (forall w, exists a, m w = (Ok a, w)) -> safe n m.
Proof.
  intros H w _. unfold settles. destruct (H w) as [a ->]. apply known_grows_refl.
Qed.

Lemma safe_definitions_set (n : nat) (r : string) (s : CoreSchema) :
  safe n (definitions_set r s).
Proof.
  intros w _. unfold settles, definitions_set, modify_self. intros r' H.
  unfold known in *. simpl. apply orb_true_iff in H. apply orb_true_iff.
  destruct H as [H|H]; [left; exact H | right; apply dict_mem_set; exact H].
Qed.

Lemma safe_cache_setdefault (n : nat) (k : Z) (s : CoreSchema) :
  safe n (schema_cache_setdefault k s).
Proof. intros w _. unfold settles, schema_cache_setdefault. intros r H. exact H. Qed.

(** Scopes whose entry and exit leave the definition table alone. *)
Lemma safe_enter_yield_leave (n : nat) (A : Type) (enter leave : World -> World) (body : M A) :
  (forall w r, known (enter w) r = known w r) ->
  (forall w r, known (leave w) r = known w r) ->
  safe n body -> safe n (enter_yield_leave enter leave body).
Proof.
  intros He Hl Hb w Hw.
  assert (Hw' : left_to_expand (enter w) <= n).
  { unfold unseen in *. erewrite filter_ext; [exact Hw|]. intros r. rewrite He. reflexivity. }
  specialize (Hb (enter w) Hw'). unfold settles, enter_yield_leave in *.
  destruct (body (enter w)) as [[a| e |] w1]; [| exact I | exact Hb].
  intros r H. rewrite Hl. apply Hb. rewrite He. exact H.
Qed.

Lemma safe_field_name_stack_push (n : nat) (A : Type) (name : string) (body : M A) :
  safe n body -> safe n (field_name_stack_push name body).
Proof. apply safe_enter_yield_leave; intros; reflexivity. Qed.

Lemma safe_model_type_stack_push (n : nat) (A : Type) (cls : string) (body : M A) :
  safe n body -> safe n (model_type_stack_push cls body).
Proof. apply safe_enter_yield_leave; intros; reflexivity. Qed.

Lemma safe_config_wrapper_stack_push (n : nat) (A : Type) (c : ConfigWrapper) (body : M A) :
  safe n body -> safe n (config_wrapper_stack_push c body).
Proof.
  intros Hb w Hw. unfold config_wrapper_stack_push, try_finally, settles.
  set (w0 := set_config_wrapper_stack (_config_wrapper_stack (self w) ++ [c]) w).
  assert (Hw' : left_to_expand w0 <= n) by exact Hw.
  specialize (Hb w0 Hw'). unfold settles in Hb.
  destruct (body w0) as [[a| e |] w1]; [| exact I | exact Hb].
  intros r H. apply (Hb r) in H. exact H.
Qed.

(** The cycle guard: a known ref gives the body a reference node; an
    unknown one is marked, and unmarked when the body is left. *)
Lemma safe_get_schema_or_ref (n : nat) (A : Type) (r : string)
    (body : string * option CoreSchema -> M A) :
  (forall p, safe n (body p)) -> safe n (get_schema_or_ref r body).
Proof.
  intros Hb w Hw. unfold settles, get_schema_or_ref.
  destruct (known w r) eqn:Ek.
  - apply (Hb _ w Hw).
  - unfold try_finally.
    assert (Hw' : left_to_expand (seen_add r w) <= n)
      by (pose proof (unseen_grows (known_seen_add r w)); lia).
    specialize (Hb (r, None) _ Hw'). unfold settles in Hb.
    destruct (body (r, None) (seen_add r w)) as [[a| e |] w1]; [| exact I | exact Hb].
    intros r' H. apply known_seen_discard.
    + intros ->. congruence.
    + apply Hb. apply known_seen_add. exact H.
Qed.

Lemma safe_get_schema_or_ref_model (n : nat) (A : Type) (r : string)
    (body : string * option CoreSchema -> M A) :
  In r (model_refs get_type_ref classes) ->
  safe (S n) (body (r, Some (definition_reference_schema r))) ->
  safe n (body (r, None)) ->
  safe (S n) (get_schema_or_ref r body).
Proof.
  intros Hin Hs Hb w Hw. unfold settles, get_schema_or_ref.
  destruct (known w r) eqn:Ek.
  - apply (Hs w Hw).
  - unfold try_finally.
    assert (Hw' : left_to_expand (seen_add r w) <= n).
    { assert (Hd : left_to_expand (seen_add r w) < left_to_expand w).
      { apply unseen_drops with (r := r);
          [apply known_seen_add | exact Hin | exact Ek | apply known_seen_add_same]. }
      lia. }
    specialize (Hb _ Hw'). unfold settles in Hb.
    destruct (body (r, None) (seen_add r w)) as [[a| e |] w1]; [| exact I | exact Hb].
    intros r' H. apply known_seen_discard.
    + intros ->. congruence.
    + apply Hb. apply known_seen_add. exact H.
Qed.

Lemma safe_get_schema_or_ref_all_known (A : Type) (r : string)
    (body : string * option CoreSchema -> M A) :
  In r (model_refs get_type_ref classes) ->
  safe 0 (body (r, Some (definition_reference_schema r))) ->
  safe 0 (get_schema_or_ref r body).
Proof.
  intros Hin Hs w Hw. unfold settles, get_schema_or_ref.
  destruct (known w r) eqn:Ek.
  - apply (Hs w Hw).
  - exfalso. unfold unseen in Hw.
    assert (H : In r (filter (fun r => negb (known w r)) (model_refs get_type_ref classes)))
      by (apply filter_In; split; [exact Hin | rewrite Ek; reflexivity]).
    destruct (filter (fun r => negb (known w r)) (model_refs get_type_ref classes));
      [contradiction | simpl in Hw; lia].
Qed.

End SafeSteps.

Lemma each_item_returns (s : CoreSchema) (vs : list Decorator) (fn : option string) :
  apply_each_item_validators s vs fn <> Timeout.
Proof.
  induction s; destruct vs as [|v vs]; cbn -[is_list_like_schema_with_items_schema append];
    try discriminate.
  - destruct (apply_each_item_validators s (v :: vs) fn); [discriminate | discriminate | exact IHs].
  - destruct (is_list_like_schema_with_items_schema (ItemsSchema type items_schema sl));
      discriminate.
  - destruct variadic_item_index as [i|]; [|discriminate].
    destruct (list_update items_schema i
                (fun it => apply_validators
                             (VALIDATOR_F_MATCH (dec_mode v) (info_arg v) (func v) it fn) vs fn));
      discriminate.
Qed.

Lemma check_decorator_fields_returns (decs : list (list string)) (fields : list string) :
  check_decorator_fields_exist decs fields <> Timeout.
Proof.
  induction decs as [|d r IH]; simpl; [discriminate|].
  destruct (mem_string "*" d); [exact IH|].
  destruct (forallb (fun field => mem_string field fields) d); [exact IH | discriminate].
Qed.

Lemma model_validators_loop_returns (vs : list Decorator) (mode : ModelValidatorPhase) :
  forall s, apply_model_validators_loop s vs mode <> Timeout.
Proof.
  induction vs as [|v r IH]; intros s; simpl; [discriminate|].
  destruct mode, (dec_mode v); try apply IH; discriminate.
Qed.

Lemma model_validators_returns (s : CoreSchema) (vs : list Decorator)
    (mode : ModelValidatorPhase) :
  apply_model_validators s vs mode <> Timeout.
Proof.
  unfold apply_model_validators.
  pose proof (model_validators_loop_returns vs mode (set_ref s None)) as H.
  destruct (apply_model_validators_loop (set_ref s None) vs mode); congruence.
Qed.

Lemma last_opt_In (A : Type) (l : list A) (x : A) : last_opt l = Some x -> In x l.
Proof.
  destruct l as [|a r]; simpl; [discriminate|]. intros H. inversion H; subst. clear H.
  revert a. induction r as [|b r IH]; intros a; [left; reflexivity|].
  destruct r as [|c r']; [right; left; reflexivity|].
  change (last (b :: c :: r') a) with (last (c :: r') a).
  destruct (IH a) as [H|H]; [left; exact H | right; right; exact H].
Qed.

Lemma dict_get_In (A : Type) (d : list (string * A)) (k : string) (v : A) :
  dict_get d k = Some v -> In (k, v) d.
Proof.
  induction d as [|[k0 v0] r IH]; simpl; [discriminate|].
  destruct (string_dec k k0) as [->|Hn]; intros H.
  - inversion H; subst. left. reflexivity.
  - right. apply IH, H.
Qed.

Lemma list_max_In (l : list nat) (x : nat) : In x l -> x <= list_max l.
Proof.
  induction l as [|y r IH]; simpl; [contradiction|].
  intros [-> | H]; [lia | specialize (IH H); lia].
Qed.

Lemma union_arg_smaller (args : list Ty) (x : Ty) :
  In x args -> ty_size x < ty_size (TUnion args).
Proof.
  simpl. induction args as [|a r IH]; simpl; [contradiction|].
  intros [-> | H]; [lia | specialize (IH H); lia].
Qed.

Section GeneratorSafety.

Variable get_type_ref : Ty -> string.
Variable classes : list (string * ModelClass).
Variable apply_known_metadata : Annotation -> CoreSchema -> option CoreSchema.
Variable expand_grouped_metadata : list Annotation -> list Annotation.
Variable apply_discriminator : CoreSchema -> string -> Outcome CoreSchema.
Variable hash : Z -> bool -> Z.
Variable _extract_get_pydantic_json_schema : Ty -> option Callable.

Hypothesis apply_discriminator_returns : forall s d, apply_discriminator s d <> Timeout.

Local Abbreviation safe := (Safe get_type_ref classes).

Ltac safe_step :=
  match goal with
  | |- Safe _ _ _ (bind _ _) => apply safe_bind; [| intros ?]
  | |- Safe _ _ _ (ret _) => apply safe_ret
  | |- Safe _ _ _ (raise _) => apply safe_raise
  | |- Safe _ _ _ (definitions_set _ _) => apply safe_definitions_set
  | |- Safe _ _ _ (schema_cache_setdefault _ _) => apply safe_cache_setdefault
  | |- Safe _ _ _ get_definitions => apply safe_read; intros ?; eexists; reflexivity
  | |- Safe _ _ _ get_world => apply safe_read; intros ?; eexists; reflexivity
  | |- Safe _ _ _ handler_field_name => apply safe_read; intros ?; eexists; reflexivity
  | |- Safe _ _ _ (field_name_stack_push _ _) => apply safe_field_name_stack_push
  | |- Safe _ _ _ (model_type_stack_push _ _) => apply safe_model_type_stack_push
  | |- Safe _ _ _ (config_wrapper_stack_push _ _) => apply safe_config_wrapper_stack_push
  | |- Safe _ _ _ (let (_, _) := ?x in _) => destruct x
  | |- Safe _ _ _ (match ?x with _ => _ end) => destruct x
  | |- Safe _ _ _ (if ?x then _ else _) => destruct x
  end.

Ltac safe_tac := repeat safe_step; auto.

Lemma safe_settled (n : nat) (A : Type) (m : M A) :
  (forall w, exists o, m w = (o, w) /\ o <> Timeout) -> safe n m.
Proof.
  intros H w _. unfold settles. destruct (H w) as (o & -> & Ho).
  destruct o; [apply known_grows_refl | exact I | congruence].
Qed.

Lemma discriminator_settled (s : CoreSchema) (d : option string) (w : World) :
  exists o, _apply_discriminator_to_union apply_discriminator s d w = (o, w) /\ o <> Timeout.
Proof.
  unfold _apply_discriminator_to_union. destruct d as [d|].
  - pose proof (apply_discriminator_returns (s:=s) (d:=d)) as H.
    destruct (apply_discriminator s d) as [s'| e |]; [| | congruence].
    + eexists; split; [reflexivity | discriminate].
    + destruct e; eexists; (split; [reflexivity | discriminate]).
  - eexists; split; [reflexivity | discriminate].
Qed.

Lemma safe_discriminator (n : nat) (s : CoreSchema) (d : option string) :
  safe n (_apply_discriminator_to_union apply_discriminator s d).
Proof. apply safe_settled. intros w. apply discriminator_settled. Qed.

Lemma single_annotation_settled (md : Annotation) :
  forall s w, exists o,
    _apply_single_annotation apply_known_metadata apply_discriminator md s w = (o, w)
    /\ o <> Timeout.
Proof.
  induction md as [| r h j | l attrs IH] using Annotation_nested_ind; intros s w;
    try (eexists; split; [reflexivity | discriminate]).
  cbn [_apply_single_annotation].
  set (loop := fix loop (l : list Annotation) (s : CoreSchema) {struct l} : M CoreSchema :=
                 match l with
                 | [] => ret s
                 | m :: r =>
                     bind (_apply_single_annotation apply_known_metadata apply_discriminator m s)
                       (fun s1 => loop r s1)
                 end).
  assert (Hloop : forall s w, exists o, loop l s w = (o, w) /\ o <> Timeout).
  { induction IH as [|m r Hm Hr IHr]; intros s0 w0.
    - eexists; split; [reflexivity | discriminate].
    - cbn [loop]. unfold bind. destruct (Hm s0 w0) as (o & -> & Ho).
      destruct o as [s1| e |]; [apply IHr | | congruence].
      eexists; split; [reflexivity | discriminate]. }
  unfold bind. destruct (Hloop s w) as (o & -> & Ho).
  destruct o as [s1| e |]; [| | congruence].
  - destruct (discriminator attrs) as [d|].
    + apply discriminator_settled.
    + eexists; split; [reflexivity | discriminate].
  - eexists; split; [reflexivity | discriminate].
Qed.

Lemma safe_single_annotation (n : nat) (md : Annotation) (s : CoreSchema) :
  safe n (_apply_single_annotation apply_known_metadata apply_discriminator md s).
Proof. apply safe_settled. intros w. apply single_annotation_settled. Qed.

Lemma safe_resolve_by_ref_mode (n : nat) (ref_mode : RefMode) (s : CoreSchema) :
  safe n (resolve_by_ref_mode ref_mode s).
Proof. unfold resolve_by_ref_mode. destruct ref_mode; safe_tac. Qed.

Lemma safe_callback_handler (n : nat) (h : Handler) (ref_mode : RefMode) (source : Ty) :
  (forall js, safe n (h source js)) ->
  forall js, safe n (CallbackGetCoreSchemaHandler h ref_mode source js).
Proof.
  intros H js. unfold CallbackGetCoreSchemaHandler. safe_tac.
  apply safe_resolve_by_ref_mode.
Qed.

Lemma safe_new_handler (n : nat) (h : Handler) (a : Annotation) (source : Ty) :
  (forall js, safe n (h source js)) ->
  forall js, safe n (new_handler apply_known_metadata apply_discriminator h a source js).
Proof.
  intros H js. unfold new_handler.
  apply safe_bind.
  - safe_tac.
  - intros r. apply safe_bind; [apply safe_single_annotation|]. intros s. safe_tac.
Qed.

Lemma safe_wrap_handlers (n : nat) (source : Ty) (anns : list Annotation) :
  forall h,
    (forall js, safe n (h source js)) ->
    forall js,
      safe n (wrap_handlers apply_known_metadata apply_discriminator h anns source js).
Proof.
  induction anns as [|a rest IH]; intros h H js; [apply H|].
  assert (Hw : forall js0,
             safe n (_get_wrapped_inner_schema apply_known_metadata apply_discriminator
                       h a source js0)).
  { unfold _get_wrapped_inner_schema. apply safe_callback_handler.
    apply safe_new_handler. exact H. }
  destruct a; cbn [wrap_handlers]; apply IH; assumption.
Qed.

Lemma safe_add_metadata_js_function (n : nat) (obj : Ty) (s : CoreSchema) :
  safe n (add_metadata_js_function _extract_get_pydantic_json_schema obj s).
Proof.
  unfold add_metadata_js_function, add_js_function_to_original. safe_tac.
Qed.

Lemma safe_store_definitions (n : nat) (l : list CoreSchema) : safe n (store_definitions l).
Proof. induction l as [|s r IH]; simpl; safe_tac. Qed.

Lemma safe_register_hook_schema (n : nat) (s : CoreSchema) : safe n (register_hook_schema s).
Proof.
  unfold register_hook_schema. apply safe_bind.
  - unfold _unpack_refs_defs. safe_tac. apply safe_store_definitions.
  - intros s0. safe_tac.
Qed.

Lemma safe_resolve_self_type (n : nat) : safe n _resolve_self_type.
Proof.
  apply safe_settled. intros w. unfold _resolve_self_type.
  destruct (model_type_stack_get w); eexists; (split; [reflexivity | discriminate]).
Qed.

Section WithInner.

Variable n : nat.
Variable inner : Ty -> M CoreSchema.

Lemma safe_from_property (obj source : Ty) (same : bool) :
  safe n (inner source) ->
  safe n (_generate_schema_from_property get_type_ref inner obj source same).
Proof.
  intros H. unfold _generate_schema_from_property.
  apply safe_bind.
  - destruct obj; safe_tac; apply safe_resolve_self_type.
  - intros resolved. apply safe_bind.
    + apply safe_get_schema_or_ref. intros p. safe_tac.
    + intros maybe. destruct maybe; [safe_tac|].
      destruct (fst resolved); safe_tac.
      * apply safe_callback_handler. intros js. safe_tac.
      * apply safe_register_hook_schema.
Qed.

Lemma safe_generate_schema_with (obj : Ty) :
  safe n (inner obj) ->
  safe n (generate_schema_with get_type_ref _extract_get_pydantic_json_schema inner obj).
Proof.
  intros H. unfold generate_schema_with.
  apply safe_bind; [apply safe_from_property; exact H|].
  intros fp. apply safe_bind; [destruct fp; safe_tac|].
  intros s. apply safe_add_metadata_js_function.
Qed.

Lemma safe_apply_annotations (source_type : Ty) (annotations : list Annotation)
    (transform : CoreSchema -> M CoreSchema) :
  safe n (inner source_type) ->
  (forall s, safe n (transform s)) ->
  safe n (_apply_annotations get_type_ref apply_known_metadata expand_grouped_metadata
            apply_discriminator _extract_get_pydantic_json_schema inner source_type
            annotations transform).
Proof.
  intros H Ht. unfold _apply_annotations.
  apply safe_bind; [|intros r; safe_tac].
  apply safe_wrap_handlers. apply safe_callback_handler.
  intros js. unfold inner_handler.
  apply safe_bind; [apply safe_from_property; exact H|].
  intros fp. apply safe_bind; [destruct fp; safe_tac|].
  intros s. apply safe_bind; [apply safe_add_metadata_js_function|].
  intros s1. safe_tac.
Qed.

Lemma safe_serializer_return_schema (gen : Ty -> M CoreSchema) (rt : ReturnType) :
  (forall t, rt = ReturnType_ t -> safe n (gen t)) ->
  safe n (serializer_return_schema gen rt).
Proof. intros H. unfold serializer_return_schema. destruct rt; safe_tac. Qed.

Lemma safe_field_serializers (gen : Ty -> M CoreSchema) (sers : list SerializerDecorator) :
  (forall t, In t (serializer_return_types sers) -> safe n (gen t)) ->
  forall s, safe n (_apply_field_serializers gen s sers).
Proof.
  intros H.
  assert (Hl : forall d, last_opt sers = Some d ->
                         safe n (serializer_return_schema gen (ser_return_type d))).
  { intros d Hd. apply safe_serializer_return_schema. intros t Ht. apply H.
    unfold serializer_return_types. apply in_flat_map. exists d.
    split; [apply last_opt_In; exact Hd | rewrite Ht; left; reflexivity]. }
  induction s; cbn [_apply_field_serializers];
    destruct (last_opt sers) as [d|] eqn:Ed; try apply safe_ret;
    try (apply safe_bind; [safe_tac|]; intros s0;
         apply safe_bind; [apply Hl; reflexivity|]; intros rs; safe_tac).
  apply safe_bind; [exact IHs | intro; safe_tac].
Qed.

Lemma safe_model_serializers (gen : Ty -> M CoreSchema) (sers : list SerializerDecorator)
    (s : CoreSchema) :
  (forall t, In t (serializer_return_types sers) -> safe n (gen t)) ->
  safe n (_apply_model_serializers gen s sers).
Proof.
  intros H. unfold _apply_model_serializers.
  apply safe_bind; [|intro; safe_tac].
  destruct (last_opt sers) as [d|] eqn:Ed; [|safe_tac].
  apply safe_bind; [|intro; safe_tac].
  apply safe_serializer_return_schema. intros t Ht. apply H.
  unfold serializer_return_types. apply in_flat_map. exists d.
  split; [apply last_opt_In; exact Ed | rewrite Ht; left; reflexivity].
Qed.

Lemma safe_common_field_schema (name : string) (field_info : FieldInfo) (c : ModelClass) :
  safe n (inner (annotation field_info)) ->
  (forall t, In t (serializer_return_types (field_serializers c)) -> safe n (inner t)) ->
  safe n (_common_field_schema get_type_ref apply_known_metadata expand_grouped_metadata
            apply_discriminator hash _extract_get_pydantic_json_schema inner name
            field_info c).
Proof.
  intros Ha Hs. unfold _common_field_schema.
  apply safe_bind.
  - apply safe_field_name_stack_push. unfold field_schema_cached.
    destruct (discriminator (fi_attrs field_info)).
    + apply safe_apply_annotations; [exact Ha | intro; apply safe_discriminator].
    + apply safe_bind; [apply safe_apply_annotations; [exact Ha | intro; safe_tac]|].
      intros _. apply safe_bind; [safe_tac|]. intros w.
      destruct (cache_key field_info).
      * destruct (cache_get _ _); [safe_tac|].
        apply safe_bind; [apply safe_apply_annotations; [exact Ha | intro; safe_tac]|].
        intros s. safe_tac.
      * apply safe_apply_annotations; [exact Ha | intro; safe_tac].
  - intros s. apply safe_bind; [apply safe_lift, each_item_returns|].
    intros e. apply safe_field_serializers.
    intros t Ht. apply safe_generate_schema_with. apply Hs.
    unfold serializer_return_types in *. apply in_flat_map in Ht.
    destruct Ht as (d & Hd & Ht). apply in_flat_map. exists d. split; [|exact Ht].
    unfold filter_field_serializers_by_field in Hd. apply filter_In in Hd. apply Hd.
Qed.

Lemma safe_model_fields (c : ModelClass) (fields : list (string * FieldInfo)) :
  (forall f, In f fields -> safe n (inner (annotation (snd f)))) ->
  (forall t, In t (serializer_return_types (field_serializers c)) -> safe n (inner t)) ->
  safe n (model_fields get_type_ref apply_known_metadata expand_grouped_metadata
            apply_discriminator hash _extract_get_pydantic_json_schema inner c fields).
Proof.
  intros Hf Hs. induction fields as [|[k v] r IH]; cbn [model_fields]; [safe_tac|].
  apply safe_bind.
  - apply safe_common_field_schema; [apply (Hf (k, v)); left; reflexivity | exact Hs].
  - intros s. apply safe_bind; [|intro; safe_tac].
    apply IH. intros f Hin. apply Hf. right. exact Hin.
Qed.

Lemma safe_build_model_schema (cls model_ref : string) :
  (forall t, ty_size t <= type_bound classes -> safe n (inner t)) ->
  safe n (build_model_schema get_type_ref classes apply_known_metadata
            expand_grouped_metadata apply_discriminator hash
            _extract_get_pydantic_json_schema inner cls model_ref).
Proof.
  intros H. unfold build_model_schema.
  destruct (dict_get classes cls) as [c|] eqn:Ec; [|safe_tac].
  assert (Hc : forall t, In t (class_types c) -> safe n (inner t)).
  { intros t Ht. apply H. unfold type_bound. apply list_max_In. apply in_map.
    apply in_flat_map. exists (cls, c). split; [apply dict_get_In; exact Ec | exact Ht]. }
  assert (Hfields : forall f, In f (pydantic_fields c) -> safe n (inner (annotation (snd f)))).
  { intros f Hf. apply Hc. unfold class_types. apply in_or_app. left.
    apply (in_map (fun f => annotation (snd f))). exact Hf. }
  assert (Hfs : forall t, In t (serializer_return_types (field_serializers c)) ->
                          safe n (inner t)).
  { intros t Ht. apply Hc. unfold class_types. apply in_or_app. right.
    apply in_or_app. left. exact Ht. }
  assert (Hms : forall t, In t (serializer_return_types (model_serializers c)) ->
                          safe n (generate_schema_with get_type_ref
                                    _extract_get_pydantic_json_schema inner t)).
  { intros t Ht. apply safe_generate_schema_with. apply Hc. unfold class_types.
    apply in_or_app. right. apply in_or_app. right. exact Ht. }
  apply safe_bind; [apply safe_lift, check_decorator_fields_returns|]. intros _.
  apply safe_config_wrapper_stack_push.
  apply safe_bind.
  - destruct (pydantic_root_model c).
    + destruct (dict_get (pydantic_fields c) "root") as [root|] eqn:Er; [|safe_tac].
      apply safe_bind.
      * apply safe_common_field_schema; [|exact Hfs].
        apply (Hfields ("root", root)). apply dict_get_In. exact Er.
      * intros s. apply safe_bind; [apply safe_lift, model_validators_returns|].
        intro; safe_tac.
    + apply safe_bind; [apply safe_model_fields; assumption|].
      intros fs. apply safe_bind; [apply safe_lift, model_validators_returns|].
      intro; safe_tac.
  - intros ms. apply safe_bind; [apply safe_model_serializers; exact Hms|].
    intros s. apply safe_bind; [apply safe_lift, model_validators_returns|].
    intros s1. safe_tac.
Qed.

Lemma safe_union_members (gen : Ty -> M CoreSchema) (args : list Ty) :
  (forall t, In t args -> safe n (gen t)) ->
  forall choices nullable, safe n (union_members gen args choices nullable).
Proof.
  intros H. induction args as [|a r IH]; intros choices nullable; [simpl; safe_tac|].
  assert (Hr : forall t, In t r -> safe n (gen t)) by (intros; apply H; right; assumption).
  assert (Ha : safe n (gen a)) by (apply H; left; reflexivity).
  destruct a; cbn [union_members]; try (apply IH; exact Hr);
    (apply safe_bind; [exact Ha | intros; apply IH; exact Hr]).
Qed.

End WithInner.

Lemma ty_size_pos (t : Ty) : 1 <= ty_size t.
Proof. destruct t; simpl; lia. Qed.

Lemma safe_model_schema (n : nat) (inner : Ty -> M CoreSchema) (cls : string) :
  (forall m, n = S m -> forall t, ty_size t <= type_bound classes -> safe m (inner t)) ->
  safe n (_model_schema get_type_ref classes apply_known_metadata expand_grouped_metadata
            apply_discriminator hash _extract_get_pydantic_json_schema inner cls).
Proof.
  intros H. unfold _model_schema.
  destruct (dict_get classes cls) as [c|] eqn:Ec.
  - assert (Hin : In (get_type_ref (TModel cls)) (model_refs get_type_ref classes)).
    { unfold model_refs. apply in_map_iff. exists (cls, c).
      split; [reflexivity | apply dict_get_In; exact Ec]. }
    destruct n as [|m].
    + apply safe_get_schema_or_ref_all_known; [exact Hin | simpl; safe_tac].
    + apply safe_get_schema_or_ref_model; [exact Hin | simpl; safe_tac |].
      simpl. apply safe_build_model_schema. apply H. reflexivity.
  - apply safe_get_schema_or_ref. intros p. destruct (snd p); [safe_tac|].
    unfold build_model_schema. rewrite Ec. safe_tac.
Qed.

Lemma safe_match_type (n : nat) (inner : Ty -> M CoreSchema) (obj : Ty) :
  (forall t, ty_size t < ty_size obj -> safe n (inner t)) ->
  safe n (match_type get_type_ref _extract_get_pydantic_json_schema inner obj).
Proof.
  intros H.
  assert (G : forall t, ty_size t < ty_size obj ->
                        safe n (generate_schema_with get_type_ref
                                  _extract_get_pydantic_json_schema inner t))
    by (intros; apply safe_generate_schema_with; auto).
  unfold match_type. destruct obj;
    try (solve [safe_tac]);
    try (solve [apply safe_bind; [apply G; simpl; lia | intro; safe_tac]]).
  - apply safe_bind; [apply G; simpl; lia|]. intros ks.
    apply safe_bind; [apply G; simpl; lia | intro; safe_tac].
  - unfold _union_schema. destruct args as [|a r]; [safe_tac|].
    apply safe_bind; [|intro; safe_tac].
    apply safe_union_members. intros t Ht. apply G. apply union_arg_smaller. exact Ht.
Qed.

Lemma safe_inner_body (n : nat) (inner : Ty -> M CoreSchema) (obj : Ty) :
  (forall t, ty_size t < ty_size obj -> safe n (inner t)) ->
  (forall m, n = S m -> forall t, ty_size t <= type_bound classes -> safe m (inner t)) ->
  safe n (_generate_schema_inner_body get_type_ref classes apply_known_metadata
            expand_grouped_metadata apply_discriminator hash
            _extract_get_pydantic_json_schema inner obj).
Proof.
  intros H1 H2.
  destruct obj; cbn [_generate_schema_inner_body];
    try (apply safe_match_type; exact H1).
  - apply safe_model_type_stack_push. apply safe_model_schema. exact H2.
  - unfold _annotated_schema. apply safe_bind; [|intro; safe_tac].
    apply safe_apply_annotations; [apply H1; simpl; lia | intro; safe_tac].
  - safe_tac.
Qed.

Lemma safe_generate_schema_inner (fuel : nat) :
  forall n obj,
    ty_size obj + n * (type_bound classes + 2) < fuel ->
    safe n (_generate_schema_inner get_type_ref classes apply_known_metadata
              expand_grouped_metadata apply_discriminator hash
              _extract_get_pydantic_json_schema fuel obj).
Proof.
  induction fuel as [|fuel IH]; intros n obj Hf; [lia|].
  cbn [_generate_schema_inner]. apply safe_inner_body.
  - intros t Ht. apply IH. lia.
  - intros m -> t Ht. apply IH. pose proof (ty_size_pos obj). simpl in Hf. lia.
Qed.

Lemma generate_schema_returns (obj : Ty) (w : World) (fuel : nat) :
  enough_fuel classes obj <= fuel ->
  fst (generate_schema get_type_ref classes apply_known_metadata expand_grouped_metadata
         apply_discriminator hash _extract_get_pydantic_json_schema fuel obj w)
  <> Timeout.
Proof.
  intros Hf. unfold generate_schema.
  assert (S : safe (List.length classes)
                (generate_schema_with get_type_ref _extract_get_pydantic_json_schema
                   (_generate_schema_inner get_type_ref classes apply_known_metadata
                      expand_grouped_metadata apply_discriminator hash
                      _extract_get_pydantic_json_schema fuel) obj)).
  { apply safe_generate_schema_with. apply safe_generate_schema_inner.
    unfold enough_fuel in Hf. lia. }
  specialize (S w (unseen_le_classes get_type_ref classes w)). unfold settles in S.
  destruct (generate_schema_with _ _ _ obj w) as [[s| e |] w1]; simpl;
    [discriminate | discriminate | contradiction].
Qed.

Lemma try_finally_ok (A : Type) (body : M A) (cleanup : World -> World) (w w' : World)
    (a : A) :
  try_finally body cleanup w = (Ok a, w') ->
  exists w1, body w = (Ok a, w1) /\ w' = cleanup w1.
Proof.
  unfold try_finally. destruct (body w) as [o w1]. intros H. inversion H; subst.
  exists w1. split; reflexivity.
Qed.

Lemma model_schema_defines (inner : Ty -> M CoreSchema) (cls : string) (w w' : World)
    (s : CoreSchema) :
  _model_schema get_type_ref classes apply_known_metadata expand_grouped_metadata
    apply_discriminator hash _extract_get_pydantic_json_schema inner cls w = (Ok s, w') ->
  s = definition_reference_schema (get_type_ref (TModel cls))
  /\ (known w (get_type_ref (TModel cls)) = false ->
      dict_mem (definitions (defs (self w'))) (get_type_ref (TModel cls)) = true).
Proof.
  unfold _model_schema, get_schema_or_ref.
  destruct (known w (get_type_ref (TModel cls))) eqn:Ek; cbn [fst snd].
  - intros H. inversion H. split; [reflexivity | discriminate].
  - intros H. apply try_finally_ok in H. destruct H as (w1 & H & ->).
    unfold build_model_schema in H.
    destruct (dict_get classes cls) as [c|]; [|discriminate H].
    bind_inv H. unfold config_wrapper_stack_push in H.
    apply try_finally_ok in H. destruct H as (w2 & H & ->).
    bind_inv H. bind_inv H. bind_inv H. bind_inv H.
    inversion H; subst. clear H.
    split; [reflexivity|]. intros _.
    unfold definitions_set, modify_self in H4. inversion H4; subst. simpl.
    apply dict_mem_set_same.
Qed.


End GeneratorSafety.

Lemma sample_apply_discriminator_returns (s : CoreSchema) (d : string) :
  Sample.apply_discriminator s d <> Timeout.
Proof. destruct s; discriminate. Qed.


(** ** What a run of the generator keeps *)

Lemma kept_always_refl (w : World) : kept_always w w.
Proof. repeat split; auto. Qed.

Lemma kept_on_return_refl (w : World) : kept_on_return w w.
Proof. split; [apply kept_always_refl | split; reflexivity]. Qed.

Lemma kept_always_trans (w1 w2 w3 : World) :
  kept_always w1 w2 -> kept_always w2 w3 -> kept_always w1 w3.
Proof.
  intros (S1 & C1 & D1 & K1) (S2 & C2 & D2 & K2).
  split; [congruence | split; [congruence | split]].
  - intros r H. apply D2, D1, H.
  - intros k v H. apply K2, K1, H.
Qed.

Lemma kept_on_return_trans (w1 w2 w3 : World) :
  kept_on_return w1 w2 -> kept_on_return w2 w3 -> kept_on_return w1 w3.
Proof.
  intros (A1 & F1 & M1) (A2 & F2 & M2).
  split; [eapply kept_always_trans; eassumption | split; congruence].
Qed.

Lemma set_add_fresh (r : string) (l : set string) :
  set_mem string_dec r l = false -> set_add string_dec r l = l ++ [r].
Proof.
  induction l as [|x l IH]; simpl; [reflexivity|].
  destruct (string_dec r x) as [->|Hn]; [discriminate|].
  intros H. rewrite IH by exact H. reflexivity.
Qed.

Lemma set_remove_fresh (r : string) (l : set string) :
  set_mem string_dec r l = false -> set_remove string_dec r (l ++ [r]) = l.
Proof.
  induction l as [|x l IH]; simpl.
  - intros _. destruct (string_dec r r); [reflexivity | congruence].
  - destruct (string_dec r x) as [->|Hn]; [discriminate|].
    intros H. rewrite IH by exact H. reflexivity.
Qed.

Lemma cache_setdefault_keeps (c : list (Z * CoreSchema)) (k k' : Z) (v v' : CoreSchema) :
  cache_get c k = Some v -> cache_get (cache_setdefault c k' v') k = Some v.
Proof.
  intros H. unfold cache_setdefault. destruct (cache_get c k'); [exact H|].
  induction c as [|[k0 v0] r IH]; [discriminate H|].
  simpl in *. destruct (Z.eq_dec k k0); [exact H | auto].
Qed.

Lemma keeps_ret (A : Type) (a : A) : Keeps (ret a).
Proof. intros w. apply kept_on_return_refl. Qed.

Lemma keeps_raise (A : Type) (e : Exn) : Keeps (@raise A e).
Proof. intros w. apply kept_always_refl. Qed.

Lemma keeps_timeout (A : Type) : Keeps (@timeout A).
Proof. intros w. apply kept_always_refl. Qed.

(** A computation that leaves the state as it is. *)
Lemma keeps_frame (A : Type) (m : M A) : (forall w, snd (m w) = w) -> Keeps m.
Proof.
  intros H w. specialize (H w). destruct (m w) as [[a| e |] w1]; simpl in H; subst;
    [apply kept_on_return_refl | apply kept_always_refl | apply kept_always_refl].
Qed.

Lemma keeps_lift (A : Type) (o : Outcome A) : Keeps (lift o).
Proof. apply keeps_frame. reflexivity. Qed.

Lemma keeps_bind (A B : Type) (m : M A) (k : A -> M B) :
  Keeps m -> (forall a, Keeps (k a)) -> Keeps (bind m k).
Proof.
  intros Hm Hk w. specialize (Hm w). unfold bind.
  destruct (m w) as [[a| e |] w1]; [| exact Hm | exact Hm].
  specialize (Hk a w1). destruct (k a w1) as [[b| e |] w2].
  - eapply kept_on_return_trans; eassumption.
  - eapply kept_always_trans; [apply Hm | exact Hk].
  - eapply kept_always_trans; [apply Hm | exact Hk].
Qed.

Lemma keeps_definitions_set (r : string) (s : CoreSchema) : Keeps (definitions_set r s).
Proof.
  intros w. unfold definitions_set, modify_self.
  split; [|split; reflexivity].
  split; [reflexivity | split; [reflexivity | split]].
  - intros r' H. simpl. apply dict_mem_set. exact H.
  - intros k v H. exact H.
Qed.

Lemma keeps_cache_setdefault (k : Z) (s : CoreSchema) : Keeps (schema_cache_setdefault k s).
Proof.
  intros w. unfold schema_cache_setdefault.
  split; [|split; reflexivity].
  split; [reflexivity | split; [reflexivity | split]].
  - intros r H. exact H.
  - intros k' v H. simpl. apply cache_setdefault_keeps. exact H.
Qed.

Lemma keeps_field_name_stack_push (A : Type) (name : string) (body : M A) :
  Keeps body -> Keeps (field_name_stack_push name body).
Proof.
  intros Hb w. unfold field_name_stack_push, enter_yield_leave.
  specialize (Hb (set_field_name_stack (field_name_stack (self w) ++ [name]) w)).
  destruct (body _) as [[a| e |] w1]; [| exact Hb | exact Hb].
  destruct Hb as (Ha & Hf & Hm). simpl in Hf, Hm.
  split; [exact Ha | split; simpl; [|exact Hm]].
  rewrite Hf. apply removelast_last.
Qed.

Lemma keeps_model_type_stack_push (A : Type) (cls : string) (body : M A) :
  Keeps body -> Keeps (model_type_stack_push cls body).
Proof.
  intros Hb w. unfold model_type_stack_push, enter_yield_leave.
  specialize (Hb (set_model_type_stack (model_type_stack (self w) ++ [cls]) w)).
  destruct (body _) as [[a| e |] w1]; [| exact Hb | exact Hb].
  destruct Hb as (Ha & Hf & Hm). simpl in Hf, Hm.
  split; [exact Ha | split; simpl; [exact Hf|]].
  rewrite Hm. apply removelast_last.
Qed.

Lemma keeps_config_wrapper_stack_push (A : Type) (c : ConfigWrapper) (body : M A) :
  Keeps body -> Keeps (config_wrapper_stack_push c body).
Proof.
  intros Hb w. unfold config_wrapper_stack_push, try_finally.
  specialize (Hb (set_config_wrapper_stack (_config_wrapper_stack (self w) ++ [c]) w)).
  assert (G : forall w1,
             kept_always (set_config_wrapper_stack (_config_wrapper_stack (self w) ++ [c]) w)
               w1 ->
             kept_always w
               (set_config_wrapper_stack (removelast (_config_wrapper_stack (self w1))) w1)).
  { intros w1 (S1 & C1 & D1 & K1). simpl in *.
    split; [exact S1 | split; [|split; assumption]].
    simpl. rewrite C1. apply removelast_last. }
  destruct (body _) as [[a| e |] w1]; [| apply G, Hb | apply G, Hb].
  destruct Hb as (Ha & Hf & Hm). split; [apply G, Ha | split; assumption].
Qed.

Lemma keeps_get_schema_or_ref (A : Type) (r : string)
    (body : string * option CoreSchema -> M A) :
  (forall p, Keeps (body p)) -> Keeps (get_schema_or_ref r body).
Proof.
  intros Hb w. unfold get_schema_or_ref.
  destruct (known w r) eqn:Ek; [apply Hb|].
  unfold try_finally. specialize (Hb (r, None) (seen_add r w)).
  assert (Hs : set_mem string_dec r (seen (defs (self w))) = false)
    by (unfold known in Ek; apply orb_false_iff in Ek; apply Ek).
  assert (G : forall w1, kept_always (seen_add r w) w1 -> kept_always w (seen_discard r w1)).
  { intros w1 (S1 & C1 & D1 & K1). simpl in *.
    split; [|split; [exact C1 | split; assumption]].
    simpl. rewrite S1, set_add_fresh by exact Hs. apply set_remove_fresh. exact Hs. }
  destruct (body (r, None) (seen_add r w)) as [[a| e |] w1]; [| apply G, Hb | apply G, Hb].
  destruct Hb as (Ha & Hf & Hm). split; [apply G, Ha | split; assumption].
Qed.

Section GeneratorKeeps.

Variable get_type_ref : Ty -> string.
Variable classes : list (string * ModelClass).
Variable apply_known_metadata : Annotation -> CoreSchema -> option CoreSchema.
Variable expand_grouped_metadata : list Annotation -> list Annotation.
Variable apply_discriminator : CoreSchema -> string -> Outcome CoreSchema.
Variable hash : Z -> bool -> Z.
Variable _extract_get_pydantic_json_schema : Ty -> option Callable.

Ltac keeps_step :=
  match goal with
  | |- Keeps (bind _ _) => apply keeps_bind; [| intro]
  | |- Keeps (ret _) => apply keeps_ret
  | |- Keeps (raise _) => apply keeps_raise
  | |- Keeps (lift _) => apply keeps_lift
  | |- Keeps (definitions_set _ _) => apply keeps_definitions_set
  | |- Keeps (schema_cache_setdefault _ _) => apply keeps_cache_setdefault
  | |- Keeps get_definitions => apply keeps_frame; reflexivity
  | |- Keeps get_world => apply keeps_frame; reflexivity
  | |- Keeps handler_field_name => apply keeps_frame; reflexivity
  | |- Keeps (field_name_stack_push _ _) => apply keeps_field_name_stack_push
  | |- Keeps (model_type_stack_push _ _) => apply keeps_model_type_stack_push
  | |- Keeps (config_wrapper_stack_push _ _) => apply keeps_config_wrapper_stack_push
  | |- Keeps (let (_, _) := ?x in _) => destruct x
  | |- Keeps (match ?x with _ => _ end) => destruct x
  | |- Keeps (if ?x then _ else _) => destruct x
  end.

Ltac keeps_tac := repeat keeps_step; auto.

Lemma keeps_discriminator (s : CoreSchema) (d : option string) :
  Keeps (_apply_discriminator_to_union apply_discriminator s d).
Proof. apply keeps_frame. intros w. apply discriminator_frame. Qed.

Lemma keeps_single_annotation (md : Annotation) (s : CoreSchema) :
  Keeps (_apply_single_annotation apply_known_metadata apply_discriminator md s).
Proof. apply keeps_frame. intros w. apply single_annotation_frame. Qed.

Lemma keeps_resolve_by_ref_mode (ref_mode : RefMode) (s : CoreSchema) :
  Keeps (resolve_by_ref_mode ref_mode s).
Proof. unfold resolve_by_ref_mode. destruct ref_mode; keeps_tac. Qed.

Lemma keeps_callback_handler (h : Handler) (ref_mode : RefMode) (source : Ty) :
  (forall js, Keeps (h source js)) ->
  forall js, Keeps (CallbackGetCoreSchemaHandler h ref_mode source js).
Proof.
  intros H js. unfold CallbackGetCoreSchemaHandler. keeps_tac.
  apply keeps_resolve_by_ref_mode.
Qed.

Lemma keeps_new_handler (h : Handler) (a : Annotation) (source : Ty) :
  (forall js, Keeps (h source js)) ->
  forall js, Keeps (new_handler apply_known_metadata apply_discriminator h a source js).
Proof.
  intros H js. unfold new_handler.
  apply keeps_bind.
  - keeps_tac.
  - intros r. apply keeps_bind; [apply keeps_single_annotation|]. intros s. keeps_tac.
Qed.

Lemma keeps_wrap_handlers (source : Ty) (anns : list Annotation) :
  forall h,
    (forall js, Keeps (h source js)) ->
    forall js, Keeps (wrap_handlers apply_known_metadata apply_discriminator h anns source js).
Proof.
  induction anns as [|a rest IH]; intros h H js; [apply H|].
  assert (Hw : forall js0,
             Keeps (_get_wrapped_inner_schema apply_known_metadata apply_discriminator
                      h a source js0)).
  { unfold _get_wrapped_inner_schema. apply keeps_callback_handler.
    apply keeps_new_handler. exact H. }
  destruct a; cbn [wrap_handlers]; apply IH; assumption.
Qed.

Lemma keeps_add_metadata_js_function (obj : Ty) (s : CoreSchema) :
  Keeps (add_metadata_js_function _extract_get_pydantic_json_schema obj s).
Proof. unfold add_metadata_js_function, add_js_function_to_original. keeps_tac. Qed.

Lemma keeps_store_definitions (l : list CoreSchema) : Keeps (store_definitions l).
Proof. induction l as [|s r IH]; simpl; keeps_tac. Qed.

Lemma keeps_register_hook_schema (s : CoreSchema) : Keeps (register_hook_schema s).
Proof.
  unfold register_hook_schema. apply keeps_bind.
  - unfold _unpack_refs_defs. keeps_tac. apply keeps_store_definitions.
  - intros s0. keeps_tac.
Qed.

Lemma keeps_resolve_self_type : Keeps _resolve_self_type.
Proof.
  apply keeps_frame. intros w. unfold _resolve_self_type.
  destruct (model_type_stack_get w); reflexivity.
Qed.

Section WithInner.

Variable inner : Ty -> M CoreSchema.
Hypothesis inner_keeps : forall t, Keeps (inner t).

Lemma keeps_from_property (obj source : Ty) (same : bool) :
  Keeps (_generate_schema_from_property get_type_ref inner obj source same).
Proof.
  unfold _generate_schema_from_property.
  apply keeps_bind.
  - destruct obj; keeps_tac; apply keeps_resolve_self_type.
  - intros resolved. apply keeps_bind.
    + apply keeps_get_schema_or_ref. intros p. keeps_tac.
    + intros maybe. destruct maybe; [keeps_tac|].
      destruct (fst resolved); keeps_tac.
      * apply keeps_callback_handler. intros js. keeps_tac.
      * apply keeps_register_hook_schema.
Qed.

Lemma keeps_generate_schema_with (obj : Ty) :
  Keeps (generate_schema_with get_type_ref _extract_get_pydantic_json_schema inner obj).
Proof.
  unfold generate_schema_with.
  apply keeps_bind; [apply keeps_from_property|].
  intros fp. apply keeps_bind; [destruct fp; keeps_tac|].
  intros s. apply keeps_add_metadata_js_function.
Qed.

Lemma keeps_apply_annotations (source_type : Ty) (annotations : list Annotation)
    (transform : CoreSchema -> M CoreSchema) :
  (forall s, Keeps (transform s)) ->
  Keeps (_apply_annotations get_type_ref apply_known_metadata expand_grouped_metadata
           apply_discriminator _extract_get_pydantic_json_schema inner source_type
           annotations transform).
Proof.
  intros Ht. unfold _apply_annotations.
  apply keeps_bind; [|intro; keeps_tac].
  apply keeps_wrap_handlers. apply keeps_callback_handler.
  intros js. unfold inner_handler.
  apply keeps_bind; [apply keeps_from_property|].
  intros fp. apply keeps_bind; [destruct fp; keeps_tac|].
  intros s. apply keeps_bind; [apply keeps_add_metadata_js_function|].
  intros s1. keeps_tac.
Qed.

Lemma keeps_serializer_return_schema (gen : Ty -> M CoreSchema) (rt : ReturnType) :
  (forall t, Keeps (gen t)) -> Keeps (serializer_return_schema gen rt).
Proof. intros H. unfold serializer_return_schema. destruct rt; keeps_tac. Qed.

Lemma keeps_field_serializers (gen : Ty -> M CoreSchema) (sers : list SerializerDecorator) :
  (forall t, Keeps (gen t)) ->
  forall s, Keeps (_apply_field_serializers gen s sers).
Proof.
  intros H.
  induction s; cbn [_apply_field_serializers];
    destruct (last_opt sers) as [d|] eqn:Ed; try apply keeps_ret;
    try (apply keeps_bind; [keeps_tac|]; intros s0;
         apply keeps_bind; [apply keeps_serializer_return_schema; exact H|]; intros rs;
         keeps_tac).
  apply keeps_bind; [exact IHs | intro; keeps_tac].
Qed.

Lemma keeps_model_serializers (gen : Ty -> M CoreSchema) (sers : list SerializerDecorator)
    (s : CoreSchema) :
  (forall t, Keeps (gen t)) -> Keeps (_apply_model_serializers gen s sers).
Proof.
  intros H. unfold _apply_model_serializers.
  apply keeps_bind; [|intro; keeps_tac].
  destruct (last_opt sers) as [d|]; [|keeps_tac].
  apply keeps_bind; [|intro; keeps_tac].
  apply keeps_serializer_return_schema. exact H.
Qed.

Lemma keeps_common_field_schema (name : string) (field_info : FieldInfo) (c : ModelClass) :
  Keeps (_common_field_schema get_type_ref apply_known_metadata expand_grouped_metadata
           apply_discriminator hash _extract_get_pydantic_json_schema inner name
           field_info c).
Proof.
  unfold _common_field_schema.
  apply keeps_bind.
  - apply keeps_field_name_stack_push. unfold field_schema_cached.
    destruct (discriminator (fi_attrs field_info)).
    + apply keeps_apply_annotations. intro. apply keeps_discriminator.
    + apply keeps_bind; [apply keeps_apply_annotations; intro; keeps_tac|].
      intros _. apply keeps_bind; [keeps_tac|]. intros w.
      destruct (cache_key field_info).
      * destruct (cache_get _ _); [keeps_tac|].
        apply keeps_bind; [apply keeps_apply_annotations; intro; keeps_tac|].
        intros s. keeps_tac.
      * apply keeps_apply_annotations. intro. keeps_tac.
  - intros s. apply keeps_bind; [apply keeps_lift|].
    intros e. apply keeps_field_serializers.
    intros t. apply keeps_generate_schema_with.
Qed.

Lemma keeps_model_fields (c : ModelClass) (fields : list (string * FieldInfo)) :
  Keeps (model_fields get_type_ref apply_known_metadata expand_grouped_metadata
           apply_discriminator hash _extract_get_pydantic_json_schema inner c fields).
Proof.
  induction fields as [|[k v] r IH]; cbn [model_fields]; [keeps_tac|].
  apply keeps_bind; [apply keeps_common_field_schema|].
  intros s. apply keeps_bind; [exact IH | intro; keeps_tac].
Qed.

Lemma keeps_build_model_schema (cls model_ref : string) :
  Keeps (build_model_schema get_type_ref classes apply_known_metadata
           expand_grouped_metadata apply_discriminator hash
           _extract_get_pydantic_json_schema inner cls model_ref).
Proof.
  unfold build_model_schema.
  destruct (dict_get classes cls) as [c|]; [|keeps_tac].
  apply keeps_bind; [apply keeps_lift|]. intros _.
  apply keeps_config_wrapper_stack_push.
  apply keeps_bind.
  - destruct (pydantic_root_model c).
    + destruct (dict_get (pydantic_fields c) "root") as [root|]; [|keeps_tac].
      apply keeps_bind; [apply keeps_common_field_schema|].
      intros s. apply keeps_bind; [apply keeps_lift | intro; keeps_tac].
    + apply keeps_bind; [apply keeps_model_fields|].
      intros fs. apply keeps_bind; [apply keeps_lift | intro; keeps_tac].
  - intros ms. apply keeps_bind.
    + apply keeps_model_serializers. intros t. apply keeps_generate_schema_with.
    + intros s. apply keeps_bind; [apply keeps_lift|]. intros s1. keeps_tac.
Qed.

Lemma keeps_union_members (gen : Ty -> M CoreSchema) (args : list Ty) :
  (forall t, Keeps (gen t)) ->
  forall choices nullable, Keeps (union_members gen args choices nullable).
Proof.
  intros H. induction args as [|a r IH]; intros choices nullable; [simpl; keeps_tac|].
  destruct a; cbn [union_members]; try apply IH;
    (apply keeps_bind; [apply H | intro; apply IH]).
Qed.

Lemma keeps_inner_body (obj : Ty) :
  Keeps (_generate_schema_inner_body get_type_ref classes apply_known_metadata
           expand_grouped_metadata apply_discriminator hash
           _extract_get_pydantic_json_schema inner obj).
Proof.
  assert (G : forall t, Keeps (generate_schema_with get_type_ref
                                 _extract_get_pydantic_json_schema inner t))
    by apply keeps_generate_schema_with.
  destruct obj; cbn [_generate_schema_inner_body]; unfold match_type;
    try (solve [keeps_tac]).
  - unfold _union_schema. destruct args; [keeps_tac|].
    apply keeps_bind; [apply keeps_union_members; exact G | intro; keeps_tac].
  - apply keeps_model_type_stack_push. unfold _model_schema.
    apply keeps_get_schema_or_ref. intros p.
    destruct (snd p); [keeps_tac | apply keeps_build_model_schema].
  - unfold _annotated_schema. apply keeps_bind; [|intro; keeps_tac].
    apply keeps_apply_annotations. intro. keeps_tac.
Qed.

End WithInner.

Lemma keeps_generate_schema_inner (fuel : nat) :
  forall obj,
    Keeps (_generate_schema_inner get_type_ref classes apply_known_metadata
             expand_grouped_metadata apply_discriminator hash
             _extract_get_pydantic_json_schema fuel obj).
Proof.
  induction fuel as [|fuel IH]; intros obj; [apply keeps_timeout|].
  cbn [_generate_schema_inner]. apply keeps_inner_body. exact IH.
Qed.

Lemma keeps_generate_schema (fuel : nat) (obj : Ty) :
  Keeps (generate_schema get_type_ref classes apply_known_metadata expand_grouped_metadata
           apply_discriminator hash _extract_get_pydantic_json_schema fuel obj).
Proof.
  unfold generate_schema. apply keeps_generate_schema_with.
  apply keeps_generate_schema_inner.
Qed.

End GeneratorKeeps.

(** ** Invariants of a run of [generate_schema] *)

Lemma dict_get_set_same (A : Type) (d : list (string * A)) (k : string) (v : A) :
  dict_get (dict_set d k v) k = Some v.
Proof.
  induction d as [|[k0 v0] r IH]; simpl.
  - destruct (string_dec k k); [reflexivity | congruence].
  - destruct (string_dec k k0) as [->|Hn]; simpl.
    + destruct (string_dec k0 k0); [reflexivity | congruence].
    + destruct (string_dec k k0); [congruence | exact IH].
Qed.

Lemma dict_get_set_other (A : Type) (d : list (string * A)) (k k' : string) (v : A) :
  k' <> k -> dict_get (dict_set d k v) k' = dict_get d k'.
Proof.
  intros Hn. induction d as [|[k0 v0] r IH]; simpl.
  - destruct (string_dec k' k); [congruence | reflexivity].
  - destruct (string_dec k k0) as [->|Hk]; simpl.
    + destruct (string_dec k' k0); [congruence | reflexivity].
    + destruct (string_dec k' k0); [reflexivity | exact IH].
Qed.

Lemma dict_set_set (A : Type) (d : list (string * A)) (k : string) (v v' : A) :
  dict_set (dict_set d k v) k v' = dict_set d k v'.
Proof.
  induction d as [|[k0 v0] r IH]; simpl.
  - destruct (string_dec k k); [reflexivity | congruence].
  - destruct (string_dec k k0) as [->|Hn]; simpl.
    + destruct (string_dec k0 k0); [reflexivity | congruence].
    + destruct (string_dec k k0); [congruence | rewrite IH; reflexivity].
Qed.

Lemma get_metadata_set_metadata (s : CoreSchema) (m : CoreMetadata) :
  get_metadata (set_metadata s m) = m.
Proof. unfold get_metadata, set_metadata. rewrite slots_set_slots. reflexivity. Qed.

Lemma add_js_function_present (s : CoreSchema) (f : Callable) :
  In f (pydantic_js_functions (get_metadata (add_js_function s f))).
Proof.
  unfold add_js_function.
  destruct (in_dec Nat.eq_dec f (pydantic_js_functions (get_metadata s))) as [H|H];
    [exact H|].
  rewrite get_metadata_set_metadata. simpl. apply in_or_app. right. left. reflexivity.
Qed.

Lemma add_js_function_idempotent (s : CoreSchema) (f : Callable) :
  add_js_function (add_js_function s f) f = add_js_function s f.
Proof.
  pose proof (add_js_function_present s f) as H.
  unfold add_js_function at 1.
  destruct (in_dec Nat.eq_dec f
              (pydantic_js_functions (get_metadata (add_js_function s f))));
    [reflexivity | contradiction].
Qed.

(** X7. [_add_js_function] never inserts a duplicate: a list of JSON-schema
    functions without repetition stays so, the function is in the list
    afterwards, the functions that were there stay in their order at the
    front, and adding the same function again changes nothing. *)
Theorem add_js_function_keeps_functions_unique :
  forall (s : CoreSchema) (f : Callable),
    NoDup (pydantic_js_functions (get_metadata s)) ->
    NoDup (pydantic_js_functions (get_metadata (add_js_function s f)))
    /\ In f (pydantic_js_functions (get_metadata (add_js_function s f)))
    /\ (exists added,
           pydantic_js_functions (get_metadata (add_js_function s f))
           = pydantic_js_functions (get_metadata s) ++ added)
    /\ add_js_function (add_js_function s f) f = add_js_function s f.
Proof.
  intros s f Hn.
  split; [|split; [apply add_js_function_present | split;
    [|apply add_js_function_idempotent]]].
  - unfold add_js_function.
    destruct (in_dec Nat.eq_dec f (pydantic_js_functions (get_metadata s))) as [H|H];
      [exact Hn|].
    rewrite get_metadata_set_metadata. simpl.
    apply NoDup_app; [exact Hn | constructor; [intros [] | constructor] |].
    intros x Hx [<- | []]. contradiction.
  - unfold add_js_function.
    destruct (in_dec Nat.eq_dec f (pydantic_js_functions (get_metadata s))) as [H|H].
    + exists []. rewrite app_nil_r. reflexivity.
    + exists [f]. rewrite get_metadata_set_metadata. reflexivity.
Qed.

Lemma add_js_function_keeps_functions_unique_witness :
  NoDup (pydantic_js_functions (get_metadata (add_js_function int_schema 7)))
  /\ In 7 (pydantic_js_functions (get_metadata (add_js_function int_schema 7)))
  /\ (exists added,
         pydantic_js_functions (get_metadata (add_js_function int_schema 7))
         = pydantic_js_functions (get_metadata int_schema) ++ added)
  /\ add_js_function (add_js_function int_schema 7) 7 = add_js_function int_schema 7.
Proof.
  apply (add_js_function_keeps_functions_unique int_schema 7). simpl. constructor.
Defined.

Section RunInvariants.

Variable get_type_ref : Ty -> string.
Variable classes : list (string * ModelClass).
Variable apply_known_metadata : Annotation -> CoreSchema -> option CoreSchema.
Variable expand_grouped_metadata : list Annotation -> list Annotation.
Variable apply_discriminator : CoreSchema -> string -> Outcome CoreSchema.
Variable hash : Z -> bool -> Z.
Variable _extract_get_pydantic_json_schema : Ty -> option Callable.

Local Abbreviation run :=
  (generate_schema get_type_ref classes apply_known_metadata expand_grouped_metadata
     apply_discriminator hash _extract_get_pydantic_json_schema).

Lemma run_kept_always (fuel : nat) (obj : Ty) (w : World) :
  kept_always w (snd (run fuel obj w)).
Proof.
  pose proof (keeps_generate_schema get_type_ref classes apply_known_metadata
                expand_grouped_metadata apply_discriminator hash
                _extract_get_pydantic_json_schema fuel obj w) as H.
  destruct (run fuel obj w) as [[s| e |] w1]; simpl; [apply H | exact H | exact H].
Qed.

(** X1. However a run of [generate_schema] ends, with a schema, with an
    exception or out of nested calls, the set of refs in progress is what it
    was before the run: every ref the run marked has been released. *)
Theorem in_progress_refs_are_released :
  forall fuel obj w,
    seen (defs (self (snd (generate_schema get_type_ref classes apply_known_metadata
                             expand_grouped_metadata apply_discriminator hash
                             _extract_get_pydantic_json_schema fuel obj w)))) = seen (defs (self w)).
Proof. intros fuel obj w. apply (run_kept_always fuel obj w). Qed.

(** X2. When [generate_schema] returns a schema, the field-name stack and
    the model-type stack are what they were before the call. *)
Theorem context_stacks_are_restored_on_return :
  forall fuel obj w s w',
    generate_schema get_type_ref classes apply_known_metadata expand_grouped_metadata
      apply_discriminator hash _extract_get_pydantic_json_schema fuel obj w = (Ok s, w') ->
    field_name_stack (self w') = field_name_stack (self w)
    /\ model_type_stack (self w') = model_type_stack (self w).
Proof.
  intros fuel obj w s w' H.
  pose proof (keeps_generate_schema get_type_ref classes apply_known_metadata
                expand_grouped_metadata apply_discriminator hash
                _extract_get_pydantic_json_schema fuel obj w) as K.
  rewrite H in K. destruct K as (_ & Hf & Hm). split; assumption.
Qed.

(** X3. A run of [generate_schema] never takes a definition out of the
    table: a ref defined before the run is defined after it, however the run
    ends. *)
Theorem definitions_are_never_dropped :
  forall fuel obj w r,
    dict_mem (definitions (defs (self w))) r = true ->
    dict_mem (definitions (defs (self (snd (run fuel obj w))))) r = true.
Proof.
  intros fuel obj w r H.
  destruct (run_kept_always fuel obj w) as (_ & _ & D & _). apply D. exact H.
Qed.



Lemma from_property_of_known (inner : Ty -> M CoreSchema) (obj : Ty) (w : World) :
  is_self obj = false ->
  known w (get_type_ref obj) = true ->
  _generate_schema_from_property get_type_ref inner obj obj true w
  = (Ok (Some (definition_reference_schema (get_type_ref obj))), w).
Proof.
  intros Hs Hk. unfold _generate_schema_from_property.
  assert (E : forall k : Ty * bool -> M (option CoreSchema),
             bind (match obj with
                   | TSelf => bind _resolve_self_type (fun o => ret (o, false))
                   | _ => ret (obj, true)
                   end) k w = k (obj, true) w)
    by (intros k; destruct obj; try discriminate Hs; reflexivity).
  rewrite E. cbn [fst snd].
  unfold bind at 1. unfold get_schema_or_ref. rewrite Hk. reflexivity.
Qed.



End RunInvariants.

Lemma context_stacks_are_restored_on_return_witness :
  field_name_stack (self (snd (Sample.generate 10 (TModel "Node") Sample.fresh)))
  = field_name_stack (self Sample.fresh)
  /\ model_type_stack (self (snd (Sample.generate 10 (TModel "Node") Sample.fresh)))
     = model_type_stack (self Sample.fresh).
Proof.
  apply (context_stacks_are_restored_on_return Sample.type_ref Sample.classes
           Sample.apply_known_metadata Sample.expand_grouped_metadata
           Sample.apply_discriminator Sample.hash Sample.json_schema_of
           10 (TModel "Node") Sample.fresh
           (s := definition_reference_schema "Node")).
  vm_compute. reflexivity.
Defined.

Lemma definitions_are_never_dropped_witness :
  dict_mem
    (definitions (defs (self (snd (Sample.generate 10 (TModel "B") Sample.after_Node)))))
    "Node" = true.
Proof.
  apply (definitions_are_never_dropped Sample.type_ref Sample.classes
           Sample.apply_known_metadata Sample.expand_grouped_metadata
           Sample.apply_discriminator Sample.hash Sample.json_schema_of
           10 (TModel "B") Sample.after_Node "Node").
  vm_compute. reflexivity.
Defined.




(** ** More on validators *)

Lemma apply_validators_concat (l1 l2 : list Decorator) (s : CoreSchema)
    (fn : option string) :
  apply_validators s (l1 ++ l2) fn = apply_validators (apply_validators s l1 fn) l2 fn.
Proof. revert s. induction l1 as [|v r IH]; intros s; simpl; [reflexivity | apply IH]. Qed.

(** X8. In [apply_validators] a 'plain' validator replaces what was built so
    far: the result does not depend on the schema passed in nor on the
    validators that come before the plain one, only on the plain validator
    and those after it. *)
Theorem plain_validator_replaces_the_schema :
  forall (before_ after_ : list Decorator) (p : Decorator) (s : CoreSchema)
         (fn : option string),
    dec_mode p = Plain ->
    apply_validators s (before_ ++ p :: after_) fn
    = apply_validators
        (FunctionSchema Plain (info_arg p) (func p) None
           (if info_arg p then fn else None) no_slots)
        after_ fn.
Proof.
  intros before_ after_ p s fn Hp.
  rewrite apply_validators_concat. cbn [apply_validators]. rewrite Hp.
  destruct (info_arg p); reflexivity.
Qed.

Lemma plain_validator_replaces_the_schema_witness :
  apply_validators int_schema
    ([Sample.after_f] ++ mkDecorator 40 Plain false ["x"] false false :: [Sample.after_g])
    (Some "x")
  = apply_validators (FunctionSchema Plain false 40 None None no_slots) [Sample.after_g]
      (Some "x").
Proof.
  apply (plain_validator_replaces_the_schema [Sample.after_f] [Sample.after_g]
           (mkDecorator 40 Plain false ["x"] false false) int_schema (Some "x")).
  reflexivity.
Defined.

Lemma set_ref_set_ref (s : CoreSchema) (a b : option string) :
  set_ref (set_ref s a) b = set_ref s b.
Proof. destruct s; reflexivity. Qed.

Lemma validator_chain_extend (n : nat) :
  forall x fs m i f s fn sl,
    validator_chain n x = Some (fs, FunctionSchema m i f (Some s) fn sl) ->
    validator_chain (S n) x = Some (fs ++ [f], s).
Proof.
  induction n as [|n IH]; intros x fs m i f s fn sl H.
  - simpl in H. inversion H; subst. reflexivity.
  - cbn [validator_chain] in H.
    destruct x; try discriminate H. destruct schema as [inner|]; [|discriminate H].
    destruct (validator_chain n inner) as [[fs' base]|] eqn:E; [|discriminate H].
    inversion H; subst. clear H.
    change (validator_chain (S (S n)) (FunctionSchema mode with_info function (Some inner)
                                         field_name sl0))
      with (match validator_chain (S n) inner with
            | Some (fs0, base) => Some (function :: fs0, base)
            | None => None
            end).
    rewrite (IH _ _ _ _ _ _ _ _ E). reflexivity.
Qed.

Lemma model_validators_loop_step (mode : ModelValidatorPhase) (v : Decorator)
    (r : list Decorator) (s : CoreSchema) :
  apply_model_validators_loop s (v :: r) mode
  = if phase_applies mode v then
      match dec_mode v with
      | Plain => Raise AssertionError
      | m => apply_model_validators_loop
               (FunctionSchema m (info_arg v) (func v) (Some s) None no_slots) r mode
      end
    else apply_model_validators_loop s r mode.
Proof. unfold phase_applies. simpl. destruct mode, (dec_mode v); reflexivity. Qed.

Lemma model_validators_loop_spec (mode : ModelValidatorPhase) (vs : list Decorator) :
  forall s,
    forallb (fun v => negb (phase_applies mode v) || chainable v) vs = true ->
    exists s',
      apply_model_validators_loop s vs mode = Ok s'
      /\ validator_chain (List.length (filter (phase_applies mode) vs)) s'
         = Some (rev (map func (filter (phase_applies mode) vs)), s)
      /\ (get_ref s = None -> get_ref s' = None).
Proof.
  induction vs as [|v r IH]; intros s Hc.
  - exists s. repeat split; auto.
  - simpl in Hc. apply andb_true_iff in Hc. destruct Hc as [Hv Hr].
    rewrite model_validators_loop_step. cbn [filter].
    destruct (phase_applies mode v) eqn:Ea.
    + simpl in Hv. unfold chainable in Hv.
      assert (G : forall m,
                 exists s',
                   apply_model_validators_loop
                     (FunctionSchema m (info_arg v) (func v) (Some s) None no_slots) r mode
                   = Ok s'
                   /\ validator_chain (List.length (v :: filter (phase_applies mode) r)) s'
                      = Some (rev (map func (v :: filter (phase_applies mode) r)), s)
                   /\ (get_ref s = None -> get_ref s' = None)).
      { intros m.
        destruct (IH (FunctionSchema m (info_arg v) (func v) (Some s) None no_slots) Hr)
          as (s' & E & C & R).
        exists s'. split; [exact E | split; [|intros _; apply R; reflexivity]].
        cbn [List.length map rev]. eapply validator_chain_extend. exact C. }
      destruct (dec_mode v); try discriminate Hv; apply G.
    + apply IH. exact Hr.
Qed.



(** X10. A 'plain' model validator that its phase applies makes
    [apply_model_validators] fail its final assertion. *)
Theorem plain_model_validator_fails_assertion :
  forall (mode : ModelValidatorPhase) (before_ after_ : list Decorator) (p : Decorator)
         (s : CoreSchema),
    dec_mode p = Plain ->
    phase_applies mode p = true ->
    forallb (fun v => negb (phase_applies mode v) || chainable v) before_ = true ->
    apply_model_validators s (before_ ++ p :: after_) mode = Raise AssertionError.
Proof.
  intros mode before_ after_ p s Hp Ha Hb. unfold apply_model_validators.
  assert (L : forall l x,
             forallb (fun v => negb (phase_applies mode v) || chainable v) l = true ->
             apply_model_validators_loop x (l ++ p :: after_) mode = Raise AssertionError).
  { induction l as [|a l IHl]; intros x Hl.
    - simpl. unfold phase_applies in Ha. rewrite Hp in *.
      destruct mode; try discriminate Ha; reflexivity.
    - simpl in Hl. apply andb_true_iff in Hl. destruct Hl as [H1 H2].
      unfold phase_applies, chainable in H1. cbn [app apply_model_validators_loop].
      destruct mode, (dec_mode a); try discriminate H1; apply IHl; exact H2. }
  rewrite L by exact Hb. reflexivity.
Qed.

Lemma plain_model_validator_fails_assertion_witness :
  apply_model_validators int_schema
    ([Sample.after_f] ++ mkDecorator 40 Plain false ["x"] false false :: []) All
  = Raise AssertionError.
Proof.
  apply (plain_model_validator_fails_assertion All [Sample.after_f] []
           (mkDecorator 40 Plain false ["x"] false false) int_schema);
    reflexivity.
Defined.

(** ** Decorator fields *)

(** X11. [check_decorator_fields_exist] succeeds exactly when every decorator
    either names the wildcard or names declared fields only; otherwise it
    raises the user error of code 'decorator-missing-field'. *)
Theorem decorator_fields_check_characterised :
  forall (decorators : list (list string)) (fields : list string),
    (check_decorator_fields_exist decorators fields = Ok tt
     <-> Forall (fun dec => In "*" dec \/ incl dec fields) decorators)
    /\ (check_decorator_fields_exist decorators fields = Ok tt
        \/ check_decorator_fields_exist decorators fields
           = Raise (PydanticUserError "Decorators defined with incorrect fields"
                      "decorator-missing-field")).
Proof.
  intros decorators fields.
  assert (Hmem : forall x l, mem_string x l = true <-> In x l).
  { intros x l. unfold mem_string. destruct (in_dec string_dec x l); split; auto; discriminate. }
  assert (Hall : forall dec, forallb (fun f => mem_string f fields) dec = true
                             <-> incl dec fields).
  { intros dec. rewrite forallb_forall. unfold incl.
    split; intros H x Hx; apply Hmem; apply H; exact Hx. }
  induction decorators as [|dec r [IH1 IH2]]; simpl.
  - split; [split; [constructor | reflexivity] | left; reflexivity].
  - destruct (mem_string "*" dec) eqn:Es.
    + split; [|exact IH2].
      rewrite IH1. split; intros H.
      * constructor; [left; apply Hmem; exact Es | exact H].
      * inversion H; assumption.
    + destruct (forallb (fun field => mem_string field fields) dec) eqn:Ef.
      * split; [|exact IH2].
        rewrite IH1. split; intros H.
        -- constructor; [right; apply Hall; exact Ef | exact H].
        -- inversion H; assumption.
      * split; [|right; reflexivity].
        split; [discriminate|]. intros H. inversion H as [|? ? [Hw|Hi] ?]; subst.
        -- apply Hmem in Hw. congruence.
        -- apply Hall in Hi. congruence.
Qed.

(** ** Fields with defaults, and [typing.Self] *)

Lemma last_snoc (A : Type) (l : list A) (x d : A) : last (l ++ [x]) d = x.
Proof.
  induction l as [|a l IH]; [reflexivity|].
  simpl. destruct (l ++ [x]) eqn:E; [destruct l; discriminate E | exact IH].
Qed.

Section FieldDefaults.

Variable get_type_ref : Ty -> string.
Variable classes : list (string * ModelClass).
Variable apply_known_metadata : Annotation -> CoreSchema -> option CoreSchema.
Variable expand_grouped_metadata : list Annotation -> list Annotation.
Variable apply_discriminator : CoreSchema -> string -> Outcome CoreSchema.
Variable hash : Z -> bool -> Z.
Variable _extract_get_pydantic_json_schema : Ty -> option Callable.

(** X12. For a field with a default or a default factory, the 'default'
    schema that [_common_field_schema] answers validates the default whenever
    a legacy validator with [always=True] applies to the field, whatever the
    field itself says; without such a validator it carries the field's own
    [validate_default]. *)
Theorem always_validator_forces_validate_default :
  forall inner name field_info decorators w s w',
    is_required (fi_attrs field_info) = false ->
    _common_field_schema get_type_ref apply_known_metadata expand_grouped_metadata
      apply_discriminator hash _extract_get_pydantic_json_schema inner name field_info
      decorators w = (Ok s, w') ->
    exists x d sl,
      s = DefaultSchema x d
            (if _validators_require_validate_default
                  (filter_field_decorator_info_by_field (validators decorators) name)
             then Some true
             else validate_default (fi_attrs field_info))
            sl.
Proof.
  intros inner name field_info decorators w s w' Hr H.
  unfold _common_field_schema in H. bind_inv H. bind_inv H.
  apply lift_ok in H1. destruct H1 as [He ->].
  match type of H with
  | context [is_required ?a] =>
      assert (Hr' : is_required a = false)
        by (destruct (_validators_require_validate_default _); exact Hr);
      rewrite Hr' in H;
      destruct (wrap_default_not_required a
                  (apply_validators a0
                     (filter (fun v => negb (each_item v))
                        (filter_field_decorator_info_by_field (validators decorators) name))
                     (Some name)) Hr') as [d Hd]
  end.
  rewrite Hd in H. unfold with_default_schema in H.
  apply field_serializers_keep_default in H. destruct H as [sl ->].
  eexists. exists d, sl. f_equal.
  destruct (_validators_require_validate_default _); reflexivity.
Qed.

(** X13. Inside a model under construction, [typing.Self] is answered by a
    reference node to the innermost model of the model-type stack, with no
    nested call; on an empty stack it is refused with the user error of code
    'invalid-self-type'. *)
Theorem self_resolves_to_enclosing_model :
  (forall fuel w outer cls,
      model_type_stack (self w) = outer ++ [cls] ->
      known w (get_type_ref (TModel cls)) = true ->
      fst (generate_schema get_type_ref classes apply_known_metadata
             expand_grouped_metadata apply_discriminator hash
             _extract_get_pydantic_json_schema fuel TSelf w)
      = Ok (definition_reference_schema (get_type_ref (TModel cls))))
  /\ (forall fuel w,
         model_type_stack (self w) = [] ->
         generate_schema get_type_ref classes apply_known_metadata
           expand_grouped_metadata apply_discriminator hash
           _extract_get_pydantic_json_schema fuel TSelf w
         = (Raise (PydanticUserError "`typing.Self` is invalid in this context"
                     "invalid-self-type"), w)).
Proof.
  split.
  - intros fuel w outer cls Hs Hk.
    assert (Hg : model_type_stack_get w = Some cls).
    { unfold model_type_stack_get. rewrite Hs.
      destruct outer as [|a l]; [reflexivity|].
      simpl. f_equal. apply last_snoc. }
    assert (Hr : _resolve_self_type w = (Ok (TModel cls), w))
      by (unfold _resolve_self_type; rewrite Hg; reflexivity).
    assert (Hp : forall inner,
               _generate_schema_from_property get_type_ref inner TSelf TSelf true w
               = (Ok (Some (definition_reference_schema (get_type_ref (TModel cls)))), w)).
    { intros inner. unfold _generate_schema_from_property.
      erewrite bind_step by (erewrite bind_step by exact Hr; reflexivity).
      cbn [fst snd].
      erewrite bind_step by (unfold get_schema_or_ref; rewrite Hk; reflexivity).
      reflexivity. }
    unfold generate_schema, generate_schema_with.
    erewrite bind_step by apply Hp.
    erewrite bind_step by reflexivity.
    unfold add_metadata_js_function, add_js_function_to_original.
    destruct (_extract_get_pydantic_json_schema TSelf) as [f|]; [|reflexivity].
    cbn [definition_reference_schema]. unfold bind, get_definitions.
    destruct (dict_get (definitions (defs (self w))) (get_type_ref (TModel cls)));
      reflexivity.
  - intros fuel w Hs.
    unfold generate_schema, generate_schema_with, _generate_schema_from_property.
    unfold _resolve_self_type, model_type_stack_get, bind. rewrite Hs. reflexivity.
Qed.

End FieldDefaults.

Lemma always_validator_forces_validate_default_witness :
  let always_v := mkDecorator 12 After false ["x"] false true in
  let c := mkModel [("x", mkFieldInfo (TPrim "int") [] (mkAttrs (Some 5) None None None) None)]
             Sample.config false [] [always_v] [] [] [] [] in
  exists x d sl,
    FunctionSchema After false 12 (Some int_schema) None no_slots = x
    /\ DefaultSchema (FunctionSchema After false 12 (Some int_schema) None no_slots)
         (DefaultValue 5) (Some true) no_slots
       = DefaultSchema x d
           (if _validators_require_validate_default
                 (filter_field_decorator_info_by_field (validators c) "x")
            then Some true
            else validate_default (mkAttrs (Some 5) None None None))
           sl.
Proof.
  intros always_v c.
  destruct (always_validator_forces_validate_default Sample.type_ref
              Sample.apply_known_metadata Sample.expand_grouped_metadata
              Sample.apply_discriminator Sample.hash Sample.json_schema_of
              (_generate_schema_inner Sample.type_ref Sample.classes
                 Sample.apply_known_metadata Sample.expand_grouped_metadata
                 Sample.apply_discriminator Sample.hash Sample.json_schema_of 3)
              "x" (mkFieldInfo (TPrim "int") [] (mkAttrs (Some 5) None None None) None) c
              Sample.fresh
              (s := DefaultSchema (FunctionSchema After false 12 (Some int_schema) None no_slots)
                      (DefaultValue 5) (Some true) no_slots)
              (w' := Sample.fresh) eq_refl eq_refl) as (x & d & sl & E).
  exists x, d, sl. split; [inversion E; reflexivity | exact E].
Defined.

Lemma self_resolves_to_enclosing_model_witness :
  let w := seen_add "Node" (set_model_type_stack ["Node"] Sample.fresh) in
  fst (Sample.generate 0 TSelf w)
  = Ok (definition_reference_schema (Sample.type_ref (TModel "Node"))).
Proof.
  intros w.
  apply (proj1 (self_resolves_to_enclosing_model Sample.type_ref Sample.classes
                  Sample.apply_known_metadata Sample.expand_grouped_metadata
                  Sample.apply_discriminator Sample.hash Sample.json_schema_of)
           0 w [] "Node"); reflexivity.
Defined.

(** ** Aliases *)

Lemma first_non_null_idempotent (A : Type) (x y : option A) :
  _get_first_non_null (_get_first_non_null x y) y = _get_first_non_null x y.
Proof. destruct x, y; reflexivity. Qed.

Lemma priority_above_one (p : Z) : (1 < p)%Z -> priority_at_most_one (Some p) = false.
Proof. intros H. simpl. apply Z.leb_gt. exact H. Qed.

Lemma alias_generator_low_priority (alias_generator : AliasGeneratorArg)
    (field_info : FieldAliases) (field_name : string) a va sa :
  priority_at_most_one (alias_priority field_info) = true ->
  generated_aliases alias_generator field_name = Ok (a, va, sa) ->
  _apply_alias_generator_to_field_info alias_generator field_info field_name
  = Ok (mkAliases (Some 1%Z) a (_get_first_non_null va (option_map VStr a))
          (_get_first_non_null sa a)).
Proof.
  intros Hp Hg. unfold _apply_alias_generator_to_field_info. rewrite Hp, Hg. simpl.
  destruct a, va, sa; reflexivity.
Qed.

Lemma alias_generator_high_priority (alias_generator : AliasGeneratorArg)
    (field_info : FieldAliases) (field_name : string) p a va sa :
  alias_priority field_info = Some p -> (1 < p)%Z ->
  generated_aliases alias_generator field_name = Ok (a, va, sa) ->
  _apply_alias_generator_to_field_info alias_generator field_info field_name
  = Ok (mkAliases (Some p)
          (_get_first_non_null (alias field_info) a)
          (_get_first_non_null (validation_alias field_info)
             (_get_first_non_null va (option_map VStr a)))
          (_get_first_non_null (serialization_alias field_info)
             (_get_first_non_null sa a))).
Proof.
  intros Hp Hlt Hg. unfold _apply_alias_generator_to_field_info.
  destruct field_info as [pr al val ser]. simpl in Hp. subst pr. cbn [alias_priority
    alias validation_alias serialization_alias].
  rewrite (priority_above_one Hlt), Hg.
  assert (Hne : forall (T : Type) (x y : T), match Some p with
                                             | Some 1%Z => x
                                             | _ => y
                                             end = y).
  { intros T x y. destruct p as [|q|q]; try reflexivity.
    destruct q; try reflexivity. lia. }
  destruct al, val, ser; simpl; rewrite ?Hne; simpl; rewrite ?Hne; reflexivity.
Qed.

(** X14. How [_apply_alias_generator_to_field_info] ranks the aliases. A
    field with alias priority above 1 and all three aliases set is left as it
    is, whatever the generator (which is not even called). With no priority
    or a priority of at most 1, the generated aliases replace the field's,
    the priority becoming 1. With a priority above 1, the aliases the field
    has are kept and only the missing ones are taken from the generator. *)
Theorem alias_generator_precedence :
  (forall alias_generator field_info field_name p a va sa,
      alias_priority field_info = Some p -> (1 < p)%Z ->
      alias field_info = Some a -> validation_alias field_info = Some va ->
      serialization_alias field_info = Some sa ->
      _apply_alias_generator_to_field_info alias_generator field_info field_name
      = Ok field_info)
  /\ (forall alias_generator field_info field_name a va sa,
         priority_at_most_one (alias_priority field_info) = true ->
         generated_aliases alias_generator field_name = Ok (a, va, sa) ->
         _apply_alias_generator_to_field_info alias_generator field_info field_name
         = Ok (mkAliases (Some 1%Z) a (_get_first_non_null va (option_map VStr a))
                 (_get_first_non_null sa a)))
  /\ (forall alias_generator field_info field_name p a va sa,
         alias_priority field_info = Some p -> (1 < p)%Z ->
         generated_aliases alias_generator field_name = Ok (a, va, sa) ->
         _apply_alias_generator_to_field_info alias_generator field_info field_name
         = Ok (mkAliases (Some p)
                 (_get_first_non_null (alias field_info) a)
                 (_get_first_non_null (validation_alias field_info)
                    (_get_first_non_null va (option_map VStr a)))
                 (_get_first_non_null (serialization_alias field_info)
                    (_get_first_non_null sa a)))).
Proof.
  split; [|split].
  - intros alias_generator field_info field_name p a va sa Hp Hlt Ha Hv Hs.
    unfold _apply_alias_generator_to_field_info.
    rewrite Hp, Ha, Hv, Hs, (priority_above_one Hlt). reflexivity.
  - intros. apply alias_generator_low_priority; assumption.
  - intros. eapply alias_generator_high_priority; eassumption.
Qed.

Lemma alias_generator_precedence_witness :
  _apply_alias_generator_to_field_info
    (IsCallable (fun n => PyStr (n ++ "Alias")))
    (mkAliases (Some 2%Z) (Some "explicit") None None) "name"
  = Ok (mkAliases (Some 2%Z)
          (_get_first_non_null (Some "explicit") (Some "nameAlias"))
          (_get_first_non_null None
             (_get_first_non_null None (option_map VStr (Some "nameAlias"))))
          (_get_first_non_null None (_get_first_non_null None (Some "nameAlias")))).
Proof.
  apply (proj2 (proj2 alias_generator_precedence)
           (IsCallable (fun n => PyStr (n ++ "Alias")))
           (mkAliases (Some 2%Z) (Some "explicit") None None) "name" 2%Z
           (Some "nameAlias") None None); [reflexivity | lia | reflexivity].
Defined.

(** X15. Applying the alias generator is idempotent: applied again with the
    same generator to the field info it answered, it answers that field info
    unchanged. *)
Theorem alias_generator_is_idempotent :
  forall alias_generator field_info field_name field_info',
    _apply_alias_generator_to_field_info alias_generator field_info field_name
    = Ok field_info' ->
    _apply_alias_generator_to_field_info alias_generator field_info' field_name
    = Ok field_info'.
Proof.
  intros alias_generator field_info field_name field_info' H.
  destruct (priority_at_most_one (alias_priority field_info)) eqn:Hp.
  - destruct (generated_aliases alias_generator field_name) as [[[a va] sa]| e |] eqn:Hg;
      try (unfold _apply_alias_generator_to_field_info in H; rewrite Hp, Hg in H;
           simpl in H; discriminate H).
    rewrite (alias_generator_low_priority _ _ _ Hp Hg) in H. inversion H; subst.
    apply alias_generator_low_priority; [reflexivity | exact Hg].
  - destruct (alias_priority field_info) as [p|] eqn:Ep; [|discriminate Hp].
    assert (Hlt : (1 < p)%Z) by (simpl in Hp; apply Z.leb_gt; exact Hp).
    destruct (is_none (alias field_info) || is_none (validation_alias field_info)
              || is_none (serialization_alias field_info)) eqn:Hn.
    + destruct (generated_aliases alias_generator field_name) as [[[a va] sa]| e |] eqn:Hg;
        try (unfold _apply_alias_generator_to_field_info in H; rewrite Ep, Hp, Hg in H;
             simpl in H; rewrite Hn in H; discriminate H).
      rewrite (alias_generator_high_priority _ _ _ Ep Hlt Hg) in H. inversion H; subst.
      erewrite alias_generator_high_priority; [|reflexivity | exact Hlt | exact Hg].
      cbn [alias validation_alias serialization_alias].
      rewrite !first_non_null_idempotent. reflexivity.
    + unfold _apply_alias_generator_to_field_info in H. rewrite Ep, Hp in H.
      simpl in H. rewrite Hn in H. inversion H; subst.
      unfold _apply_alias_generator_to_field_info. rewrite Ep, Hp. simpl. rewrite Hn.
      reflexivity.
Qed.

Lemma alias_generator_is_idempotent_witness :
  _apply_alias_generator_to_field_info (IsCallable (fun n => PyStr (n ++ "Alias")))
    (mkAliases (Some 1%Z) (Some "nameAlias") (Some (VStr "nameAlias")) (Some "nameAlias"))
    "name"
  = Ok (mkAliases (Some 1%Z) (Some "nameAlias") (Some (VStr "nameAlias"))
          (Some "nameAlias")).
Proof.
  apply (alias_generator_is_idempotent (IsCallable (fun n => PyStr (n ++ "Alias")))
           (mkAliases None (Some "explicit") None None) "name").
  reflexivity.
Defined.

(** X16. For a computed field, the generated alias is taken only when the
    priority is unset or at most 1, the serialization alias of the generator
    being preferred to its alias; with a priority above 1 the computed field
    keeps what it has, a missing alias included, as long as the generator
    does not raise. *)
Theorem computed_field_alias_needs_low_priority :
  (forall alias_generator info name a va sa,
      priority_at_most_one (computed_alias_priority info) = true ->
      generated_aliases alias_generator name = Ok (a, va, sa) ->
      _apply_alias_generator_to_computed_field_info alias_generator info name
      = Ok (mkComputedAliases (Some 1%Z) (_get_first_non_null sa a)))
  /\ (forall alias_generator info name p,
         computed_alias_priority info = Some p -> (1 < p)%Z ->
         (forall e, generated_aliases alias_generator name <> Raise e) ->
         _apply_alias_generator_to_computed_field_info alias_generator info name = Ok info)
  /\ (forall alias_generator info name p a,
         computed_alias_priority info = Some p -> (1 < p)%Z ->
         computed_alias info = Some a ->
         _apply_alias_generator_to_computed_field_info alias_generator info name = Ok info).
Proof.
  split; [|split].
  - intros alias_generator info name a va sa Hp Hg.
    unfold _apply_alias_generator_to_computed_field_info. rewrite Hp, Hg. reflexivity.
  - intros alias_generator [pr al] name p Hp Hlt Hne. simpl in Hp. subst pr.
    unfold _apply_alias_generator_to_computed_field_info.
    cbn [computed_alias_priority computed_alias].
    rewrite (priority_above_one Hlt).
    destruct (is_none al); [|reflexivity]. cbn [orb].
    destruct (generated_aliases alias_generator name) as [[[a va] sa]| e |] eqn:Hg.
    + destruct p as [|q|q]; try reflexivity. destruct q; try reflexivity. lia.
    + exfalso. eapply Hne. reflexivity.
    + destruct alias_generator as [g|c|]; simpl in Hg; try discriminate Hg.
      destruct (c name); discriminate Hg.
  - intros alias_generator info name p a Hp Hlt Ha.
    unfold _apply_alias_generator_to_computed_field_info.
    rewrite Hp, Ha, (priority_above_one Hlt). reflexivity.
Qed.

Lemma computed_field_alias_needs_low_priority_witness :
  _apply_alias_generator_to_computed_field_info
    (IsAliasGenerator (fun n => (Some "a", None, Some "s")))
    (mkComputedAliases None (Some "old")) "area"
  = Ok (mkComputedAliases (Some 1%Z) (_get_first_non_null (Some "s") (Some "a"))).
Proof.
  apply (proj1 computed_field_alias_needs_low_priority
           (IsAliasGenerator (fun n => (Some "a", None, Some "s")))
           (mkComputedAliases None (Some "old")) "area" (Some "a") None (Some "s"));
    reflexivity.
Defined.

(** ** Titles and hints *)

(** X17. [_apply_field_title_generator_to_field_info] never replaces a title
    that is set; with no title, the field's own generator is used and the
    one of the configuration is ignored; with no generator at all nothing
    changes; and whenever it returns and a generator exists, the field has a
    title. *)
Theorem title_generator_fills_missing_title_only :
  (forall config_generator info name t,
      title_of info = Some t ->
      _apply_field_title_generator_to_field_info config_generator info name = Ok info)
  /\ (forall config_generator config_generator' g name,
         _apply_field_title_generator_to_field_info config_generator
           (mkTitleInfo None (Some g)) name
         = _apply_field_title_generator_to_field_info config_generator'
             (mkTitleInfo None (Some g)) name)
  /\ (forall info name,
         field_title_generator_of info = None ->
         _apply_field_title_generator_to_field_info None info name = Ok info)
  /\ (forall config_generator info name info',
         (field_title_generator_of info <> None \/ config_generator <> None) ->
         _apply_field_title_generator_to_field_info config_generator info name = Ok info' ->
         title_of info' <> None).
Proof.
  split; [|split; [|split]].
  - intros config_generator [t0 g0] name t Ht. simpl in Ht. subst.
    unfold _apply_field_title_generator_to_field_info. simpl.
    destruct g0; [reflexivity | destruct config_generator; reflexivity].
  - reflexivity.
  - intros [t0 g0] name Hg. simpl in Hg. subst. reflexivity.
  - intros config_generator [t0 g0] name info' Hex H.
    unfold _apply_field_title_generator_to_field_info in H. simpl in *.
    destruct g0 as [g|].
    + destruct t0; [inversion H; subst; discriminate|].
      destruct (g name None); inversion H; subst; discriminate.
    + destruct config_generator as [g|]; [|destruct Hex; congruence].
      destruct t0; [inversion H; subst; discriminate|].
      destruct (g name None); inversion H; subst; discriminate.
Qed.

Lemma title_generator_fills_missing_title_only_witness :
  _apply_field_title_generator_to_field_info (Some (fun n _ => PyStr "From Config"))
    (mkTitleInfo (Some "Mine") None) "x"
  = Ok (mkTitleInfo (Some "Mine") None).
Proof.
  apply (proj1 title_generator_fills_missing_title_only
           (Some (fun n _ => PyStr "From Config")) (mkTitleInfo (Some "Mine") None) "x" "Mine").
  reflexivity.
Defined.

(** X18. In the hints [_extract_json_schema_info_from_field_info] collects,
    a 'deprecated' entry is always [True]: [deprecated=False] leaves no entry
    at all, an empty message counts as deprecated; and the hints are [None]
    exactly when no title, description or examples are set and the field is
    not deprecated. *)
Theorem deprecated_hint_is_true_or_absent :
  forall info,
    (forall l v,
        fst (_extract_json_schema_info_from_field_info info) = Some l ->
        In ("deprecated", v) l -> v = HintTrue)
    /\ (hint_deprecated info = Some (DeprecatedBool false) \/ hint_deprecated info = None ->
        forall l, fst (_extract_json_schema_info_from_field_info info) = Some l ->
                  ~ In "deprecated" (map fst l))
    /\ (hint_deprecated info = Some (DeprecatedStr "") ->
        exists l, fst (_extract_json_schema_info_from_field_info info) = Some l
                  /\ In ("deprecated", HintTrue) l)
    /\ (fst (_extract_json_schema_info_from_field_info info) = None
        <-> hint_title info = None /\ hint_description info = None
            /\ deprecated_hint (hint_deprecated info) = None
            /\ hint_examples info = None).
Proof.
  intros [t d dep ex extra]. unfold _extract_json_schema_info_from_field_info. simpl.
  split; [|split; [|split]].
  - intros l v H Hin.
    destruct t, d, dep as [[[|]|m|]|], ex; simpl in H; inversion H; subst; clear H;
      simpl in Hin;
      repeat (destruct Hin as [Hin|Hin]; [inversion Hin; subst; try reflexivity|]);
      try contradiction.
  - intros Hd l H.
    destruct Hd as [Hd|Hd]; subst dep;
      destruct t, d, ex; simpl in H; inversion H; subst; simpl;
      intros Hin; repeat (destruct Hin as [Hin|Hin]; [discriminate Hin|]); contradiction.
  - intros Hd. subst dep.
    destruct t, d, ex; simpl; eexists; (split; [reflexivity|]); simpl; tauto.
  - destruct t, d, dep as [[[|]|m|]|], ex; simpl;
      split; intros H; try discriminate H;
      try (destruct H as (H1 & H2 & H3 & H4); discriminate);
      repeat split; reflexivity.
Qed.

Lemma deprecated_hint_is_true_or_absent_witness :
  exists l,
    fst (_extract_json_schema_info_from_field_info
           (mkHintInfo None None (Some (DeprecatedStr "")) None None)) = Some l
    /\ In ("deprecated", HintTrue) l.
Proof.
  apply (proj1 (proj2 (proj2 (deprecated_hint_is_true_or_absent
           (mkHintInfo None None (Some (DeprecatedStr "")) None None))))).
  reflexivity.
Defined.

(** ** Serializers from [json_encoders] *)

Lemma first_encoder_none (encoders : list (string * Callable)) (bases : list string) :
  (forall b, In b bases -> dict_get encoders b = None) ->
  first_encoder encoders bases = None.
Proof.
  induction bases as [|b r IH]; intros H; [reflexivity|].
  simpl. rewrite (H b) by (left; reflexivity). apply IH. intros x Hx. apply H. right. exact Hx.
Qed.

(** X19. [_add_custom_serialization_from_json_encoders] keeps a serializer
    that the schema already has, so that applying it twice is applying it
    once; an encoder registered for the type itself is preferred to those of
    its bases; when no encoder is registered for the type or for a base
    other than the last class of the MRO, the schema stays as it is; and in
    every case only the serialization slot may change. *)
Theorem json_encoder_never_overrides_serializer :
  (forall json_encoders tp mro s ser,
      get_serialization s = Some ser ->
      _add_custom_serialization_from_json_encoders json_encoders tp mro s = s)
  /\ (forall json_encoders tp mro s,
         _add_custom_serialization_from_json_encoders json_encoders tp mro
           (_add_custom_serialization_from_json_encoders json_encoders tp mro s)
         = _add_custom_serialization_from_json_encoders json_encoders tp mro s)
  /\ (forall encoders tp mro s encoder,
         get_serialization s = None ->
         dict_get encoders tp = Some encoder ->
         get_serialization
           (_add_custom_serialization_from_json_encoders (Some encoders) tp mro s)
         = Some (mkSer SerPlain encoder None false None "json"))
  /\ (forall encoders tp mro s,
         (forall b, In b (tp :: removelast mro) -> dict_get encoders b = None) ->
         _add_custom_serialization_from_json_encoders (Some encoders) tp mro s = s)
  /\ (forall json_encoders tp mro s,
         schema_type (_add_custom_serialization_from_json_encoders json_encoders tp mro s)
         = schema_type s
         /\ get_ref (_add_custom_serialization_from_json_encoders json_encoders tp mro s)
            = get_ref s
         /\ get_metadata (_add_custom_serialization_from_json_encoders json_encoders tp mro s)
            = get_metadata s).
Proof.
  assert (P1 : forall json_encoders tp mro s ser,
             get_serialization s = Some ser ->
             _add_custom_serialization_from_json_encoders json_encoders tp mro s = s).
  { intros json_encoders tp mro s ser H. unfold _add_custom_serialization_from_json_encoders.
    rewrite H. destruct json_encoders as [[|e r]|]; reflexivity. }
  split; [exact P1 | split; [|split; [|split]]].
  - intros json_encoders tp mro s.
    assert (C : _add_custom_serialization_from_json_encoders json_encoders tp mro s = s
                \/ exists ser,
                     get_serialization
                       (_add_custom_serialization_from_json_encoders json_encoders tp mro s)
                     = Some ser).
    { unfold _add_custom_serialization_from_json_encoders.
      destruct json_encoders as [[|e r]|]; try (left; reflexivity).
      destruct (get_serialization s); [left; reflexivity|].
      destruct (first_encoder (e :: r) (tp :: removelast mro)); [|left; reflexivity].
      right. eexists. apply get_serialization_set_serialization. }
    destruct C as [C | [ser C]].
    + rewrite C. exact C.
    + eapply P1. exact C.
  - intros encoders tp mro s encoder Hs Hd.
    unfold _add_custom_serialization_from_json_encoders.
    destruct encoders as [|e r]; [discriminate Hd|].
    rewrite Hs. cbn [first_encoder]. rewrite Hd.
    apply get_serialization_set_serialization.
  - intros encoders tp mro s H. unfold _add_custom_serialization_from_json_encoders.
    destruct encoders as [|e r]; [reflexivity|].
    destruct (get_serialization s); [reflexivity|].
    rewrite first_encoder_none by exact H. reflexivity.
  - intros json_encoders tp mro s. unfold _add_custom_serialization_from_json_encoders.
    destruct json_encoders as [[|e r]|]; try (repeat split; reflexivity).
    destruct (get_serialization s); [repeat split; reflexivity|].
    destruct (first_encoder (e :: r) (tp :: removelast mro)); [|repeat split; reflexivity].
    unfold set_serialization, get_ref, get_metadata.
    rewrite slots_set_slots. destruct s; repeat split; reflexivity.
Qed.

Lemma json_encoder_never_overrides_serializer_witness :
  get_serialization
    (_add_custom_serialization_from_json_encoders (Some [("Decimal", 50); ("Base", 51)])
       "Decimal" ["Decimal"; "Base"; "object"] int_schema)
  = Some (mkSer SerPlain 50 None false None "json").
Proof.
  apply (proj1 (proj2 (proj2 json_encoder_never_overrides_serializer))
           [("Decimal", 50); ("Base", 51)] "Decimal" ["Decimal"; "Base"; "object"]
           int_schema 50); reflexivity.
Defined.

(** ** Definitions collected, unpacked and registered *)

Lemma dict_get_values (A : Type) (d : list (string * A)) (k : string) (v : A) :
  dict_get d k = Some v -> In v (dict_values d).
Proof.
  intros H. apply dict_get_In in H. unfold dict_values.
  apply (in_map snd) in H. exact H.
Qed.

(** X20. [collect_definitions] answers a 'definitions' schema that lists the
    whole table. A root bearing a non-empty ref is stored in the table under
    that ref, is among the listed definitions, and is replaced at the root by
    a reference node to it; a root without ref stays at the root and the
    generator is left as it was. *)
Theorem collected_root_is_registered :
  (forall s w r,
      get_ref s = Some r -> r <> "" ->
      exists w',
        collect_definitions s w
        = (Ok (definitions_schema (definition_reference_schema r)
                 (dict_values (definitions (defs (self w'))))), w')
        /\ dict_get (definitions (defs (self w'))) r = Some s
        /\ In s (dict_values (definitions (defs (self w')))))
  /\ (forall s w,
         get_ref s = None ->
         collect_definitions s w
         = (Ok (definitions_schema s (dict_values (definitions (defs (self w))))), w)).
Proof.
  split.
  - intros s w r Hr Hn. unfold collect_definitions. rewrite Hr. cbn [truthy_ref].
    destruct (string_dec r "") as [E|_]; [contradiction|].
    eexists. split; [reflexivity|].
    simpl. split; [apply dict_get_set_same | eapply dict_get_values, dict_get_set_same].
  - intros s w Hr. unfold collect_definitions. rewrite Hr. reflexivity.
Qed.

Lemma collected_root_is_registered_witness :
  exists w',
    collect_definitions (set_ref int_schema (Some "Positive")) Sample.fresh
    = (Ok (definitions_schema (definition_reference_schema "Positive")
             (dict_values (definitions (defs (self w'))))), w')
    /\ dict_get (definitions (defs (self w'))) "Positive"
       = Some (set_ref int_schema (Some "Positive"))
    /\ In (set_ref int_schema (Some "Positive")) (dict_values (definitions (defs (self w')))).
Proof.
  apply (proj1 collected_root_is_registered (set_ref int_schema (Some "Positive"))
           Sample.fresh "Positive"); [reflexivity | discriminate].
Defined.

Lemma store_definitions_spec (l : list CoreSchema) :
  forall w,
    Forall (fun d => get_ref d <> None) l ->
    NoDup (map get_ref l) ->
    exists w',
      store_definitions l w = (Ok tt, w')
      /\ (forall d r, In d l -> get_ref d = Some r ->
                      dict_get (definitions (defs (self w'))) r = Some d)
      /\ (forall r, ~ In (Some r) (map get_ref l) ->
                    dict_get (definitions (defs (self w'))) r
                    = dict_get (definitions (defs (self w))) r).
Proof.
  induction l as [|s rest IH]; intros w Hall Hnd.
  - exists w. split; [reflexivity | split; [intros d r [] | reflexivity]].
  - inversion Hall as [|? ? Hs Hrest]; subst. inversion Hnd as [|? ? Hnotin Hnd']; subst.
    cbn [store_definitions]. destruct (get_ref s) as [x|] eqn:Ex; [|congruence].
    unfold bind at 1. unfold definitions_set, modify_self.
    set (w1 := mkWorld (SCHEMA_CACHE w)
                 (set_defs (mkDefs (seen (defs (self w)))
                              (dict_set (definitions (defs (self w))) x s)) (self w))).
    destruct (IH w1 Hrest Hnd') as (w' & E & Hin & Hout).
    exists w'. split; [exact E | split].
    + intros d r [<- | Hd] Hr.
      * rewrite Ex in Hr. inversion Hr; subst.
        rewrite Hout by exact Hnotin. simpl. apply dict_get_set_same.
      * apply Hin; assumption.
    + intros r Hr. simpl in Hr.
      rewrite Hout by (intros H; apply Hr; right; exact H).
      simpl. apply dict_get_set_other. intros ->. apply Hr. left. exact Ex.
Qed.

(** X21. [_unpack_refs_defs] on a 'definitions' schema whose definitions bear
    distinct refs stores each of them in the table under its ref and answers
    the inner schema; refs that are not among them keep their definitions;
    any other schema is answered as it is, the table untouched. *)
Theorem unpacked_definitions_are_registered :
  (forall inner ds sl w,
      Forall (fun d => get_ref d <> None) ds ->
      NoDup (map get_ref ds) ->
      exists w',
        _unpack_refs_defs (DefinitionsSchema inner ds sl) w = (Ok inner, w')
        /\ (forall d r, In d ds -> get_ref d = Some r ->
                        dict_get (definitions (defs (self w'))) r = Some d)
        /\ (forall r, ~ In (Some r) (map get_ref ds) ->
                      dict_get (definitions (defs (self w'))) r
                      = dict_get (definitions (defs (self w))) r))
  /\ (forall s w,
         (forall inner ds sl, s <> DefinitionsSchema inner ds sl) ->
         _unpack_refs_defs s w = (Ok s, w)).
Proof.
  split.
  - intros inner ds sl w Hall Hnd.
    destruct (store_definitions_spec w Hall Hnd) as (w' & E & Hin & Hout).
    exists w'. split; [|split; assumption].
    unfold _unpack_refs_defs. erewrite bind_step by exact E. reflexivity.
  - intros s w H. destruct s; try reflexivity. exfalso. eapply H. reflexivity.
Qed.

Lemma unpacked_definitions_are_registered_witness :
  exists w',
    _unpack_refs_defs
      (DefinitionsSchema (definition_reference_schema "A")
         [set_ref int_schema (Some "A"); set_ref str_schema (Some "B")] no_slots)
      Sample.fresh
    = (Ok (definition_reference_schema "A"), w')
    /\ (forall d r,
           In d [set_ref int_schema (Some "A"); set_ref str_schema (Some "B")] ->
           get_ref d = Some r ->
           dict_get (definitions (defs (self w'))) r = Some d)
    /\ (forall r,
           ~ In (Some r)
               (map get_ref [set_ref int_schema (Some "A"); set_ref str_schema (Some "B")]) ->
           dict_get (definitions (defs (self w'))) r
           = dict_get (definitions (defs (self Sample.fresh))) r).
Proof.
  apply (proj1 unpacked_definitions_are_registered (definition_reference_schema "A")
           [set_ref int_schema (Some "A"); set_ref str_schema (Some "B")] no_slots
           Sample.fresh).
  - repeat constructor; discriminate.
  - simpl. repeat constructor; simpl; intuition discriminate.
Defined.

(** X22. What [_generate_schema_from_property] does with the schema a hook
    answered: a schema bearing a non-empty ref is stored under that ref and
    a reference node is answered in its place; for a before, after or wrap
    function schema the ref is taken from the inner schema, which loses it,
    and moved to the function schema before it is stored; a schema without
    ref is answered as it is and nothing is stored. *)
Theorem hook_schema_is_registered_under_its_ref :
  (forall s w r,
      (forall inner ds sl, s <> DefinitionsSchema inner ds sl) ->
      is_function_with_inner_schema s = false ->
      get_ref s = Some r -> r <> "" ->
      exists w',
        register_hook_schema s w = (Ok (definition_reference_schema r), w')
        /\ dict_get (definitions (defs (self w'))) r = Some s)
  /\ (forall m i f inner n sl w r,
         m <> Plain ->
         get_ref inner = Some r -> r <> "" ->
         exists w',
           register_hook_schema (FunctionSchema m i f (Some inner) n sl) w
           = (Ok (definition_reference_schema r), w')
           /\ dict_get (definitions (defs (self w'))) r
              = Some (set_ref (FunctionSchema m i f (Some (set_ref inner None)) n sl)
                        (Some r)))
  /\ (forall s w,
         (forall inner ds sl, s <> DefinitionsSchema inner ds sl) ->
         is_function_with_inner_schema s = false ->
         get_ref s = None ->
         register_hook_schema s w = (Ok s, w)).
Proof.
  split; [|split].
  - intros s w r Hd Hf Hr Hn. unfold register_hook_schema.
    assert (Hu : _unpack_refs_defs s w = (Ok s, w))
      by (destruct s; try reflexivity; exfalso; eapply Hd; reflexivity).
    erewrite bind_step by exact Hu.
    assert (E : (let '(s0, r0) :=
                   match s with
                   | FunctionSchema m i f (Some inner) n sl =>
                       if is_function_with_inner_schema s then
                         match truthy_ref (get_ref inner) with
                         | Some x =>
                             (set_ref (FunctionSchema m i f (Some (set_ref inner None)) n sl)
                                (Some x), Some x)
                         | None =>
                             (FunctionSchema m i f (Some (set_ref inner None)) n sl,
                              get_ref inner)
                         end
                       else (s, get_ref s)
                   | _ => (s, get_ref s)
                   end in
                 match truthy_ref r0 with
                 | Some x => bind (definitions_set x s0)
                               (fun _ => ret (definition_reference_schema x))
                 | None => ret s0
                 end)
                = bind (definitions_set r s) (fun _ => ret (definition_reference_schema r))).
    { destruct s; try (rewrite Hr; cbn [truthy_ref];
                       destruct (string_dec r ""); [contradiction | reflexivity]).
      destruct schema as [inner|];
        [rewrite Hf | ]; rewrite Hr; cbn [truthy_ref];
        destruct (string_dec r ""); try contradiction; reflexivity. }
    rewrite E. eexists. split; [reflexivity|]. simpl. apply dict_get_set_same.
  - intros m i f inner n sl w r Hm Hr Hn. unfold register_hook_schema.
    erewrite bind_step by reflexivity.
    assert (Hf : is_function_with_inner_schema (FunctionSchema m i f (Some inner) n sl) = true)
      by (destruct m; try reflexivity; congruence).
    rewrite Hf, Hr. cbn [truthy_ref].
    destruct (string_dec r "") as [E|_]; [contradiction|].
    cbn [truthy_ref]. destruct (string_dec r "") as [E|_]; [contradiction|].
    eexists. split; [reflexivity|]. simpl. apply dict_get_set_same.
  - intros s w Hd Hf Hr. unfold register_hook_schema.
    assert (Hu : _unpack_refs_defs s w = (Ok s, w))
      by (destruct s; try reflexivity; exfalso; eapply Hd; reflexivity).
    erewrite bind_step by exact Hu.
    destruct s; try (rewrite Hr; reflexivity).
    destruct schema as [inner|]; [rewrite Hf|]; rewrite Hr; reflexivity.
Qed.

Lemma hook_schema_is_registered_under_its_ref_witness :
  exists w',
    register_hook_schema
      (FunctionSchema After false 21 (Some (set_ref int_schema (Some "M"))) None no_slots)
      Sample.fresh
    = (Ok (definition_reference_schema "M"), w')
    /\ dict_get (definitions (defs (self w'))) "M"
       = Some (set_ref
                 (FunctionSchema After false 21
                    (Some (set_ref (set_ref int_schema (Some "M")) None)) None no_slots)
                 (Some "M")).
Proof.
  apply (proj1 (proj2 hook_schema_is_registered_under_its_ref) After false 21
           (set_ref int_schema (Some "M")) None no_slots Sample.fresh "M");
    [discriminate | reflexivity | discriminate].
Defined.

(** ** Each-item validators that are dropped *)

(** X23. On a tuple schema without variadic item index, also under nullable
    wrappers, [apply_each_item_validators] answers the schema unchanged and
    raises nothing: the each-item validators are dropped. *)
Theorem each_item_validators_skip_positional_tuples :
  forall (vs : list Decorator) (fn : option string) (wrappers : list Slots)
         (items : list CoreSchema) (sl : Slots),
    apply_each_item_validators (under_nullable wrappers (TupleSchema items None sl)) vs fn
    = Ok (under_nullable wrappers (TupleSchema items None sl)).
Proof.
  intros vs fn wrappers items sl. destruct vs as [|v vs].
  - destruct (under_nullable wrappers (TupleSchema items None sl)); reflexivity.
  - rewrite each_item_under_nullable by discriminate. reflexivity.
Qed.

(** ** Tuples *)

Lemma mapM_length (gen : Ty -> M CoreSchema) (l : list Ty) :
  forall w ss w', mapM gen l w = (Ok ss, w') -> List.length ss = List.length l.
Proof.
  induction l as [|t r IH]; intros w ss w' H.
  - inversion H. reflexivity.
  - cbn [mapM] in H. bind_inv H. bind_inv H. inversion H; subst.
    simpl. f_equal. eapply IH. eassumption.
Qed.

Lemma last_of_types (r : list Ty) :
  forall t, exists u, last (map PType r) (PType t) = PType u.
Proof.
  induction r as [|a r IH]; intros t; [exists t; reflexivity|].
  destruct r as [|b r']; [exists a; reflexivity|].
  destruct (IH t) as [u E]. exists u. exact E.
Qed.

(** X24. The shapes [_tuple_schema] answers, and what each-item validators
    then do to them. A tuple type that ends in [Ellipsis] but has not exactly
    two parameters raises a ValueError before any parameter is compiled. The
    homogeneous tuple [Tuple[t, ...]] compiles [t] once and marks it as the
    variadic item, so that [apply_each_item_validators] wraps exactly that
    item. A tuple of types only compiles one item per parameter, in order,
    without variadic item, so that each-item validators leave it as it is. *)
Theorem tuple_shapes_and_each_item_validators :
  forall (gen : Ty -> M CoreSchema) (bare : bool),
    (forall params w,
        is_ellipsis (last_opt params) = true ->
        List.length params <> 2 ->
        _tuple_schema gen bare params w
        = (Raise (OtherError "ValueError: Variable tuples can only have one type"), w))
    /\ (forall t w s w' vs fn,
           gen t w = (Ok s, w') ->
           _tuple_schema gen bare [PType t; PEllipsis] w
           = (Ok (TupleSchema [s] (Some 0) no_slots), w')
           /\ apply_each_item_validators (TupleSchema [s] (Some 0) no_slots) vs fn
              = Ok (TupleSchema [apply_validators s vs fn] (Some 0) no_slots))
    /\ (forall ts w items w' vs fn,
           ts <> [] ->
           mapM gen ts w = (Ok items, w') ->
           _tuple_schema gen bare (map PType ts) w
           = (Ok (TupleSchema items None no_slots), w')
           /\ List.length items = List.length ts
           /\ apply_each_item_validators (TupleSchema items None no_slots) vs fn
              = Ok (TupleSchema items None no_slots)).
Proof.
  intros gen bare. split; [|split].
  - intros params w Hl Hn. unfold _tuple_schema.
    destruct params as [|p0 rest]; [discriminate|].
    rewrite Hl. destruct (Nat.eqb (List.length (p0 :: rest)) 2) eqn:E.
    + apply Nat.eqb_eq in E. contradiction.
    + reflexivity.
  - intros t w s w' vs fn Hg. split.
    + unfold _tuple_schema. cbn [last_opt last is_ellipsis List.length Nat.eqb param_type].
      erewrite bind_step by exact Hg. reflexivity.
    + destruct vs as [|v vs]; reflexivity.
  - intros ts w items w' vs fn Hne Hm. split; [|split].
    + unfold _tuple_schema. destruct ts as [|t r]; [contradiction|].
      cbn [map].
      assert (Hl : is_ellipsis (last_opt (PType t :: map PType r)) = false).
      { cbn [last_opt]. destruct (last_of_types r t) as [u ->]. reflexivity. }
      rewrite Hl.
      assert (Hp : map param_type (PType t :: map PType r) = t :: r).
      { cbn [map param_type]. f_equal. rewrite map_map. apply map_id. }
      cbv beta iota. change (param_type (PType t) :: map param_type (map PType r))
        with (map param_type (PType t :: map PType r)). rewrite Hp. erewrite bind_step by exact Hm. reflexivity.
    + eapply mapM_length. exact Hm.
    + destruct vs; reflexivity.
Qed.

Lemma tuple_shapes_and_each_item_validators_witness :
  _tuple_schema (fun _ => ret int_schema) false [PType (TPrim "int"); PEllipsis] Sample.fresh
  = (Ok (TupleSchema [int_schema] (Some 0) no_slots), Sample.fresh)
  /\ apply_each_item_validators (TupleSchema [int_schema] (Some 0) no_slots)
       [Sample.v1_validator] (Some "x")
     = Ok (TupleSchema [apply_validators int_schema [Sample.v1_validator] (Some "x")]
             (Some 0) no_slots).
Proof.
  apply (proj1 (proj2 (tuple_shapes_and_each_item_validators (fun _ => ret int_schema) false))
           (TPrim "int") Sample.fresh int_schema Sample.fresh [Sample.v1_validator] (Some "x")).
  reflexivity.
Defined.
